(** * Reddit RSS monitor: a shallow embedding of the polling cycle

    The development follows the layout of the repository:
    - [Js]            the fragment of JavaScript values the program relies on
    - [Logger]        src/utils/logger.js
    - [DateUtils]     src/utils/dateUtils.js
    - [PostTracker]   src/services/postTracker.js
    - [RssService]    src/services/rssService.js
    - [OpenAIService] src/services/openaiService.js
    - [EmailService]  src/services/emailService.js
    - [Env]           src/config/env.js
    - [Index]         src/index.js

    Stateful code is written in a state monad over [World]; the outside
    world (clock, network, mail provider, completion API) is given by
    oracles the theorems quantify over. *)

From Stdlib Require Import ZArith String Ascii List Lia.
From stdpp Require Import base option list gmap strings pretty.

Local Open Scope string_scope.
Local Open Scope Z_scope.
Local Open Scope list_scope.

(* ===================================================================== *)
(** ** The JavaScript fragment *)
(* ===================================================================== *)

Module Js.

(** Numbers.  Every number the program computes with is an integer
    number of milliseconds or minutes (far below 2^53, where doubles
    are exact) or [NaN]. *)
Inductive number : Type :=
  | NaN
  | Num (z : Z).

Definition sub (a b : number) : number :=
  match a, b with
  | Num x, Num y => Num (x - y)
  | _, _ => NaN
  end.

Definition mul (a b : number) : number :=
  match a, b with
  | Num x, Num y => Num (x * y)
  | _, _ => NaN
  end.

(** Relational operators: any comparison with [NaN] is [false]. *)
Definition ge (a b : number) : bool :=
  match a, b with
  | Num x, Num y => y <=? x
  | _, _ => false
  end.

Definition le (a b : number) : bool :=
  match a, b with
  | Num x, Num y => x <=? y
  | _, _ => false
  end.

Definition lt (a b : number) : bool :=
  match a, b with
  | Num x, Num y => x <? y
  | _, _ => false
  end.

(** A value that is a string or [undefined]/[null] is an
    [option string]; it is truthy when it is a non-empty string. *)
Definition truthy (v : option string) : bool :=
  match v with
  | Some s => negb (String.eqb s "")
  | None => false
  end.

(** [a || b] on such values. *)
Definition or (a b : option string) : option string :=
  if truthy a then a else b.

(** [a || 'literal'] *)
Definition or_str (a : option string) (b : string) : string :=
  match a with
  | Some s => if String.eqb s "" then b else s
  | None => b
  end.

(** Template-literal interpolation of a possibly undefined string. *)
Definition show (v : option string) : string :=
  match v with
  | Some s => s
  | None => "undefined"
  end.

(** White space and line terminators, on code units below 256:
    TAB, LF, VT, FF, CR, SP and NBSP. *)
Definition isWhiteSpace (c : ascii) : bool :=
  let n := nat_of_ascii c in
  ((9 <=? n)%nat && (n <=? 13)%nat) || (n =? 32)%nat || (n =? 160)%nat.

Fixpoint trimStart (s : string) : string :=
  match s with
  | String c s' => if isWhiteSpace c then trimStart s' else s
  | EmptyString => EmptyString
  end.

Fixpoint trimEnd (s : string) : string :=
  match s with
  | String c s' =>
      match trimEnd s' with
      | EmptyString => if isWhiteSpace c then EmptyString else String c EmptyString
      | t => String c t
      end
  | EmptyString => EmptyString
  end.

Definition trim (s : string) : string := trimEnd (trimStart s).

(** [s.split(sep)] for a one-character separator: always at least one
    piece. *)
Fixpoint split (sep : ascii) (s : string) : list string :=
  match s with
  | EmptyString => [EmptyString]
  | String c s' =>
      if Ascii.eqb c sep then EmptyString :: split sep s'
      else match split sep s' with
           | piece :: rest => String c piece :: rest
           | [] => [String c EmptyString]
           end
  end.

Definition digit (c : ascii) : option Z :=
  let n := nat_of_ascii c in
  if ((48 <=? n)%nat && (n <=? 57)%nat)%bool then Some (Z.of_nat n - 48) else None.

(** Longest prefix of decimal digits, as (value, number of digits). *)
Fixpoint digits (acc : Z) (seen : bool) (s : string) : option Z :=
  match s with
  | String c s' =>
      match digit c with
      | Some d => digits (10 * acc + d) true s'
      | None => if seen then Some acc else None
      end
  | EmptyString => if seen then Some acc else None
  end.

(** [parseInt(s, 10)]: leading white space is skipped, an optional
    sign is read, then the longest run of decimal digits; [NaN] when
    there is no digit. *)
Definition parseInt (s : string) : number :=
  match trimStart s with
  | String "-" r =>
      match digits 0 false r with Some v => Num (- v) | None => NaN end
  | String "+" r =>
      match digits 0 false r with Some v => Num v | None => NaN end
  | r =>
      match digits 0 false r with Some v => Num v | None => NaN end
  end.

(** [s.endsWith(suffix)] *)
Definition endsWith (s suffix : string) : bool :=
  let n := String.length s in
  let k := String.length suffix in
  (k <=? n)%nat && String.eqb (String.substring (n - k) k s) suffix.

(** [a.join(sep)] *)
Fixpoint join (sep : string) (l : list string) : string :=
  match l with
  | [] => ""
  | [x] => x
  | x :: rest => x +:+ sep +:+ join sep rest
  end.

(** [s.repeat(n)] *)
Fixpoint repeat (s : string) (n : nat) : string :=
  match n with
  | O => ""
  | S n' => s +:+ repeat s n'
  end.

(** The box-drawing dash U+2500 of the prompt audit log, as the
    bytes of its UTF-8 encoding. *)
Definition boxLine : string :=
  String (ascii_of_nat 226) (String (ascii_of_nat 148) (String (ascii_of_nat 128) EmptyString)).

(** [String(x)] for a number. *)
Definition showNumber (x : number) : string :=
  match x with
  | NaN => "NaN"
  | Num z => pretty z
  end.

(** ["\n"] *)
Definition nl : string := String (ascii_of_nat 10) EmptyString.

(** [String(n)] for a non-negative integer. *)
Definition ofNat (n : nat) : string := pretty n.

End Js.

(* ===================================================================== *)
(** ** Data shared by the services *)
(* ===================================================================== *)

(** An item as the RSS parser hands it over. *)
Record Item : Type := mkItem {
  item_id : option string;
  item_guid : option string;
  item_title : option string;
  item_link : option string;
  item_pubDate : option string;
  item_isoDate : option string;
  item_content : option string;
  item_contentSnippet : option string
}.

(** A post object.  The fields after [post_contentSnippet] are the ones
    later stages add by object spread; they are [None] ([undefined])
    until then. *)
Record Post : Type := mkPost {
  post_id : option string;
  post_title : option string;
  post_link : option string;
  post_pubDate : option string;
  post_subreddit : string;
  post_content : option string;
  post_contentSnippet : option string;
  post_fullContent : option string;
  post_shouldReply : option bool;
  post_aiReply : option string;
  post_skipReason : option string
}.

(** What [EmailParams] carries to the mail provider. *)
Record Email : Type := mkEmail {
  email_from : string * string;
  email_to : list string;
  email_subject : string;
  email_text : string
}.

Inductive Level : Type := LDebug | LInfo | LError.

(** The mutable state of the process: the tracker's map, what was handed
    to the mail provider, what was printed, and how many times the
    clock has been read with [Date.now()]. *)
Record World : Type := mkWorld {
  seenPosts : gmap (option string) Z;
  ticks : nat;
  outbox : list Email;
  console : list (Level * string)
}.

Definition initialWorld : World :=
  {| seenPosts := ∅; ticks := 0%nat; outbox := []; console := [] |}.

(** The decoded body of a completion: what the fields [should_reply],
    [reply] and [reason] of the parsed object evaluate to. *)
Record AiJson : Type := mkAiJson {
  should_reply : bool;             (* response.should_reply === true *)
  AiJson_reply : option string;
  AiJson_reason : option string
}.

(** Built-ins whose results the program only observes: the value of the
    [n]-th call of [Date.now()], the time value of [new Date(s)]
    ([NaN] for an invalid date), and the decoding of a completion body
    ([None] when the try block around [JSON.parse] throws). *)
Class Host : Type := mkHost {
  clock : nat -> Z;
  Date_parse : string -> Js.number;
  JSON_parse : string -> option AiJson
}.

(** [new Date(v).getTime()]; [new Date(undefined)] is an invalid date. *)
Definition Date_getTime `{Host} (v : option string) : Js.number :=
  match v with
  | Some s => Date_parse s
  | None => Js.NaN
  end.

(** The validated configuration object of src/config/env.js. *)
Record Config : Type := mkConfig {
  mailersend_apiToken : string;
  email_fromEmail : string;
  email_fromName : string;
  email_toEmail : string;
  monitoring_subreddits : list string;
  monitoring_checkIntervalMinutes : Js.number;
  monitoring_postAgeMinutes : Js.number;
  logging_level : string;
  openai_apiKey : string;
  openai_model : string;
  openai_prompt : string;
  env_nodeEnv : string;
  env_isDevelopment : bool;
  env_isProduction : bool
}.

(** Outcomes of the calls that leave the process. *)
Inductive ParseOutcome : Type :=
| ParseRejects (message : string)            (* the try block of fetchFeed throws *)
| ParseFeed (items : list Item).

Inductive ContentOutcome : Type :=
| ContentThrows (message : string)           (* fetch or response.json() rejects *)
| ContentNotOk (status : string)             (* !response.ok *)
| ContentJson (postData : option (option string)).
(* data[0]?.data?.children?.[0]?.data, and its selftext *)

Inductive AiOutcome : Type :=
| AiThrows (status : option Z) (message : string)
| AiCompletion (content : option string).    (* choices[0]?.message?.content *)

Inductive SendOutcome : Type :=
| SendOk
| SendThrows (message : string) (body : option string).

(** What the network answers during one polling cycle. *)
Record Network : Type := mkNetwork {
  parseURL : string -> ParseOutcome;
  fetch : string -> ContentOutcome;
  chat_completions_create : string -> string -> string -> AiOutcome;
  mailerSend_email_send : Email -> SendOutcome
}.

(* ===================================================================== *)
(** ** The state monad *)
(* ===================================================================== *)

Definition M (A : Type) : Type := World -> A * World.

#[global] Instance M_ret : MRet M := fun A a w => (a, w).
#[global] Instance M_bind : MBind M :=
  fun A B f m w => let (a, w') := m w in f a w'.
#[global] Instance M_fmap : FMap M :=
  fun A B f m w => let (a, w') := m w in (f a, w').

Definition gets {A : Type} (f : World -> A) : M A := fun w => (f w, w).
Definition modify (f : World -> World) : M unit := fun w => (tt, f w).

Definition set_seenPosts (m : gmap (option string) Z) (w : World) : World :=
  {| seenPosts := m; ticks := ticks w; outbox := outbox w; console := console w |}.
Definition set_ticks (n : nat) (w : World) : World :=
  {| seenPosts := seenPosts w; ticks := n; outbox := outbox w; console := console w |}.
Definition set_outbox (o : list Email) (w : World) : World :=
  {| seenPosts := seenPosts w; ticks := ticks w; outbox := o; console := console w |}.
Definition set_console (c : list (Level * string)) (w : World) : World :=
  {| seenPosts := seenPosts w; ticks := ticks w; outbox := outbox w; console := c |}.

(** [Date.now()] *)
Definition Date_now `{Host} : M Z :=
  fun w => (clock (ticks w), set_ticks (S (ticks w)) w).

(** [console.log] / [console.error] *)
Definition print (l : Level) (msg : string) : M unit :=
  modify (fun w => set_console (console w ++ [(l, msg)]) w).

(** [await Promise.all(l.map(f))], the callbacks run in list order. *)
Fixpoint mapM {A B : Type} (f : A -> M B) (l : list A) : M (list B) :=
  match l with
  | [] => mret []
  | a :: l' => b ← f a; bs ← mapM f l'; mret (b :: bs)
  end.

(** [l.filter(f)] for a callback with effects. *)
Fixpoint filterM {A : Type} (f : A -> M bool) (l : list A) : M (list A) :=
  match l with
  | [] => mret []
  | a :: l' => b ← f a; r ← filterM f l'; mret (if (b : bool) then a :: r else r)
  end.

(** [l.forEach(f)] *)
Fixpoint forEach {A : Type} (f : A -> M unit) (l : list A) : M unit :=
  match l with
  | [] => mret tt
  | a :: l' => f a;; forEach f l'
  end.

(* ===================================================================== *)
(** ** src/utils/logger.js *)
(* ===================================================================== *)

Module Logger.

Definition LOG_LEVELS (name : string) : option Z :=
  if String.eqb name "debug" then Some 0
  else if String.eqb name "info" then Some 1
  else if String.eqb name "error" then Some 2
  else None.

(** Names every object literal inherits: looking one of them up in
    [LOG_LEVELS] yields a function or an object, which is truthy and
    compares with a number as [NaN] does. *)
Definition inherited (name : string) : bool :=
  bool_decide (name ∈ ["constructor"; "toString"; "toLocaleString"; "valueOf";
                       "hasOwnProperty"; "isPrototypeOf"; "propertyIsEnumerable";
                       "__proto__"; "__defineGetter__"; "__defineSetter__";
                       "__lookupGetter__"; "__lookupSetter__"]).

Record t : Type := mk { level : Js.number }.

(** [this.level = LOG_LEVELS[level] || LOG_LEVELS.info]: the level
    [0] of ['debug'] is falsy and falls through to [info]. *)
Definition new (lvl : string) : t :=
  {| level :=
      match LOG_LEVELS lvl with
      | Some n => if n =? 0 then Js.Num 1 else Js.Num n
      | None => if inherited lvl then Js.NaN else Js.Num 1
      end |}.

(** The printed line without its timestamp prefix; object arguments
    are not rendered. *)
Definition debug (logger : t) (message : string) : M unit :=
  if Js.le (level logger) (Js.Num 0) then print LDebug message else mret tt.

Definition info (logger : t) (message : string) : M unit :=
  if Js.le (level logger) (Js.Num 1) then print LInfo message else mret tt.

Definition error (logger : t) (message : string) : M unit :=
  if Js.le (level logger) (Js.Num 2) then print LError message else mret tt.

End Logger.

(* ===================================================================== *)
(** ** src/utils/dateUtils.js *)
(* ===================================================================== *)

Module DateUtils.
Section DateUtils.
Context `{Host}.

Definition isWithinTimeWindow (postDate : option string) (minutes : Js.number) : M bool :=
  now ← Date_now;
  let postTime := Date_getTime postDate in
  let timeWindowMs := Js.mul (Js.mul minutes (Js.Num 60)) (Js.Num 1000) in
  let age := Js.sub (Js.Num now) postTime in
  mret (Js.ge age (Js.Num 0) && Js.le age timeWindowMs).

Definition toTimestamp (date : option string) : Js.number :=
  Date_getTime date.

(** [Math.floor((now - postTime) / (60 * 1000))]; [Z.div] rounds
    towards minus infinity as [Math.floor] does. *)
Definition getAgeInMinutes (postDate : option string) : M Js.number :=
  now ← Date_now;
  let postTime := Date_getTime postDate in
  mret (match Js.sub (Js.Num now) postTime with
        | Js.Num d => Js.Num (d / (60 * 1000))
        | Js.NaN => Js.NaN
        end).

End DateUtils.
End DateUtils.

(* ===================================================================== *)
(** ** src/services/postTracker.js *)
(* ===================================================================== *)

Module PostTracker.
Section PostTracker.
Context `{Host}.
Variable logger : Logger.t.

Definition MAX_AGE_MS : Z := 60 * 60 * 1000.

Definition isNewPost (post : Post) (timeWindowMinutes : Js.number) : M bool :=
  if negb (Js.truthy (post_id post)) || negb (Js.truthy (post_pubDate post)) then
    Logger.error logger "Invalid post object:";;
    mret false
  else
    isRecent ← DateUtils.isWithinTimeWindow (post_pubDate post) timeWindowMinutes;
    seen ← gets seenPosts;
    let notSeen := negb (bool_decide (is_Some (seen !! post_id post))) in
    if isRecent && notSeen then
      Logger.debug logger ("New post detected: " +:+ Js.show (post_id post));;
      mret true
    else
      mret false.

Definition markAsSeen (postId : option string) : M unit :=
  now ← Date_now;
  modify (fun w => set_seenPosts (<[postId := now]> (seenPosts w)) w);;
  n ← gets (fun w => size (seenPosts w));
  Logger.debug logger ("Post marked as seen: " +:+ Js.show postId +:+
                       " (total tracked: " +:+ Js.ofNat n +:+ ")").

(** One turn of the loop body of [cleanup] on the entry
    [(postId, timestamp)]. *)
Definition cleanup_step (now : Z) (acc : gmap (option string) Z * nat)
    (entry : option string * Z) : gmap (option string) Z * nat :=
  if MAX_AGE_MS <? now - entry.2
  then (delete entry.1 acc.1, S acc.2)
  else acc.

Definition cleanup : M unit :=
  now ← Date_now;
  seen ← gets seenPosts;
  let '(seen', removedCount) := foldl (cleanup_step now) (seen, 0%nat) (map_to_list seen) in
  modify (set_seenPosts seen');;
  if (0 <? removedCount)%nat then
    Logger.info logger ("Cleaned up " +:+ Js.ofNat removedCount +:+
                        " old posts from memory (remaining: " +:+
                        Js.ofNat (size seen') +:+ ")")
  else mret tt.

Definition getTrackedCount : M nat :=
  gets (fun w => size (seenPosts w)).

End PostTracker.
End PostTracker.

(* ===================================================================== *)
(** ** src/services/rssService.js *)
(* ===================================================================== *)

Module RssService.

Record FeedResult : Type := mkFeedResult {
    success : bool;
    subreddit : string;
    error : option string;
    posts : list Post
  }.

Definition postOfItem (subreddit : string) (item : Item) : Post :=
  {| post_id := Js.or (item_id item) (item_guid item);
     post_title := item_title item;
     post_link := item_link item;
     post_pubDate := Js.or (item_pubDate item) (item_isoDate item);
     post_subreddit := subreddit;
     post_content := item_content item;
     post_contentSnippet := item_contentSnippet item;
     post_fullContent := None;
     post_shouldReply := None;
     post_aiReply := None;
     post_skipReason := None |}.

(** The [url] of [fetchFeed]. *)
Definition feedUrl (subreddit : string) : string :=
  "https://www.reddit.com/r/" +:+ subreddit +:+ "/.rss".

(** [feedResults.filter(result => result.success).flatMap(result => result.posts)] *)
Definition getAllPosts (feedResults : list FeedResult) : list Post :=
  List.flat_map posts (List.filter success feedResults).

Section RssService.
Variable logger : Logger.t.
Variable net : Network.

Definition fetchFullPostContent (postUrl : option string) : M (option string) :=
  match postUrl with
  | None =>
      (* postUrl.endsWith throws inside the try block *)
      Logger.error logger "Error fetching full post content: Cannot read properties of undefined (reading 'endsWith')";;
      mret None
  | Some url =>
      let jsonUrl := if Js.endsWith url ".json" then url else url +:+ ".json" in
      Logger.debug logger ("Fetching full post content: " +:+ jsonUrl);;
      match fetch net jsonUrl with
      | ContentNotOk status =>
          Logger.error logger ("Failed to fetch post JSON: " +:+ status);;
          mret None
      | ContentJson None =>
          Logger.error logger "Invalid JSON structure from Reddit";;
          mret None
      | ContentJson (Some selftext) =>
          mret (Some (Js.or_str selftext ""))
      | ContentThrows message =>
          Logger.error logger ("Error fetching full post content: " +:+ message);;
          mret None
      end
  end.

Definition fetchFeed (subreddit : string) : M FeedResult :=
  let url := feedUrl subreddit in
  Logger.debug logger ("Fetching RSS feed: " +:+ url);;
  match parseURL net url with
  | ParseFeed items =>
      let posts := map (postOfItem subreddit) items in
      Logger.debug logger ("Fetched " +:+ Js.ofNat (length posts) +:+
                           " posts from r/" +:+ subreddit);;
      mret {| success := true; subreddit := subreddit; error := None; posts := posts |}
  | ParseRejects message =>
      Logger.error logger ("Failed to fetch RSS for r/" +:+ subreddit +:+ ": " +:+ message);;
      mret {| success := false; subreddit := subreddit; error := Some message; posts := [] |}
  end.

Definition fetchMultipleFeeds (subreddits : list string) : M (list FeedResult) :=
  Logger.info logger ("Fetching RSS feeds for " +:+ Js.ofNat (length subreddits) +:+
                      " subreddits: " +:+ Js.join ", " subreddits);;
  results ← mapM fetchFeed subreddits;
  let successCount := length (List.filter success results) in
  let failureCount := length (List.filter (fun r => negb (success r)) results) in
  Logger.info logger ("Fetch complete: " +:+ Js.ofNat successCount +:+ " succeeded, " +:+
                      Js.ofNat failureCount +:+ " failed");;
  mret results.

End RssService.
End RssService.

(* ===================================================================== *)
(** ** src/services/openaiService.js *)
(* ===================================================================== *)

Module OpenAIService.

(** The object [generateReply] resolves to. *)
Record Decision : Type := mkDecision {
    shouldReply : bool;
    reply : option string;
    reason : string
  }.

(** [this.enabled = !!config.openai.apiKey] *)
Definition enabled (config : Config) : bool :=
  negb (String.eqb (openai_apiKey config) "").

Definition formatPostForPrompt (post : Post) : string :=
  let message := "Subreddit: r/" +:+ post_subreddit post +:+ Js.nl +:+ Js.nl in
  let message := message +:+ "Post Title: " +:+ Js.show (post_title post) +:+ Js.nl +:+ Js.nl in
  let content := Js.or (Js.or (post_fullContent post) (post_content post))
                       (post_contentSnippet post) in
  let message :=
    match content with
    | Some c =>
        if negb (String.eqb c "") && (0 <? String.length (Js.trim c))%nat
        then message +:+ "Post Content:" +:+ Js.nl +:+ c +:+ Js.nl +:+ Js.nl
        else message +:+ "Post Content: [No text content - may be link/image/video post]"
                     +:+ Js.nl +:+ Js.nl
    | None =>
        message +:+ "Post Content: [No text content - may be link/image/video post]"
                +:+ Js.nl +:+ Js.nl
    end in
  message +:+ "Post Link: " +:+ Js.show (post_link post).

Section OpenAIService.
Context `{Host}.
Variable config : Config.
Variable logger : Logger.t.
Variable net : Network.

(** The constructor, for its log line. *)
Definition new : M unit :=
  if enabled config then Logger.info logger "OpenAI service initialized"
  else Logger.info logger "OpenAI service disabled (no API key provided)".

Definition isEnabled : bool := enabled config.

Definition generateReply (post : Post) : M (option Decision) :=
  if negb (enabled config) then mret None
  else
    let systemMessage := openai_prompt config in
    let userMessage := formatPostForPrompt post in
    Logger.info logger (Js.nl +:+ Js.repeat "=" 80 +:+ Js.nl +:+ "OpenAI Prompt for post " +:+
                        Js.show (post_id post) +:+ ":" +:+ Js.nl +:+ Js.repeat "=" 80);;
    Logger.info logger ("SYSTEM: " +:+ systemMessage);;
    Logger.info logger (Js.repeat Js.boxLine 80);;
    Logger.info logger ("USER:" +:+ Js.nl +:+ userMessage);;
    Logger.info logger (Js.repeat "=" 80 +:+ Js.nl);;
    match chat_completions_create net (openai_model config) systemMessage userMessage with
    | AiCompletion content =>
        let responseText := Js.trim <$> content in
        if negb (Js.truthy responseText) then
          Logger.error logger ("No response from OpenAI for post " +:+ Js.show (post_id post));;
          mret (Some {| shouldReply := false; reply := None; reason := "No response from AI" |})
        else
          match JSON_parse (Js.show responseText) with
          | Some response =>
              let shouldReply := should_reply response in
              let reply := Js.or (AiJson_reply response) None in
              let reason := Js.or_str (AiJson_reason response) "Not relevant" in
              Logger.info logger ("AI Decision for post " +:+ Js.show (post_id post) +:+ ": " +:+
                                  (if shouldReply then "REPLY" else "SKIP"));;
              (if shouldReply && Js.truthy reply then
                 Logger.debug logger ("AI reply: " +:+ String.substring 0 50 (Js.show reply) +:+ "...")
               else if negb shouldReply && negb (String.eqb reason "") then
                 Logger.debug logger ("Skip reason: " +:+ reason)
               else mret tt);;
              mret (Some {| shouldReply := shouldReply; reply := reply; reason := reason |})
          | None =>
              Logger.error logger ("Failed to parse JSON response for post " +:+
                                   Js.show (post_id post));;
              Logger.error logger ("Raw response: " +:+ Js.show responseText);;
              mret (Some {| shouldReply := false; reply := None; reason := "AI response error" |})
          end
    | AiThrows status message =>
        Logger.error logger ("Failed to generate AI reply for post " +:+
                             Js.show (post_id post) +:+ ": " +:+ message);;
        (match status with
         | Some 429 => Logger.error logger "OpenAI rate limit exceeded"
         | Some 401 => Logger.error logger "OpenAI API key invalid"
         | _ => mret tt
         end);;
        mret (Some {| shouldReply := false; reply := None; reason := "OpenAI API error" |})
    end.

(** [{...post, shouldReply: result.shouldReply, aiReply: result.reply,
    skipReason: result.shouldReply ? null : result.reason}] *)
Definition annotate (post : Post) (result : Decision) : Post :=
  {| post_id := post_id post;
     post_title := post_title post;
     post_link := post_link post;
     post_pubDate := post_pubDate post;
     post_subreddit := post_subreddit post;
     post_content := post_content post;
     post_contentSnippet := post_contentSnippet post;
     post_fullContent := post_fullContent post;
     post_shouldReply := Some (shouldReply result);
     post_aiReply := reply result;
     post_skipReason := if shouldReply result then None else Some (reason result) |}.

(** The callback of [analyzeAllPosts].  [generateReply] resolves to
    [null] only when the service is disabled, which the guard of
    [analyzeAllPosts] excludes; reading [result.shouldReply] would
    throw there, and the model leaves the post as it is. *)
Definition analyzeOne (post : Post) : M Post :=
  result ← generateReply post;
  match result with
  | Some r => mret (annotate post r)
  | None => mret post
  end.

Definition analyzeAllPosts (posts : list Post) : M (list Post) :=
  if negb (enabled config) || (length posts =? 0)%nat then mret posts
  else
    Logger.info logger ("Analyzing " +:+ Js.ofNat (length posts) +:+ " post(s) with AI...");;
    analyzedPosts ← mapM analyzeOne posts;
    let replyCount :=
      length (List.filter (fun p => bool_decide (post_shouldReply p = Some true)) analyzedPosts) in
    let skipCount :=
      length (List.filter (fun p => negb (bool_decide (post_shouldReply p = Some true))) analyzedPosts) in
    Logger.info logger ("AI Analysis: " +:+ Js.ofNat replyCount +:+ " posts to reply to, " +:+
                        Js.ofNat skipCount +:+ " posts to skip");;
    mret analyzedPosts.

(** The filtering variant; index.js does not call it. *)
Definition generateReplies (posts : list Post) : M (list Post) :=
  if negb (enabled config) || (length posts =? 0)%nat then mret posts
  else
    Logger.info logger ("Analyzing " +:+ Js.ofNat (length posts) +:+ " post(s) with AI...");;
    analyzedPosts ← mapM (fun post =>
        result ← generateReply post;
        match result with
        | Some r =>
            mret {| post_id := post_id post;
                    post_title := post_title post;
                    post_link := post_link post;
                    post_pubDate := post_pubDate post;
                    post_subreddit := post_subreddit post;
                    post_content := post_content post;
                    post_contentSnippet := post_contentSnippet post;
                    post_fullContent := post_fullContent post;
                    post_shouldReply := Some (shouldReply r);
                    post_aiReply := reply r;
                    post_skipReason := post_skipReason post |}
        | None => mret post
        end) posts;
    let postsToReply :=
      List.filter (fun p => bool_decide (post_shouldReply p = Some true)) analyzedPosts in
    let skippedCount := (length analyzedPosts - length postsToReply)%nat in
    Logger.info logger ("AI Analysis: " +:+ Js.ofNat (length postsToReply) +:+
                        " posts to reply to, " +:+ Js.ofNat skippedCount +:+ " posts skipped");;
    mret postsToReply.

End OpenAIService.
End OpenAIService.

(* ===================================================================== *)
(** ** src/services/emailService.js *)
(* ===================================================================== *)

Module EmailService.

(** The text of one entry of the list; [index] counts from 0. *)
Definition formatPost (index : nat) (post : Post) : string :=
  let postText := Js.ofNat (index + 1) +:+ "." +:+ Js.nl +:+
                  "r/" +:+ post_subreddit post +:+ Js.nl +:+
                  Js.show (post_title post) +:+ Js.nl +:+
                  Js.show (post_link post) in
  if bool_decide (post_shouldReply post = Some false) then
    let reason := Js.or_str (post_skipReason post) "Not relevant" in
    postText +:+ Js.nl +:+ Js.nl +:+ "AI Decision: SKIP" +:+ Js.nl +:+ "Reason: " +:+ reason
  else if Js.truthy (post_aiReply post) then
    postText +:+ Js.nl +:+ Js.nl +:+ "AI Suggested Reply:" +:+ Js.nl +:+
    Js.join Js.nl (Js.split (ascii_of_nat 10) (Js.show (post_aiReply post)))
  else postText.

Definition formatEmailBody (posts : list Post) : string :=
  let header := "You have " +:+ Js.ofNat (length posts) +:+ " new Reddit post" +:+
                (if (1 <? length posts)%nat then "s" else "") +:+ ":" +:+ Js.nl +:+ Js.nl in
  let postsList := Js.join (Js.nl +:+ Js.nl) (imap formatPost posts) in
  let footer := Js.nl +:+ Js.nl +:+ "---" +:+ Js.nl +:+ "Reddit RSS Monitor" in
  header +:+ postsList +:+ footer.

(** [posts.filter(post => post.shouldReply !== false)] *)
Definition postsToEmail (posts : list Post) : list Post :=
  List.filter (fun post => negb (bool_decide (post_shouldReply post = Some false))) posts.

(** The [EmailParams] the try block of [sendNotification] builds for
    the posts that passed the filter. *)
Definition emailParams (config : Config) (postsToEmail : list Post) : Email :=
  let sentFrom := (email_fromEmail config, email_fromName config) in
  let recipients := [email_toEmail config] in
  let subject :=
    match postsToEmail with
    | [post] => "New Reddit post from r/" +:+ post_subreddit post
    | _ => Js.ofNat (length postsToEmail) +:+ " new Reddit posts"
    end in
  let subject := if env_isDevelopment config then "[dev] " +:+ subject else subject in
  let emailBody := formatEmailBody postsToEmail in
  {| email_from := sentFrom; email_to := recipients;
     email_subject := subject; email_text := emailBody |}.

Section EmailService.
Variable config : Config.
Variable logger : Logger.t.
Variable net : Network.

(** [posts] is [None] for a [null] or [undefined] argument. *)
Definition sendNotification (posts : option (list Post)) : M bool :=
  match posts with
  | None =>
      Logger.debug logger "No posts to send, skipping email";;
      mret false
  | Some posts =>
      if (length posts =? 0)%nat then
        Logger.debug logger "No posts to send, skipping email";;
        mret false
      else
        (* Filter out posts that AI decided to skip *)
        let postsToEmail := postsToEmail posts in
        if (length postsToEmail =? 0)%nat then
          Logger.info logger "All posts were skipped by AI, no email sent";;
          mret false
        else
          (if (length postsToEmail <? length posts)%nat then
             let skippedCount := (length posts - length postsToEmail)%nat in
             Logger.info logger ("Filtered out " +:+ Js.ofNat skippedCount +:+
                                 " skipped post(s), sending " +:+
                                 Js.ofNat (length postsToEmail) +:+ " post(s)")
           else mret tt);;
          let emailParams := emailParams config postsToEmail in
          Logger.info logger ("Sending email notification for " +:+
                              Js.ofNat (length postsToEmail) +:+ " post(s)...");;
          modify (fun w => set_outbox (outbox w ++ [emailParams]) w);;
          match mailerSend_email_send net emailParams with
          | SendOk =>
              Logger.info logger "Email sent successfully";;
              mret true
          | SendThrows message body =>
              Logger.error logger ("Failed to send email: " +:+ message);;
              (match body with
               | Some b => Logger.error logger ("Error details: " +:+ b)
               | None => mret tt
               end);;
              mret false
          end
  end.

End EmailService.
End EmailService.

(* ===================================================================== *)
(** ** src/config/env.js *)
(* ===================================================================== *)

(** Module evaluation either completes with a value or throws. *)
Inductive Result (A : Type) : Type :=
| Ok (a : A)
| Throw (message : string).
Arguments Ok {A} a.
Arguments Throw {A} message.

#[global] Instance Result_ret : MRet Result := fun A a => Ok a.
#[global] Instance Result_bind : MBind Result :=
  fun A B f m => match m with Ok a => f a | Throw e => Throw e end.

Module Env.

Definition requireEnv (env : gmap string string) (varName : string) : Result string :=
  match env !! varName with
  | Some value =>
      if String.eqb value "" then Throw ("Missing required environment variable: " +:+ varName)
      else Ok value
  | None => Throw ("Missing required environment variable: " +:+ varName)
  end.

Definition getEnv (env : gmap string string) (varName defaultValue : string) : string :=
  Js.or_str (env !! varName) defaultValue.

(** The character class [[^\s@]]. *)
Definition plainChar (c : ascii) : bool :=
  negb (Js.isWhiteSpace c) && negb (Ascii.eqb c "@").

(** The longest prefix of [plainChar]s, and what follows it. *)
Fixpoint spanPlain (s : string) : string * string :=
  match s with
  | String c s' =>
      if plainChar c then let (a, r) := spanPlain s' in (String c a, r)
      else (EmptyString, s)
  | EmptyString => (EmptyString, EmptyString)
  end.

Fixpoint allPlain (s : string) : bool :=
  match s with
  | String c s' => plainChar c && allPlain s'
  | EmptyString => true
  end.

(** Some ["."] of [s] is followed by at least one more character. *)
Fixpoint dotBeforeEnd (s : string) : bool :=
  match s with
  | String c s' =>
      (Ascii.eqb c "." && negb (String.eqb s' "")) || dotBeforeEnd s'
  | EmptyString => false
  end.

(** [/^[^\s@]+@[^\s@]+\.[^\s@]+$/.test(email)].  No member of the
    class is ["@"], so the first group can only end at the first
    ["@"]; what follows must consist of class members with a ["."]
    that is neither its first nor its last character. *)
Definition isValidEmail (email : string) : bool :=
  let (localPart, rest) := spanPlain email in
  negb (String.eqb localPart "")
  && match rest with
     | String c domain =>
         Ascii.eqb c "@"
         && match domain with
            | String _ tail => allPlain domain && dotBeforeEnd tail
            | EmptyString => false
            end
     | EmptyString => false
     end.

Definition defaultPrompt : string :=
  "You are a helpful assistant analyzing Reddit posts. Decide if the post is worth replying to and generate a thoughtful response. Respond in JSON format: {" +:+
  String (ascii_of_nat 34) "should_reply" +:+ String (ascii_of_nat 34) ": true/false, " +:+
  String (ascii_of_nat 34) "reply" +:+ String (ascii_of_nat 34) ": " +:+
  String (ascii_of_nat 34) "your reply" +:+ String (ascii_of_nat 34) ", " +:+
  String (ascii_of_nat 34) "reason" +:+ String (ascii_of_nat 34) ": " +:+
  String (ascii_of_nat 34) "reason if skipping" +:+ String (ascii_of_nat 34) "}.".

(** [promptFile] is the content of openai-prompt.txt, [None] when the
    file does not exist or cannot be read. *)
Definition loadOpenAIPrompt (promptFile : option string) : string :=
  match promptFile with
  | Some text =>
      let prompt := Js.trim text in
      if (0 <? String.length prompt)%nat then prompt else defaultPrompt
  | None => defaultPrompt
  end.

Definition parseSubreddits (value : string) : list string :=
  List.filter (fun s => (0 <? String.length s)%nat) (map Js.trim (Js.split "," value)).

(** The module body: build the object, then validate it. *)
Definition config (env : gmap string string) (promptFile : option string) : Result Config :=
  apiToken ← requireEnv env "MAILERSEND_API_TOKEN";
  fromEmail ← requireEnv env "FROM_EMAIL";
  let fromName := getEnv env "FROM_NAME" "Reddit RSS Monitor" in
  toEmail ← requireEnv env "TO_EMAIL";
  subredditsValue ← requireEnv env "SUBREDDITS";
  let config :=
    {| mailersend_apiToken := apiToken;
       email_fromEmail := fromEmail;
       email_fromName := fromName;
       email_toEmail := toEmail;
       monitoring_subreddits := parseSubreddits subredditsValue;
       monitoring_checkIntervalMinutes := Js.parseInt (getEnv env "CHECK_INTERVAL_MINUTES" "5");
       monitoring_postAgeMinutes := Js.parseInt (getEnv env "POST_AGE_MINUTES" "5");
       logging_level := getEnv env "LOG_LEVEL" "info";
       openai_apiKey := getEnv env "OPENAI_API_KEY" "";
       openai_model := getEnv env "OPENAI_MODEL" "gpt-4o-mini";
       openai_prompt := loadOpenAIPrompt promptFile;
       env_nodeEnv := getEnv env "NODE_ENV" "development";
       env_isDevelopment := String.eqb (getEnv env "NODE_ENV" "development") "development";
       env_isProduction := String.eqb (getEnv env "NODE_ENV" "development") "production" |} in
  if negb (isValidEmail (email_fromEmail config)) then
    Throw ("Invalid FROM_EMAIL: " +:+ email_fromEmail config)
  else if negb (isValidEmail (email_toEmail config)) then
    Throw ("Invalid TO_EMAIL: " +:+ email_toEmail config)
  else if (length (monitoring_subreddits config) =? 0)%nat then
    Throw "SUBREDDITS must contain at least one subreddit"
  else if Js.lt (monitoring_checkIntervalMinutes config) (Js.Num 1) then
    Throw "CHECK_INTERVAL_MINUTES must be at least 1"
  else if Js.lt (monitoring_postAgeMinutes config) (Js.Num 1) then
    Throw "POST_AGE_MINUTES must be at least 1"
  else Ok config.

End Env.

(* ===================================================================== *)
(** ** src/index.js *)
(* ===================================================================== *)

Module Index.

(** The locals of one run of [monitorFeeds], kept for the statements
    below; the function itself resolves to [undefined]. *)
Record Cycle : Type := mkCycle {
    allPosts : list Post;
    newPosts : list Post;
    analyzedPosts : option (list Post);   (* [None] when there was no new post *)
    emailSent : option bool               (* result of [sendNotification], if called *)
  }.

(** [{...post, fullContent: fullContent || post.contentSnippet || post.content}] *)
Definition withFullContent (post : Post) (fullContent : option string) : Post :=
  {| post_id := post_id post;
     post_title := post_title post;
     post_link := post_link post;
     post_pubDate := post_pubDate post;
     post_subreddit := post_subreddit post;
     post_content := post_content post;
     post_contentSnippet := post_contentSnippet post;
     post_fullContent := Js.or (Js.or fullContent (post_contentSnippet post)) (post_content post);
     post_shouldReply := post_shouldReply post;
     post_aiReply := post_aiReply post;
     post_skipReason := post_skipReason post |}.

(** What [process] ends up as after the entry module has run. *)
Inductive Startup : Type :=
  | Aborted (message : string)              (* importing the configuration threw *)
  | Scheduled (cronPattern : string) (w : World).

Section Index.
Context `{Host}.
Variable config : Config.

Definition logger : Logger.t := Logger.new (logging_level config).

Section Cycle.
Variable net : Network.

(** The body of [if (newPosts.length > 0) { ... }] in [monitorFeeds]:
    enrich, analyse, send, and mark as seen on success.  It yields the
    locals [analyzedPosts] and [emailSent]. *)
Definition notify (newPosts : list Post) : M (list Post * bool) :=
  Logger.info logger "Fetching full post content...";;
  postsWithFullContent ← mapM (fun post =>
      fullContent ← RssService.fetchFullPostContent logger net (post_link post);
      mret (withFullContent post fullContent)) newPosts;
  analyzedPosts ←
    (if OpenAIService.isEnabled config
     then OpenAIService.analyzeAllPosts config logger net postsWithFullContent
     else mret postsWithFullContent);
  emailSent ← EmailService.sendNotification config logger net (Some analyzedPosts);
  (if (emailSent : bool) then
     forEach (fun post => PostTracker.markAsSeen logger (post_id post)) newPosts
   else mret tt);;
  mret (analyzedPosts, emailSent).

Definition monitorFeeds : M Cycle :=
  Logger.info logger "Starting RSS feed check...";;
  feedResults ← RssService.fetchMultipleFeeds logger net (monitoring_subreddits config);
  let allPosts := RssService.getAllPosts feedResults in
  Logger.info logger ("Retrieved " +:+ Js.ofNat (length allPosts) +:+ " total posts");;
  newPosts ← filterM (fun post =>
                PostTracker.isNewPost logger post (monitoring_postAgeMinutes config)) allPosts;
  Logger.info logger ("Found " +:+ Js.ofNat (length newPosts) +:+ " new post(s)");;
  dispatch ←
    (if (0 <? length newPosts)%nat then Some <$> notify newPosts
     else mret None);
  PostTracker.cleanup logger;;
  n ← PostTracker.getTrackedCount;
  Logger.info logger ("Check complete. Tracking " +:+ Js.ofNat n +:+ " posts in memory.");;
  mret {| allPosts := allPosts; newPosts := newPosts;
          analyzedPosts := fst <$> dispatch; emailSent := snd <$> dispatch |}.

(** [start()], up to the point where the recurring task is scheduled;
    it resolves to the cron pattern. *)
Definition start : M string :=
  Logger.info logger "=== Reddit RSS Monitor Starting ===";;
  Logger.info logger ("Monitoring subreddits: " +:+ Js.join ", " (monitoring_subreddits config));;
  Logger.info logger ("Check interval: every " +:+
                      Js.showNumber (monitoring_checkIntervalMinutes config) +:+ " minute(s)");;
  Logger.info logger ("Post age window: " +:+
                      Js.showNumber (monitoring_postAgeMinutes config) +:+ " minute(s)");;
  Logger.info logger ("Email notifications to: " +:+ email_toEmail config);;
  Logger.info logger "Running initial feed check...";;
  monitorFeeds;;
  let cronPattern := "*/" +:+ Js.showNumber (monitoring_checkIntervalMinutes config) +:+ " * * * *" in
  Logger.info logger ("Setting up cron schedule: " +:+ cronPattern);;
  Logger.info logger "Cron job scheduled successfully";;
  Logger.info logger "Press Ctrl+C to stop";;
  mret cronPattern.

End Cycle.
End Index.

(** The entry module: importing ./config/env.js evaluates
    [Env.config]; when that throws nothing of index.js runs. *)
Definition main `{Host} (env : gmap string string) (promptFile : option string)
    (net : Network) : Startup :=
  match Env.config env promptFile with
  | Throw message => Aborted message
  | Ok config =>
      let '(_, w0) := OpenAIService.new config (logger config) initialWorld in
      let '(cronPattern, w) := start config net w0 in
      Scheduled cronPattern w
  end.

End Index.

(* ===================================================================== *)
(** ** Vocabulary of the statements *)
(* ===================================================================== *)

(** Appending lines to the console and nothing else. *)
Definition logged (es : list (Level * string)) (σ : World) : World :=
  set_console (console σ ++ es) σ.

(** A computation that only writes to the console: its value and the
    lines it prints do not depend on the state it starts from. *)
Definition writer {A : Type} (m : M A) : Prop :=
  ∃ a es, ∀ σ, m σ = (a, logged es σ).

(** The answer of the freshness filter for [post] when the call is the
    one that reads the clock for the [n]-th time. *)
Definition freshAt `{Host} (n : nat) (post : Post) (w : Js.number) : bool :=
  (DateUtils.isWithinTimeWindow (post_pubDate post) w (set_ticks n initialWorld)).1.

(** The annotation call for [post] fails: the API call throws, the
    response is empty, or its body cannot be decoded. *)
Definition annotationFails `{Host} (config : Config) (net : Network) (post : Post) : bool :=
  match chat_completions_create net (openai_model config) (openai_prompt config)
          (OpenAIService.formatPostForPrompt post) with
  | AiThrows _ _ => true
  | AiCompletion content =>
      let responseText := Js.trim <$> content in
      negb (Js.truthy responseText)
      || match JSON_parse (Js.show responseText) with None => true | Some _ => false end
  end.

(** What [generateReply] resolves to for [post] when the service is
    enabled, without the lines it prints on the way. *)
Definition decisionOf `{Host} (config : Config) (net : Network) (post : Post)
    : OpenAIService.Decision :=
  match chat_completions_create net (openai_model config) (openai_prompt config)
          (OpenAIService.formatPostForPrompt post) with
  | AiThrows _ _ =>
      {| OpenAIService.shouldReply := false; OpenAIService.reply := None;
         OpenAIService.reason := "OpenAI API error" |}
  | AiCompletion content =>
      let responseText := Js.trim <$> content in
      if negb (Js.truthy responseText) then
        {| OpenAIService.shouldReply := false; OpenAIService.reply := None;
           OpenAIService.reason := "No response from AI" |}
      else
        match JSON_parse (Js.show responseText) with
        | Some response =>
            {| OpenAIService.shouldReply := should_reply response;
               OpenAIService.reply := Js.or (AiJson_reply response) None;
               OpenAIService.reason := Js.or_str (AiJson_reason response) "Not relevant" |}
        | None =>
            {| OpenAIService.shouldReply := false; OpenAIService.reply := None;
               OpenAIService.reason := "AI response error" |}
        end
  end.

(** [sub] occurs in [s]. *)
Definition occurs (sub s : string) : Prop :=
  ∃ before after, s = before +:+ sub +:+ after.

(** What the entry of a post in the email always shows: source, title
    and link, each on a line of its own. *)
Definition entryLines (post : Post) : string :=
  "r/" +:+ post_subreddit post +:+ Js.nl +:+
  Js.show (post_title post) +:+ Js.nl +:+
  Js.show (post_link post).

(** The character [c] occurs in [s]. *)
Fixpoint hasChar (c : ascii) (s : string) : bool :=
  match s with
  | String x s' => Ascii.eqb x c || hasChar c s'
  | EmptyString => false
  end.

(** The fields of a post that come from the feed. *)
Definition baseline (post : Post) :=
  (post_id post, post_title post, post_link post, post_pubDate post,
   post_subreddit post, post_content post, post_contentSnippet post).

(** The value of the local [postsWithFullContent] of [monitorFeeds] for
    one new post, and of [analyzedPosts] for the whole batch: what the
    enrichment and the analysis compute does not depend on the state. *)
Definition enriched (config : Config) (net : Network) (post : Post) : Post :=
  Index.withFullContent post
    (RssService.fetchFullPostContent (Index.logger config) net (post_link post) initialWorld).1.

Definition analysed `{Host} (config : Config) (net : Network) (post : Post) : Post :=
  (OpenAIService.analyzeOne config (Index.logger config) net post initialWorld).1.

Definition batchOf `{Host} (config : Config) (net : Network) (newPosts : list Post) : list Post :=
  let postsWithFullContent := map (enriched config net) newPosts in
  if OpenAIService.enabled config
  then map (analysed config net) postsWithFullContent
  else postsWithFullContent.

(** The posts a cycle retrieves from the sources that answered. *)
Definition retrieved (config : Config) (net : Network) : list Post :=
  RssService.getAllPosts
    (map (fun s => (RssService.fetchFeed (Index.logger config) net s initialWorld).1)
         (monitoring_subreddits config)).

(** The strings [/^[^\s@]+@[^\s@]+\.[^\s@]+$/] matches, read off the
    pattern: three non-empty runs of class members, separated by ["@"]
    and ["."]. *)
Definition emailShape (s : string) : Prop :=
  ∃ a b c, s = a +:+ "@" +:+ b +:+ "." +:+ c
           ∧ a ≠ "" ∧ b ≠ "" ∧ c ≠ ""
           ∧ Env.allPlain a = true ∧ Env.allPlain b = true ∧ Env.allPlain c = true.

(** The messages startup can abort with. *)
Definition descriptive (message : string) : Prop :=
  (∃ varName, varName ∈ ["MAILERSEND_API_TOKEN"; "FROM_EMAIL"; "TO_EMAIL"; "SUBREDDITS"]
              ∧ message = "Missing required environment variable: " +:+ varName)
  ∨ (∃ address, message = "Invalid FROM_EMAIL: " +:+ address)
  ∨ (∃ address, message = "Invalid TO_EMAIL: " +:+ address)
  ∨ message = "SUBREDDITS must contain at least one subreddit"
  ∨ message = "CHECK_INTERVAL_MINUTES must be at least 1"
  ∨ message = "POST_AGE_MINUTES must be at least 1".

(** A required variable is missing when it is unset or set to the
    empty string. *)
Definition missing (env : gmap string string) (varName : string) : Prop :=
  env !! varName = None ∨ env !! varName = Some "".

(** Two worlds that differ at most in what was printed. *)
Definition sameButConsole (σ σ' : World) : Prop :=
  seenPosts σ = seenPosts σ' ∧ ticks σ = ticks σ' ∧ outbox σ = outbox σ'.

(** Two computations that, started from worlds that differ at most in
    what was printed, give the same value and end in such worlds. *)
Definition sameButLog {A : Type} (m m' : M A) : Prop :=
  ∀ σ σ', sameButConsole σ σ' ->
    (m σ).1 = (m' σ').1 ∧ sameButConsole (m σ).2 (m' σ').2.

(** The configuration as it loads with another LOG_LEVEL. *)
Definition withLogLevel (lvl : string) (config : Config) : Config :=
  {| mailersend_apiToken := mailersend_apiToken config;
     email_fromEmail := email_fromEmail config;
     email_fromName := email_fromName config;
     email_toEmail := email_toEmail config;
     monitoring_subreddits := monitoring_subreddits config;
     monitoring_checkIntervalMinutes := monitoring_checkIntervalMinutes config;
     monitoring_postAgeMinutes := monitoring_postAgeMinutes config;
     logging_level := lvl;
     openai_apiKey := openai_apiKey config;
     openai_model := openai_model config;
     openai_prompt := openai_prompt config;
     env_nodeEnv := env_nodeEnv config;
     env_isDevelopment := env_isDevelopment config;
     env_isProduction := env_isProduction config |}.

(** A use of the tracker by its owner. *)
Inductive TrackerCall : Type :=
| CallIsNewPost (post : Post) (timeWindowMinutes : Js.number)
| CallMarkAsSeen (postId : option string)
| CallCleanup.

Definition call `{Host} (logger : Logger.t) (c : TrackerCall) : M unit :=
  match c with
  | CallIsNewPost post w => PostTracker.isNewPost logger post w;; mret tt
  | CallMarkAsSeen postId => PostTracker.markAsSeen logger postId
  | CallCleanup => PostTracker.cleanup logger
  end.

(** Whether one of the cleanups among [cs], run from [σ], leaves no
    record of [postId] behind. *)
Fixpoint evicted `{Host} (logger : Logger.t) (postId : option string)
    (cs : list TrackerCall) (σ : World) : bool :=
  match cs with
  | [] => false
  | c :: cs' =>
      let σ' := (call logger c σ).2 in
      match c with
      | CallCleanup => bool_decide (seenPosts σ' !! postId = None)
      | _ => false
      end || evicted logger postId cs' σ'
  end.

(* ===================================================================== *)
(** ** Fixtures: a host, a configuration and some feeds to run the code on *)
(* ===================================================================== *)

Module Fixture.

(** 2026-11-02T09:00:00.000Z *)
Definition t0 : Z := 1793610000000.

Definition minute : Z := 60000.

(** A clock that stands still at [now]. *)
Definition frozen (now : Z) : nat -> Z := fun _ => now.

Definition quote : string := String (ascii_of_nat 34) EmptyString.

Definition replyBody : string :=
  "{" +:+ quote +:+ "should_reply" +:+ quote +:+ ": true, " +:+
  quote +:+ "reply" +:+ quote +:+ ": " +:+ quote +:+ "Nice riff!" +:+ quote +:+ "}".

Definition skipBody : string :=
  "{" +:+ quote +:+ "should_reply" +:+ quote +:+ ": false, " +:+
  quote +:+ "reason" +:+ quote +:+ ": " +:+ quote +:+ "Off topic" +:+ quote +:+ "}".

(** The dates and completion bodies the fixtures use, with the values
    the built-ins give them; any other string is an invalid date,
    respectively not JSON. *)
Definition parseDate (s : string) : Js.number :=
  if String.eqb s "2026-11-02T09:00:00.000Z" then Js.Num t0
  else if String.eqb s "2026-11-02T08:58:00.000Z" then Js.Num (t0 - 2 * minute)
  else if String.eqb s "2026-11-02T09:10:00.000Z" then Js.Num (t0 + 10 * minute)
  else if String.eqb s "2026-11-02T08:00:00.000Z" then Js.Num (t0 - 60 * minute)
  else Js.NaN.

Definition parseJson (s : string) : option AiJson :=
  if String.eqb s replyBody then
    Some {| should_reply := true; AiJson_reply := Some "Nice riff!"; AiJson_reason := None |}
  else if String.eqb s skipBody then
    Some {| should_reply := false; AiJson_reply := None; AiJson_reason := Some "Off topic" |}
  else None.

Definition host (clk : nat -> Z) : Host :=
  {| clock := clk; Date_parse := parseDate; JSON_parse := parseJson |}.

Definition env : gmap string string :=
  list_to_map [("MAILERSEND_API_TOKEN", "mlsn.token");
               ("FROM_EMAIL", "monitor@example.com");
               ("TO_EMAIL", "me@example.com");
               ("SUBREDDITS", "guitar, bass")].

Definition cfg : Config :=
  {| mailersend_apiToken := "mlsn.token";
     email_fromEmail := "monitor@example.com";
     email_fromName := "Reddit RSS Monitor";
     email_toEmail := "me@example.com";
     monitoring_subreddits := ["guitar"; "bass"];
     monitoring_checkIntervalMinutes := Js.Num 5;
     monitoring_postAgeMinutes := Js.Num 5;
     logging_level := "info";
     openai_apiKey := "";
     openai_model := "gpt-4o-mini";
     openai_prompt := Env.defaultPrompt;
     env_nodeEnv := "development";
     env_isDevelopment := true;
     env_isProduction := false |}.

(** The same configuration with the annotation feature switched on. *)
Definition cfgAi : Config :=
  {| mailersend_apiToken := "mlsn.token";
     email_fromEmail := "monitor@example.com";
     email_fromName := "Reddit RSS Monitor";
     email_toEmail := "me@example.com";
     monitoring_subreddits := ["guitar"; "bass"];
     monitoring_checkIntervalMinutes := Js.Num 5;
     monitoring_postAgeMinutes := Js.Num 5;
     logging_level := "info";
     openai_apiKey := "sk-test";
     openai_model := "gpt-4o-mini";
     openai_prompt := Env.defaultPrompt;
     env_nodeEnv := "development";
     env_isDevelopment := true;
     env_isProduction := false |}.

Definition item (id title pub : string) : Item :=
  {| item_id := Some id; item_guid := None; item_title := Some title;
     item_link := Some ("https://www.reddit.com/r/x/comments/" +:+ id);
     item_pubDate := Some pub; item_isoDate := Some pub;
     item_content := None; item_contentSnippet := Some "snippet" |}.

Definition a1 : Item := item "a1" "First post" "2026-11-02T08:58:00.000Z".
Definition a2 : Item := item "a2" "Second post" "2026-11-02T09:00:00.000Z".
Definition future : Item := item "f1" "From the future" "2026-11-02T09:10:00.000Z".

(** r/guitar is unreachable, r/bass answers with [items]. *)
Definition feeds (items : list Item) (url : string) : ParseOutcome :=
  if String.eqb url "https://www.reddit.com/r/bass/.rss" then ParseFeed items
  else ParseRejects "Status code 429".

(** A completion API that wants a reply to a1 and skips everything
    else ([userMessage] names the post by its link). *)
Definition chat (model systemMessage userMessage : string) : AiOutcome :=
  if Js.endsWith userMessage "a1" then AiCompletion (Some replyBody)
  else AiCompletion (Some skipBody).

Definition chatDown (model systemMessage userMessage : string) : AiOutcome :=
  AiThrows (Some 429) "Rate limit".

Definition net (items : list Item) (ai : string -> string -> string -> AiOutcome)
    (mail : SendOutcome) : Network :=
  {| parseURL := feeds items;
     fetch := fun _ => ContentNotOk "403";
     chat_completions_create := ai;
     mailerSend_email_send := fun _ => mail |}.


(** The clock stands at [t0]. *)
Definition now0 : Host := host (frozen t0).

Definition post1 : Post := RssService.postOfItem "bass" a1.
Definition post2 : Post := RssService.postOfItem "bass" a2.

(** A post the parser found neither [id] nor [guid] for. *)
Definition postWithoutId : Post :=
  RssService.postOfItem "bass"
    {| item_id := None; item_guid := None; item_title := Some "Untitled";
       item_link := None; item_pubDate := Some "2026-11-02T09:00:00.000Z";
       item_isoDate := None; item_content := None; item_contentSnippet := None |}.

(** The annotation skips a2: the cycle sends a1 alone. *)
Definition cycleSkip : Index.Cycle * World :=
  @Index.monitorFeeds now0 cfgAi (net [a1; a2] chat SendOk) initialWorld.

(** The completion API is down for the only new post. *)
Definition cycleDown : Index.Cycle * World :=
  @Index.monitorFeeds now0 cfgAi (net [a1] chatDown SendOk) initialWorld.






(** r/guitar fails, r/bass delivers, the provider accepts. *)
Definition cycleOneSourceDown : Index.Cycle * World :=
  @Index.monitorFeeds now0 cfg (net [a1; a2; future] chat SendOk) initialWorld.


(** TO_EMAIL is not set; the polling period is below one minute. *)
Definition envNoRecipient : gmap string string := delete "TO_EMAIL" env.
Definition envHalfMinute : gmap string string := <["CHECK_INTERVAL_MINUTES" := "0.5"]> env.

(** Uses of the tracker after a1 was marked. *)
Definition laterCalls : list TrackerCall :=
  [CallIsNewPost post2 (Js.Num 5); CallCleanup; CallMarkAsSeen (Some "a2")].

(** A clock that reads [t0] first and 61 minutes later from then on. *)
Definition leap (n : nat) : Z :=
  match n with
  | O => t0
  | S _ => t0 + 61 * minute
  end.

Definition afterAnHour : Host := host leap.

(** POST_AGE_MINUTES=soon: the window is not a number. *)
Definition cfgNaN : Config :=
  {| mailersend_apiToken := "mlsn.token";
     email_fromEmail := "monitor@example.com";
     email_fromName := "Reddit RSS Monitor";
     email_toEmail := "me@example.com";
     monitoring_subreddits := ["guitar"; "bass"];
     monitoring_checkIntervalMinutes := Js.Num 5;
     monitoring_postAgeMinutes := Js.parseInt "soon";
     logging_level := "info";
     openai_apiKey := "";
     openai_model := "gpt-4o-mini";
     openai_prompt := Env.defaultPrompt;
     env_nodeEnv := "development";
     env_isDevelopment := true;
     env_isProduction := false |}.

(** A tracker that saw a1 at [t0]. *)
Definition sawA1 : World := set_seenPosts {[Some "a1" := t0]} initialWorld.

End Fixture.

Example parseInt_5 : Js.parseInt " 5abc" = Js.Num 5. Proof. reflexivity. Qed.
Example parseInt_neg : Js.parseInt "-3" = Js.Num (-3). Proof. reflexivity. Qed.
Example parseInt_nan : Js.parseInt "abc" = Js.NaN. Proof. reflexivity. Qed.
Example parseInt_frac : Js.parseInt "0.5" = Js.Num 0. Proof. reflexivity. Qed.
Example split_ex : Js.split "," "a, b,,c" = ["a"; " b"; ""; "c"]. Proof. reflexivity. Qed.
Example trim_ex : Js.trim "  a b  " = "a b". Proof. reflexivity. Qed.
Example ofNat_ex : Js.ofNat 12 = "12". Proof. vm_compute. reflexivity. Qed.

(* ===================================================================== *)
(** ** Running computations *)
(* ===================================================================== *)

Lemma run_bind {A B : Type} (m : M A) (f : A -> M B) (σ : World) :
  (m ≫= f) σ = f (m σ).1 (m σ).2.
Proof. unfold mbind, M_bind. destruct (m σ); reflexivity. Qed.

Lemma run_ret {A : Type} (a : A) (σ : World) : (mret a : M A) σ = (a, σ).
Proof. reflexivity. Qed.

Lemma bind_inv {A B : Type} (m : M A) (f : A -> M B) (σ σ' : World) (b : B) :
  (m ≫= f) σ = (b, σ') -> ∃ a σm, m σ = (a, σm) ∧ f a σm = (b, σ').
Proof. rewrite run_bind. intros Hrun. exists (m σ).1, (m σ).2. by destruct (m σ). Qed.

Lemma run_fmap {A B : Type} (g : A -> B) (m : M A) (σ : World) :
  (g <$> m) σ = (g (m σ).1, (m σ).2).
Proof. unfold fmap, M_fmap. destruct (m σ); reflexivity. Qed.

Lemma logged_nil σ : logged [] σ = σ.
Proof. destruct σ; unfold logged, set_console; simpl. by rewrite app_nil_r. Qed.

Lemma logged_app es1 es2 σ : logged es2 (logged es1 σ) = logged (es1 ++ es2) σ.
Proof. unfold logged, set_console; simpl. by rewrite app_assoc. Qed.

Lemma logged_seenPosts es σ : seenPosts (logged es σ) = seenPosts σ.
Proof. reflexivity. Qed.
Lemma logged_ticks es σ : ticks (logged es σ) = ticks σ.
Proof. reflexivity. Qed.
Lemma logged_outbox es σ : outbox (logged es σ) = outbox σ.
Proof. reflexivity. Qed.
Lemma logged_console es σ : console (logged es σ) = console σ ++ es.
Proof. reflexivity. Qed.

Lemma writer_ret {A : Type} (a : A) : writer (mret a : M A).
Proof. exists a, []. intros σ. by rewrite logged_nil. Qed.

Lemma writer_bind {A B : Type} (m : M A) (f : A -> M B) :
  writer m -> (∀ a, writer (f a)) -> writer (m ≫= f).
Proof.
  intros (a & es & Hm) Hf. destruct (Hf a) as (b & es' & Hfa).
  exists b, (es ++ es'). intros σ.
  rewrite run_bind, Hm. cbn [fst snd]. by rewrite Hfa, logged_app.
Qed.

Lemma writer_print l msg : writer (print l msg).
Proof. exists tt, [(l, msg)]. reflexivity. Qed.

Lemma writer_mapM {A B : Type} (f : A -> M B) (l : list A) :
  (∀ a, writer (f a)) -> writer (mapM f l).
Proof.
  intros Hf. induction l as [|a l IH]; simpl.
  - apply writer_ret.
  - apply writer_bind; [apply Hf|]. intros b.
    apply writer_bind; [apply IH|]. intros bs. apply writer_ret.
Qed.

Lemma writer_if {A : Type} (b : bool) (m1 m2 : M A) :
  writer m1 -> writer m2 -> writer (if b then m1 else m2).
Proof. by destruct b. Qed.

Lemma writer_value {A : Type} (m : M A) (σ σ' : World) :
  writer m -> (m σ).1 = (m σ').1.
Proof. intros (a & es & Hm). by rewrite !Hm. Qed.

Lemma writer_seenPosts {A : Type} (m : M A) σ : writer m -> seenPosts (m σ).2 = seenPosts σ.
Proof. intros (a & es & Hm). by rewrite Hm. Qed.
Lemma writer_ticks {A : Type} (m : M A) σ : writer m -> ticks (m σ).2 = ticks σ.
Proof. intros (a & es & Hm). by rewrite Hm. Qed.
Lemma writer_outbox {A : Type} (m : M A) σ : writer m -> outbox (m σ).2 = outbox σ.
Proof. intros (a & es & Hm). by rewrite Hm. Qed.

Lemma writer_run {A : Type} (m : M A) (a : A) (σ σ' σ0 : World) :
  writer m -> m σ = (a, σ') ->
  a = (m σ0).1 ∧ seenPosts σ' = seenPosts σ ∧ ticks σ' = ticks σ ∧ outbox σ' = outbox σ.
Proof.
  intros (a' & es & Hm) Hrun. rewrite Hm in Hrun. injection Hrun as <- <-.
  by rewrite Hm.
Qed.

Lemma writer_debug logger msg : writer (Logger.debug logger msg).
Proof. unfold Logger.debug. apply writer_if; [apply writer_print | apply writer_ret]. Qed.
Lemma writer_info logger msg : writer (Logger.info logger msg).
Proof. unfold Logger.info. apply writer_if; [apply writer_print | apply writer_ret]. Qed.
Lemma writer_error logger msg : writer (Logger.error logger msg).
Proof. unfold Logger.error. apply writer_if; [apply writer_print | apply writer_ret]. Qed.

Create HintDb writer.
#[export] Hint Resolve writer_ret writer_print writer_debug writer_info writer_error : writer.

(** Peel a computation built from binds, conditionals and matches down
    to calls that are known to be writers. *)
Ltac writer_step :=
  match goal with
  | |- writer (mbind _ _) => apply writer_bind; [|intros ?]
  | |- writer (if ?b then _ else _) => destruct b
  | |- writer (match ?x with _ => _ end) => destruct x
  | |- writer (mapM _ _) => apply writer_mapM; intros ?
  | |- writer _ => solve [eauto with writer]
  end.
Ltac writer_auto := repeat writer_step.

(** A logger built by the constructor from one of the documented level
    names, or from any name that is not inherited, lets errors through. *)
Lemma Logger_new_level lvl :
  Logger.inherited lvl = false ->
  Logger.level (Logger.new lvl) = Js.Num 1 ∨ Logger.level (Logger.new lvl) = Js.Num 2.
Proof.
  intros Hin. unfold Logger.new, Logger.LOG_LEVELS. simpl.
  repeat (destruct (String.eqb lvl _); simpl; auto).
  rewrite Hin. auto.
Qed.

Lemma Logger_error_prints lvl msg σ :
  Logger.inherited lvl = false ->
  Logger.error (Logger.new lvl) msg σ = (tt, logged [(LError, msg)] σ).
Proof.
  intros Hin. unfold Logger.error.
  destruct (Logger_new_level lvl Hin) as [-> | ->]; reflexivity.
Qed.

(* ===================================================================== *)
(** ** The time-window filter *)
(* ===================================================================== *)

Section DateUtilsFacts.
Context `{Host}.

Lemma isWithinTimeWindow_run postDate minutes σ :
  DateUtils.isWithinTimeWindow postDate minutes σ =
  (let age := Js.sub (Js.Num (clock (ticks σ))) (Date_getTime postDate) in
   Js.ge age (Js.Num 0) && Js.le age (Js.mul (Js.mul minutes (Js.Num 60)) (Js.Num 1000)),
   set_ticks (S (ticks σ)) σ).
Proof. reflexivity. Qed.

(** C4.  The freshness filter answers true exactly when the publish
    time is a valid instant [t] with [0 <= now - t <= w * 60000], where
    [now] is what [Date.now()] returns in the call; a future-dated
    publish time and an unparseable one both give false.  The
    equivalence holds for every integer window, in particular for every
    positive one. *)
Theorem isWithinTimeWindow_iff (postDate : option string) (w : Z) (σ : World) :
  let now := clock (ticks σ) in
  let answer := (DateUtils.isWithinTimeWindow postDate (Js.Num w) σ).1 in
  (answer = true ↔ ∃ t, Date_getTime postDate = Js.Num t ∧ 0 <= now - t <= w * 60000)
  ∧ (∀ t, Date_getTime postDate = Js.Num t -> now < t -> answer = false)
  ∧ (Date_getTime postDate = Js.NaN -> answer = false).
Proof.
  intros now answer. subst answer. rewrite isWithinTimeWindow_run. cbn [fst].
  fold now. destruct (Date_getTime postDate) as [|t] eqn:Ht; cbn [Js.sub Js.ge Js.le Js.mul].
  - split; [|split]; [|discriminate|reflexivity].
    split; [discriminate|]. intros (t & Heq & _). discriminate.
  - split; [|split]; [| |discriminate].
    + rewrite andb_true_iff, !Z.leb_le. split.
      * intros [H1 H2]. exists t. split; [reflexivity|lia].
      * intros (t' & Heq & H1). injection Heq as <-. lia.
    + intros t' Heq Hlt. injection Heq as <-.
      apply andb_false_iff. left. apply Z.leb_gt. lia.
Qed.

End DateUtilsFacts.

(* ===================================================================== *)
(** ** The seen-item tracker *)
(* ===================================================================== *)

Section TrackerFacts.
Context `{Host}.
Variable logger : Logger.t.

(** *** [isNewPost] *)

Lemma isNewPost_invalid post w σ :
  Js.truthy (post_id post) = false ∨ Js.truthy (post_pubDate post) = false ->
  PostTracker.isNewPost logger post w σ =
  (false, (Logger.error logger "Invalid post object:" σ).2).
Proof.
  intros Hbad. unfold PostTracker.isNewPost.
  replace (negb (Js.truthy (post_id post)) || negb (Js.truthy (post_pubDate post))) with true
    by (destruct Hbad as [-> | ->]; simpl; [reflexivity | by rewrite orb_true_r]).
  by rewrite run_bind.
Qed.

Lemma isNewPost_valid post w σ :
  Js.truthy (post_id post) = true -> Js.truthy (post_pubDate post) = true ->
  (PostTracker.isNewPost logger post w σ).1 =
    (DateUtils.isWithinTimeWindow (post_pubDate post) w σ).1
    && negb (bool_decide (is_Some (seenPosts σ !! post_id post)))
  ∧ seenPosts (PostTracker.isNewPost logger post w σ).2 = seenPosts σ
  ∧ outbox (PostTracker.isNewPost logger post w σ).2 = outbox σ
  ∧ ticks (PostTracker.isNewPost logger post w σ).2 = S (ticks σ).
Proof.
  intros Hid Hpub. unfold PostTracker.isNewPost. rewrite Hid, Hpub. cbn [negb orb].
  rewrite run_bind, isWithinTimeWindow_run. cbn [fst snd].
  rewrite run_bind. unfold gets. cbn [fst snd seenPosts set_ticks].
  match goal with |- context [if ?c then _ else _] => destruct c eqn:Hc end.
  - rewrite run_bind, run_ret. cbn [fst snd].
    rewrite writer_seenPosts, writer_outbox, writer_ticks by apply writer_debug.
    done.
  - rewrite run_ret. done.
Qed.

Lemma isNewPost_seenPosts post w σ :
  seenPosts (PostTracker.isNewPost logger post w σ).2 = seenPosts σ.
Proof.
  destruct (Js.truthy (post_id post)) eqn:Hid;
    [destruct (Js.truthy (post_pubDate post)) eqn:Hpub|].
  - by apply isNewPost_valid.
  - rewrite isNewPost_invalid by auto. cbn [fst snd]. apply writer_seenPosts, writer_error.
  - rewrite isNewPost_invalid by auto. cbn [fst snd]. apply writer_seenPosts, writer_error.
Qed.

Lemma isNewPost_outbox post w σ :
  outbox (PostTracker.isNewPost logger post w σ).2 = outbox σ.
Proof.
  destruct (Js.truthy (post_id post)) eqn:Hid;
    [destruct (Js.truthy (post_pubDate post)) eqn:Hpub|].
  - by apply isNewPost_valid.
  - rewrite isNewPost_invalid by auto. cbn [fst snd]. apply writer_outbox, writer_error.
  - rewrite isNewPost_invalid by auto. cbn [fst snd]. apply writer_outbox, writer_error.
Qed.

Lemma isNewPost_ticks post w σ :
  (ticks σ <= ticks (PostTracker.isNewPost logger post w σ).2)%nat.
Proof.
  destruct (Js.truthy (post_id post)) eqn:Hid;
    [destruct (Js.truthy (post_pubDate post)) eqn:Hpub|].
  - destruct (isNewPost_valid post w σ Hid Hpub) as (_ & _ & _ & ->). lia.
  - rewrite isNewPost_invalid by auto. cbn [fst snd]. by rewrite writer_ticks by apply writer_error.
  - rewrite isNewPost_invalid by auto. cbn [fst snd]. by rewrite writer_ticks by apply writer_error.
Qed.

(** A seen identifier is never new. *)
Lemma isNewPost_seen post w σ :
  is_Some (seenPosts σ !! post_id post) ->
  (PostTracker.isNewPost logger post w σ).1 = false.
Proof.
  intros Hseen.
  destruct (Js.truthy (post_id post)) eqn:Hid;
    [destruct (Js.truthy (post_pubDate post)) eqn:Hpub|].
  - destruct (isNewPost_valid post w σ Hid Hpub) as (-> & _).
    rewrite bool_decide_eq_true_2 by done. apply andb_false_r.
  - by rewrite isNewPost_invalid by auto.
  - by rewrite isNewPost_invalid by auto.
Qed.

(** *** [markAsSeen] *)

Lemma markAsSeen_run postId σ :
  seenPosts (PostTracker.markAsSeen logger postId σ).2 =
    <[postId := clock (ticks σ)]> (seenPosts σ)
  ∧ ticks (PostTracker.markAsSeen logger postId σ).2 = S (ticks σ)
  ∧ outbox (PostTracker.markAsSeen logger postId σ).2 = outbox σ.
Proof.
  unfold PostTracker.markAsSeen.
  rewrite run_bind. unfold Date_now. cbn [fst snd].
  rewrite run_bind. unfold modify. cbn [fst snd].
  rewrite run_bind. unfold gets. cbn [fst snd].
  rewrite writer_seenPosts, writer_ticks, writer_outbox by apply writer_debug.
  done.
Qed.

(** *** [cleanup] *)

Lemma cleanup_fold_absent now l acc k :
  acc.1 !! k = None ->
  (foldl (PostTracker.cleanup_step now) acc l).1 !! k = None.
Proof.
  revert acc. induction l as [|[k' ts] l IH]; intros acc Hk; [done|].
  cbn [foldl]. apply IH. unfold PostTracker.cleanup_step. cbn [fst snd].
  destruct (PostTracker.MAX_AGE_MS <? now - ts); [|done].
  cbn [fst]. rewrite lookup_delete. by case_decide.
Qed.

Lemma cleanup_fold_stale now l acc k ts :
  (k, ts) ∈ l -> PostTracker.MAX_AGE_MS < now - ts ->
  (foldl (PostTracker.cleanup_step now) acc l).1 !! k = None.
Proof.
  revert acc. induction l as [|[k' ts'] l IH]; intros acc Hin Hold.
  - by apply elem_of_nil in Hin.
  - cbn [foldl]. apply elem_of_cons in Hin as [Heq | Hin]; [|by apply IH].
    injection Heq as <- <-. apply cleanup_fold_absent.
    unfold PostTracker.cleanup_step. cbn [fst snd].
    apply Z.ltb_lt in Hold. rewrite Hold. cbn [fst]. apply lookup_delete_eq.
Qed.

Lemma cleanup_fold_kept now l acc k :
  (∀ ts, (k, ts) ∈ l -> now - ts <= PostTracker.MAX_AGE_MS) ->
  (foldl (PostTracker.cleanup_step now) acc l).1 !! k = acc.1 !! k.
Proof.
  revert acc. induction l as [|[k' ts'] l IH]; intros acc Hl; [done|].
  cbn [foldl]. rewrite IH by (intros ts Hin; apply Hl; by right).
  unfold PostTracker.cleanup_step. cbn [fst snd].
  destruct (PostTracker.MAX_AGE_MS <? now - ts') eqn:Hold; [|done].
  cbn [fst]. apply Z.ltb_lt in Hold.
  apply lookup_delete_ne. intros ->.
  specialize (Hl ts' ltac:(by left)). lia.
Qed.

Lemma cleanup_run σ :
  seenPosts (PostTracker.cleanup logger σ).2 =
    (foldl (PostTracker.cleanup_step (clock (ticks σ))) (seenPosts σ, 0%nat)
           (map_to_list (seenPosts σ))).1
  ∧ ticks (PostTracker.cleanup logger σ).2 = S (ticks σ)
  ∧ outbox (PostTracker.cleanup logger σ).2 = outbox σ.
Proof.
  unfold PostTracker.cleanup.
  rewrite run_bind. unfold Date_now. cbn [fst snd].
  rewrite run_bind. unfold gets. cbn [fst snd seenPosts set_ticks].
  destruct (foldl _ _ _) as [seen' removed] eqn:Hfold.
  rewrite run_bind. unfold modify. cbn [fst snd].
  rewrite writer_seenPosts, writer_ticks, writer_outbox
    by (apply writer_if; [apply writer_info | apply writer_ret]).
  done.
Qed.

(** What [cleanup] leaves of the record of [postId]. *)
Lemma cleanup_lookup σ postId :
  seenPosts (PostTracker.cleanup logger σ).2 !! postId =
  match seenPosts σ !! postId with
  | Some ts => if PostTracker.MAX_AGE_MS <? clock (ticks σ) - ts then None else Some ts
  | None => None
  end.
Proof.
  destruct (cleanup_run σ) as (-> & _).
  destruct (seenPosts σ !! postId) as [ts|] eqn:Hlook.
  - destruct (PostTracker.MAX_AGE_MS <? clock (ticks σ) - ts) eqn:Hold.
    + apply Z.ltb_lt in Hold.
      eapply cleanup_fold_stale; [|exact Hold]. by apply elem_of_map_to_list.
    + apply Z.ltb_ge in Hold.
      rewrite cleanup_fold_kept; [done|].
      intros ts' Hin. apply elem_of_map_to_list in Hin.
      cbn [fst] in Hlook. congruence.
  - by apply cleanup_fold_absent.
Qed.

End TrackerFacts.

Section TrackerProperties.
Context `{Host}.

(** C5.  [isNewPost] fails closed on a post without identifier or
    publish time: it answers false, and its only effect is the call of
    [logger.error] (which prints for every logger the constructor builds
    from a level name that is not an inherited property).  Otherwise it
    answers true exactly when the post is within the freshness window
    and its identifier is absent from the seen map.  In every case the
    seen map is left as it was. *)
Theorem isNewPost_spec (logger : Logger.t) (post : Post) (w : Js.number) (σ : World) :
  let r := PostTracker.isNewPost logger post w σ in
  (Js.truthy (post_id post) = false ∨ Js.truthy (post_pubDate post) = false ->
     r = (false, (Logger.error logger "Invalid post object:" σ).2)
     ∧ (∀ lvl, logger = Logger.new lvl -> Logger.inherited lvl = false ->
          console r.2 = console σ ++ [(LError, "Invalid post object:")]))
  ∧ (Js.truthy (post_id post) = true -> Js.truthy (post_pubDate post) = true ->
     (r.1 = true ↔
        (DateUtils.isWithinTimeWindow (post_pubDate post) w σ).1 = true
        ∧ seenPosts σ !! post_id post = None))
  ∧ seenPosts r.2 = seenPosts σ.
Proof.
  intros r. subst r. split; [|split].
  - intros Hbad. rewrite isNewPost_invalid by done. split; [done|].
    intros lvl -> Hin. cbn [snd]. by rewrite Logger_error_prints.
  - intros Hid Hpub. destruct (isNewPost_valid logger post w σ Hid Hpub) as (-> & _).
    rewrite andb_true_iff, negb_true_iff, bool_decide_eq_false.
    by rewrite <- eq_None_not_Some.
  - apply isNewPost_seenPosts.
Qed.

(** Presence of a record survives every call that is not an evicting
    cleanup. *)
Lemma calls_keep_record logger postId cs σ :
  is_Some (seenPosts σ !! postId) ->
  evicted logger postId cs σ = false ->
  is_Some (seenPosts (forEach (call logger) cs σ).2 !! postId).
Proof.
  revert σ. induction cs as [|c cs IH]; intros σ Hin Hev; [done|].
  cbn [forEach]. rewrite run_bind. cbn [evicted] in Hev.
  apply orb_false_iff in Hev as [Hc Hev].
  apply IH; [|exact Hev].
  destruct c as [post w | postId' |]; cbn [call] in *.
  - rewrite run_bind, run_ret. cbn [snd]. by rewrite isNewPost_seenPosts.
  - destruct (markAsSeen_run logger postId' σ) as (-> & _).
    rewrite lookup_insert. case_decide; [by eexists | done].
  - apply bool_decide_eq_false in Hc. by apply not_eq_None_Some.
Qed.

(** C6.  Once [markAsSeen(id)] has run, and through any further use of
    the tracker in which no cleanup evicts the record, [isNewPost]
    answers false for every post that carries [id], whatever its
    publish time and whatever the window. *)
Theorem isNewPost_false_after_markAsSeen (logger : Logger.t) (postId : option string)
    (σ : World) (cs : list TrackerCall) (post : Post) (w : Js.number) :
  post_id post = postId ->
  let σ1 := (PostTracker.markAsSeen logger postId σ).2 in
  evicted logger postId cs σ1 = false ->
  (PostTracker.isNewPost logger post w (forEach (call logger) cs σ1).2).1 = false.
Proof.
  intros Hid σ1 Hev. apply isNewPost_seen. rewrite Hid.
  apply calls_keep_record; [|exact Hev].
  subst σ1. destruct (markAsSeen_run logger postId σ) as (-> & _).
  rewrite lookup_insert_eq. by eexists.
Qed.

(** C7.  [cleanup] run at time [now] keeps exactly the records that are
    at most one hour old, with their timestamps: what remains is within
    the horizon and was there before, what was within the horizon
    remains, and what was older is gone.  A lone record made at [t0] is
    removed by a cleanup at [t0] + 61 minutes and kept by one at [t0] +
    59 minutes. *)
Theorem cleanup_spec (logger : Logger.t) (σ : World) :
  let now := clock (ticks σ) in
  let σ' := (PostTracker.cleanup logger σ).2 in
  PostTracker.MAX_AGE_MS = 3600000
  ∧ (∀ postId ts, seenPosts σ' !! postId = Some ts ->
       now - ts <= PostTracker.MAX_AGE_MS ∧ seenPosts σ !! postId = Some ts)
  ∧ (∀ postId ts, seenPosts σ !! postId = Some ts ->
       now - ts <= PostTracker.MAX_AGE_MS -> seenPosts σ' !! postId = Some ts)
  ∧ (∀ postId ts, seenPosts σ !! postId = Some ts ->
       PostTracker.MAX_AGE_MS < now - ts -> seenPosts σ' !! postId = None)
  ∧ (∀ a1 t0, seenPosts σ = {[a1 := t0]} ->
       (now = t0 + 61 * 60000 -> seenPosts σ' = ∅)
       ∧ (now = t0 + 59 * 60000 -> seenPosts σ' = {[a1 := t0]})).
Proof.
  intros now σ'. subst σ'. split; [reflexivity|].
  assert (Hkeep : ∀ postId ts, seenPosts σ !! postId = Some ts ->
            now - ts <= PostTracker.MAX_AGE_MS ->
            seenPosts (PostTracker.cleanup logger σ).2 !! postId = Some ts).
  { intros postId ts Hin Hage. rewrite cleanup_lookup, Hin.
    fold now. apply Z.ltb_ge in Hage. by rewrite Hage. }
  assert (Hdrop : ∀ postId ts, seenPosts σ !! postId = Some ts ->
            PostTracker.MAX_AGE_MS < now - ts ->
            seenPosts (PostTracker.cleanup logger σ).2 !! postId = None).
  { intros postId ts Hin Hage. rewrite cleanup_lookup, Hin.
    fold now. apply Z.ltb_lt in Hage. by rewrite Hage. }
  split; [|split; [exact Hkeep|split; [exact Hdrop|]]].
  - intros postId ts. rewrite cleanup_lookup. fold now.
    destruct (seenPosts σ !! postId) as [ts'|]; [|discriminate].
    destruct (PostTracker.MAX_AGE_MS <? now - ts') eqn:Hold; [discriminate|].
    intros [= <-]. apply Z.ltb_ge in Hold. done.
  - intros a1 t0 Hσ. split; intros Hnow; apply map_eq; intros k.
    + rewrite lookup_empty. destruct (decide (k = a1)) as [->|Hne].
      * apply (Hdrop a1 t0); [by rewrite Hσ, lookup_singleton_eq|].
        unfold PostTracker.MAX_AGE_MS. lia.
      * rewrite cleanup_lookup, Hσ. by rewrite lookup_singleton_ne.
    + destruct (decide (k = a1)) as [->|Hne].
      * rewrite lookup_singleton_eq.
        apply (Hkeep a1 t0); [by rewrite Hσ, lookup_singleton_eq|].
        unfold PostTracker.MAX_AGE_MS. lia.
      * rewrite cleanup_lookup, Hσ. by rewrite !lookup_singleton_ne.
Qed.

End TrackerProperties.

(* ===================================================================== *)
(** ** The services around the tracker *)
(* ===================================================================== *)

Lemma mapM_value {A B : Type} (f : A -> M B) (l : list A) (σ σ0 : World) :
  (∀ a, writer (f a)) ->
  (mapM f l σ).1 = map (fun a => (f a σ0).1) l.
Proof.
  intros Hf. revert σ. induction l as [|a l IH]; intros σ; [done|].
  cbn [mapM map]. rewrite !run_bind, run_ret. cbn [fst].
  by rewrite IH, (writer_value (f a) σ σ0).
Qed.

Section ServiceFacts.
Context `{Host}.
Variable config : Config.
Variable logger : Logger.t.
Variable net : Network.

Lemma writer_fetchFullPostContent postUrl :
  writer (RssService.fetchFullPostContent logger net postUrl).
Proof. unfold RssService.fetchFullPostContent. writer_auto. Qed.

Lemma writer_fetchFeed subreddit : writer (RssService.fetchFeed logger net subreddit).
Proof. unfold RssService.fetchFeed. writer_auto. Qed.

Lemma writer_fetchMultipleFeeds subreddits :
  writer (RssService.fetchMultipleFeeds logger net subreddits).
Proof.
  unfold RssService.fetchMultipleFeeds.
  apply writer_bind; [apply writer_info|intros _].
  apply writer_bind; [apply writer_mapM, writer_fetchFeed|intros results].
  writer_auto.
Qed.

Lemma writer_generateReply post : writer (OpenAIService.generateReply config logger net post).
Proof.
  unfold OpenAIService.generateReply.
  destruct (negb (OpenAIService.enabled config)); [apply writer_ret|].
  do 5 (apply writer_bind; [apply writer_info|intros _]).
  destruct (chat_completions_create net _ _ _) as [status message|content].
  - apply writer_bind; [apply writer_error|intros _].
    apply writer_bind; [|intros _; apply writer_ret].
    destruct status as [[|p|p]|]; try apply writer_ret.
    destruct (decide (Z.pos p = 429)) as [[= ->]|H429]; [apply writer_error|].
    destruct (decide (Z.pos p = 401)) as [[= ->]|H401]; [apply writer_error|].
    repeat (destruct p as [p|p|]; try apply writer_ret; try apply writer_error).
  - writer_auto.
Qed.

Lemma writer_analyzeOne post : writer (OpenAIService.analyzeOne config logger net post).
Proof.
  unfold OpenAIService.analyzeOne.
  apply writer_bind; [apply writer_generateReply|intros [r|]; apply writer_ret].
Qed.

Lemma writer_analyzeAllPosts posts :
  writer (OpenAIService.analyzeAllPosts config logger net posts).
Proof.
  unfold OpenAIService.analyzeAllPosts.
  destruct (_ || _); [apply writer_ret|].
  apply writer_bind; [apply writer_info|intros _].
  apply writer_bind; [apply writer_mapM, writer_analyzeOne|intros analyzed].
  writer_auto.
Qed.

(** *** Fetching *)

Lemma fetchFeed_value subreddit σ :
  (RssService.fetchFeed logger net subreddit σ).1 =
  match parseURL net (RssService.feedUrl subreddit) with
  | ParseFeed items =>
      {| RssService.success := true; RssService.subreddit := subreddit;
         RssService.error := None;
         RssService.posts := map (RssService.postOfItem subreddit) items |}
  | ParseRejects message =>
      {| RssService.success := false; RssService.subreddit := subreddit;
         RssService.error := Some message; RssService.posts := [] |}
  end.
Proof.
  unfold RssService.fetchFeed. rewrite run_bind.
  destruct (parseURL net _); by rewrite run_bind, run_ret.
Qed.

Lemma fetchMultipleFeeds_value subreddits σ :
  (RssService.fetchMultipleFeeds logger net subreddits σ).1 =
  map (fun s => (RssService.fetchFeed logger net s initialWorld).1) subreddits.
Proof.
  unfold RssService.fetchMultipleFeeds. rewrite !run_bind, run_ret. cbn [fst].
  apply mapM_value, writer_fetchFeed.
Qed.

(** *** Annotating *)

Lemma generateReply_failure post σ :
  OpenAIService.enabled config = true ->
  annotationFails config net post = true ->
  ∃ why, (OpenAIService.generateReply config logger net post σ).1 =
         Some {| OpenAIService.shouldReply := false; OpenAIService.reply := None;
                 OpenAIService.reason := why |}.
Proof.
  intros Hon Hfail. unfold OpenAIService.generateReply. rewrite Hon. cbn [negb].
  rewrite !run_bind. unfold annotationFails in Hfail.
  destruct (chat_completions_create net _ _ _) as [status message|content].
  - rewrite !run_bind, run_ret. by eexists.
  - cbn zeta in Hfail. destruct (Js.truthy (Js.trim <$> content)) eqn:Htruthy; cbn [negb orb] in *.
    + destruct (JSON_parse _); [discriminate|].
      rewrite !run_bind, run_ret. by eexists.
    + rewrite !run_bind, run_ret. by eexists.
Qed.

Lemma generateReply_enabled post σ :
  OpenAIService.enabled config = true ->
  is_Some (OpenAIService.generateReply config logger net post σ).1.
Proof.
  intros Hon. unfold OpenAIService.generateReply. rewrite Hon. cbn [negb].
  rewrite !run_bind.
  destruct (chat_completions_create net _ _ _) as [status message|content].
  - rewrite !run_bind, run_ret. by eexists.
  - destruct (negb (Js.truthy (Js.trim <$> content))).
    + rewrite !run_bind, run_ret. by eexists.
    + destruct (JSON_parse _); rewrite !run_bind, run_ret; by eexists.
Qed.

Lemma analyzeOne_baseline post σ :
  baseline (OpenAIService.analyzeOne config logger net post σ).1 = baseline post.
Proof.
  unfold OpenAIService.analyzeOne. rewrite run_bind.
  by destruct (OpenAIService.generateReply config logger net post σ).1.
Qed.

Lemma analyzeOne_decided post σ :
  OpenAIService.enabled config = true ->
  is_Some (post_shouldReply (OpenAIService.analyzeOne config logger net post σ).1).
Proof.
  intros Hon. unfold OpenAIService.analyzeOne. rewrite run_bind.
  destruct (generateReply_enabled post σ Hon) as [r ->]. by eexists.
Qed.

Lemma analyzeOne_failure post σ :
  OpenAIService.enabled config = true ->
  annotationFails config net post = true ->
  post_shouldReply (OpenAIService.analyzeOne config logger net post σ).1 = Some false
  ∧ post_aiReply (OpenAIService.analyzeOne config logger net post σ).1 = None.
Proof.
  intros Hon Hfail. unfold OpenAIService.analyzeOne. rewrite run_bind.
  by destruct (generateReply_failure post σ Hon Hfail) as [why ->].
Qed.

Lemma analyzeAllPosts_value posts σ :
  OpenAIService.enabled config = true ->
  (OpenAIService.analyzeAllPosts config logger net posts σ).1 =
  map (fun p => (OpenAIService.analyzeOne config logger net p initialWorld).1) posts.
Proof.
  intros Hon. unfold OpenAIService.analyzeAllPosts. rewrite Hon. cbn [negb orb].
  destruct posts as [|p posts]; [done|]. cbn [length Nat.eqb].
  rewrite !run_bind, run_ret. cbn [fst].
  apply mapM_value, writer_analyzeOne.
Qed.

(** *** Sending *)

Lemma sendNotification_none σ :
  (EmailService.sendNotification config logger net None σ).1 = false
  ∧ outbox (EmailService.sendNotification config logger net None σ).2 = outbox σ.
Proof.
  cbn [EmailService.sendNotification]. rewrite run_bind, run_ret. cbn [fst snd].
  by rewrite writer_outbox by apply writer_debug.
Qed.

(** Nothing passes the filter: no send is attempted. *)
Lemma sendNotification_nothing posts σ :
  EmailService.postsToEmail posts = [] ->
  (EmailService.sendNotification config logger net (Some posts) σ).1 = false
  ∧ outbox (EmailService.sendNotification config logger net (Some posts) σ).2 = outbox σ.
Proof.
  intros Hnone. cbn [EmailService.sendNotification].
  destruct (length posts =? 0)%nat.
  - rewrite run_bind, run_ret. cbn [fst snd].
    by rewrite writer_outbox by apply writer_debug.
  - cbn zeta. rewrite Hnone. cbn [length Nat.eqb].
    rewrite run_bind, run_ret. cbn [fst snd].
    by rewrite writer_outbox by apply writer_info.
Qed.

(** Something passes the filter: exactly one send is attempted, with
    the posts that passed, and its outcome is the answer. *)
Lemma sendNotification_attempt posts σ :
  EmailService.postsToEmail posts ≠ [] ->
  let e := EmailService.emailParams config (EmailService.postsToEmail posts) in
  (EmailService.sendNotification config logger net (Some posts) σ).1 =
    match mailerSend_email_send net e with SendOk => true | SendThrows _ _ => false end
  ∧ outbox (EmailService.sendNotification config logger net (Some posts) σ).2 = outbox σ ++ [e].
Proof.
  intros Hsome e. cbn [EmailService.sendNotification].
  assert (Hposts : (length posts =? 0)%nat = false).
  { apply Nat.eqb_neq. intros Hlen. apply Hsome.
    destruct posts; [done|discriminate]. }
  assert (Hkept : (length (EmailService.postsToEmail posts) =? 0)%nat = false).
  { apply Nat.eqb_neq. intros Hlen. apply Hsome.
    by destruct (EmailService.postsToEmail posts). }
  rewrite Hposts. cbn zeta. rewrite Hkept. fold e.
  rewrite !run_bind. unfold modify. cbn [fst snd].
  set (σ1 := (Logger.info logger _ (_ σ).2).2).
  assert (Hσ1 : outbox σ1 = outbox σ).
  { subst σ1. rewrite writer_outbox by apply writer_info.
    apply writer_outbox. apply writer_if; [apply writer_info|apply writer_ret]. }
  destruct (mailerSend_email_send net e) as [|message body].
  - rewrite run_bind, run_ret. cbn [fst snd].
    rewrite writer_outbox by apply writer_info. cbn [outbox set_outbox]. by rewrite Hσ1.
  - rewrite !run_bind, run_ret. cbn [fst snd].
    rewrite writer_outbox by (destruct body; [apply writer_error|apply writer_ret]).
    rewrite writer_outbox by apply writer_error. cbn [outbox set_outbox]. by rewrite Hσ1.
Qed.

Lemma sendNotification_tracker posts σ :
  seenPosts (EmailService.sendNotification config logger net posts σ).2 = seenPosts σ
  ∧ ticks (EmailService.sendNotification config logger net posts σ).2 = ticks σ.
Proof.
  unfold EmailService.sendNotification.
  destruct posts as [posts|].
  2:{ rewrite run_bind, run_ret. cbn [snd].
      by rewrite writer_seenPosts, writer_ticks by apply writer_debug. }
  destruct (length posts =? 0)%nat.
  { rewrite run_bind, run_ret. cbn [snd].
    by rewrite writer_seenPosts, writer_ticks by apply writer_debug. }
  cbn zeta. destruct (length (EmailService.postsToEmail posts) =? 0)%nat.
  { rewrite run_bind, run_ret. cbn [snd].
    by rewrite writer_seenPosts, writer_ticks by apply writer_info. }
  rewrite !run_bind. unfold modify. cbn [fst snd].
  set (σ1 := (Logger.info logger _ (_ σ).2).2).
  assert (Hσ1 : seenPosts σ1 = seenPosts σ ∧ ticks σ1 = ticks σ).
  { subst σ1. rewrite writer_seenPosts, writer_ticks by apply writer_info.
    split; [apply writer_seenPosts|apply writer_ticks];
      (apply writer_if; [apply writer_info|apply writer_ret]). }
  destruct Hσ1 as [Hs Ht].
  destruct (mailerSend_email_send net _) as [|message body].
  - rewrite run_bind, run_ret. cbn [fst snd].
    rewrite writer_seenPosts, writer_ticks by apply writer_info. done.
  - rewrite !run_bind, run_ret. cbn [fst snd].
    rewrite writer_seenPosts, writer_ticks
      by (destruct body; [apply writer_error|apply writer_ret]).
    rewrite writer_seenPosts, writer_ticks by apply writer_error. done.
Qed.

End ServiceFacts.

(* ===================================================================== *)
(** ** One polling cycle *)
(* ===================================================================== *)

Section CycleFacts.
Context `{Host}.
Variable config : Config.
Variable net : Network.

Let logger := Index.logger config.
Let window := monitoring_postAgeMinutes config.

Lemma isWithinTimeWindow_freshAt post w σ :
  (DateUtils.isWithinTimeWindow (post_pubDate post) w σ).1 = freshAt (ticks σ) post w.
Proof. reflexivity. Qed.

(** The filter step of the cycle. *)
Lemma filterM_isNewPost (l : list Post) (σ : World) :
  let r := filterM (fun post => PostTracker.isNewPost logger post window) l σ in
  seenPosts r.2 = seenPosts σ ∧ outbox r.2 = outbox σ ∧ (ticks σ <= ticks r.2)%nat
  ∧ (∀ p, p ∈ r.1 ->
       p ∈ l ∧ Js.truthy (post_id p) = true ∧ Js.truthy (post_pubDate p) = true
       ∧ seenPosts σ !! post_id p = None
       ∧ ∃ n, (ticks σ <= n)%nat ∧ freshAt n p window = true)
  ∧ (∀ p, p ∈ l ->
       Js.truthy (post_id p) = true -> Js.truthy (post_pubDate p) = true ->
       seenPosts σ !! post_id p = None ->
       (∀ n, (ticks σ <= n)%nat -> freshAt n p window = true) ->
       p ∈ r.1).
Proof.
  revert σ. induction l as [|a l IH]; intros σ r; subst r.
  - cbn [filterM]. rewrite run_ret. cbn [fst snd].
    do 3 (split; [done|]). split; intros p Hp; by apply elem_of_nil in Hp.
  - cbn [filterM]. rewrite !run_bind, run_ret. cbn [fst snd].
    set (σa := (PostTracker.isNewPost logger a window σ).2).
    assert (Hsa : seenPosts σa = seenPosts σ) by apply isNewPost_seenPosts.
    assert (Hoa : outbox σa = outbox σ) by apply isNewPost_outbox.
    assert (Hta : (ticks σ <= ticks σa)%nat) by apply isNewPost_ticks.
    destruct (IH σa) as (Hs & Ho & Ht & Hsound & Hcomplete).
    split; [congruence|]. split; [congruence|]. split; [lia|]. split.
    + intros p Hp.
      assert (Hcases : (p = a ∧ (PostTracker.isNewPost logger a window σ).1 = true)
                       ∨ p ∈ (filterM (fun post => PostTracker.isNewPost logger post window) l σa).1).
      { destruct (PostTracker.isNewPost logger a window σ).1; [|by right].
        apply elem_of_cons in Hp as [-> | Hp']; [by left | by right]. }
      clear Hp. destruct Hcases as [[-> Hnew] | Hp].
      * split; [by left|].
        destruct (Js.truthy (post_id a)) eqn:Hid;
          [destruct (Js.truthy (post_pubDate a)) eqn:Hpub|];
          try (rewrite isNewPost_invalid in Hnew by auto; discriminate).
        destruct (isNewPost_valid logger a window σ Hid Hpub) as (Hval & _).
        rewrite Hval, isWithinTimeWindow_freshAt in Hnew.
        apply andb_true_iff in Hnew as [Hfresh Hunseen].
        apply negb_true_iff, bool_decide_eq_false in Hunseen.
        repeat split; [by apply eq_None_not_Some|].
        exists (ticks σ). split; [lia|done].
      * destruct (Hsound p Hp) as (Hin & Hid & Hpub & Hnone & n & Hn & Hfresh).
        split; [by right|]. repeat split; [done|done|congruence|].
        exists n. split; [lia|done].
    + intros p Hp Hid Hpub Hnone Hfresh.
      apply elem_of_cons in Hp as [-> | Hp'].
      * destruct (isNewPost_valid logger a window σ Hid Hpub) as (-> & _).
        rewrite isWithinTimeWindow_freshAt, Hfresh by lia.
        rewrite bool_decide_eq_false_2 by (by apply eq_None_not_Some). by left.
      * assert (Hin : p ∈ (filterM (fun post => PostTracker.isNewPost logger post window) l σa).1).
        { apply Hcomplete; try done; [congruence|]. intros n Hn. apply Hfresh. lia. }
        destruct (PostTracker.isNewPost logger a window σ).1; [by right|done].
Qed.

(** Marking a batch as seen. *)
Lemma forEach_markAsSeen (l : list Post) (σ : World) :
  let σ' := (forEach (fun post => PostTracker.markAsSeen logger (post_id post)) l σ).2 in
  (∀ p, p ∈ l -> ∃ n, (ticks σ <= n)%nat ∧ seenPosts σ' !! post_id p = Some (clock n))
  ∧ (∀ postId, postId ∉ map post_id l -> seenPosts σ' !! postId = seenPosts σ !! postId)
  ∧ (∀ postId, is_Some (seenPosts σ !! postId) -> is_Some (seenPosts σ' !! postId))
  ∧ outbox σ' = outbox σ
  ∧ ticks σ' = (ticks σ + length l)%nat.
Proof.
  revert σ. induction l as [|a l IH]; intros σ σ'; subst σ'.
  - cbn [forEach]. rewrite run_ret. cbn [snd length map].
    split; [intros p Hp; by apply elem_of_nil in Hp|].
    do 3 (split; [done|]). lia.
  - cbn [forEach]. rewrite run_bind. cbn [snd length map].
    set (σa := (PostTracker.markAsSeen logger (post_id a) σ).2).
    destruct (markAsSeen_run logger (post_id a) σ) as (Hs & Ht & Ho). fold σa in Hs, Ht, Ho.
    destruct (IH σa) as (Hmarked & Hother & Hkeep & Hout & Hticks).
    split; [|split; [|split; [|split]]].
    + intros p Hp.
      destruct (decide (post_id p ∈ map post_id l)) as [Hin | Hnotin].
      * apply list_elem_of_fmap in Hin as (q & Hq & Hql).
        destruct (Hmarked q Hql) as (n & Hn & Hlook).
        exists n. split; [lia|]. by rewrite Hq.
      * rewrite Hother by done. rewrite Hs.
        apply elem_of_cons in Hp as [-> | Hp'].
        -- exists (ticks σ). split; [lia|]. apply lookup_insert_eq.
        -- exfalso. apply Hnotin. apply list_elem_of_fmap. by exists p.
    + intros postId Hnotin. apply not_elem_of_cons in Hnotin as [Hne Hnotin].
      rewrite Hother by done. rewrite Hs. by apply lookup_insert_ne.
    + intros postId Hin. apply Hkeep. rewrite Hs, lookup_insert.
      case_decide; [by eexists|done].
    + congruence.
    + lia.
Qed.

(** The enrichment and the analysis only write to the console. *)
Lemma writer_enrich (posts : list Post) :
  writer (mapM (fun post =>
            fullContent ← RssService.fetchFullPostContent logger net (post_link post);
            mret (Index.withFullContent post fullContent)) posts).
Proof.
  apply writer_mapM. intros post.
  apply writer_bind; [apply writer_fetchFullPostContent|intros ?; apply writer_ret].
Qed.

Lemma writer_analyze (posts : list Post) :
  writer (if OpenAIService.isEnabled config
          then OpenAIService.analyzeAllPosts config logger net posts
          else mret posts).
Proof. apply writer_if; [apply writer_analyzeAllPosts|apply writer_ret]. Qed.

Lemma notify_run (newPosts batch : list Post) (sent : bool) (σ σ' : World) :
  Index.notify config net newPosts σ = (batch, sent, σ') ->
  batch = batchOf config net newPosts
  ∧ (EmailService.postsToEmail batch = [] -> sent = false ∧ outbox σ' = outbox σ)
  ∧ (EmailService.postsToEmail batch ≠ [] ->
       let e := EmailService.emailParams config (EmailService.postsToEmail batch) in
       sent = match mailerSend_email_send net e with SendOk => true | SendThrows _ _ => false end
       ∧ outbox σ' = outbox σ ++ [e])
  ∧ (sent = false -> seenPosts σ' = seenPosts σ ∧ ticks σ' = ticks σ)
  ∧ (sent = true ->
       (∀ p, p ∈ newPosts -> ∃ n, (ticks σ <= n)%nat ∧ seenPosts σ' !! post_id p = Some (clock n))
       ∧ (∀ postId, postId ∉ map post_id newPosts -> seenPosts σ' !! postId = seenPosts σ !! postId)
       ∧ (∀ postId, is_Some (seenPosts σ !! postId) -> is_Some (seenPosts σ' !! postId))
       ∧ ticks σ' = (ticks σ + length newPosts)%nat).
Proof.
  intros Hrun. unfold Index.notify in Hrun. fold logger in Hrun.
  apply bind_inv in Hrun as ([] & σ0 & Hlog & Hrun).
  apply bind_inv in Hrun as (enrichedPosts & σ1 & Henrich & Hrun).
  apply bind_inv in Hrun as (analyzed & σ2 & Hanalyze & Hrun).
  apply bind_inv in Hrun as (emailSent & σ3 & Hsend & Hrun).
  apply bind_inv in Hrun as ([] & σ4 & Hmark & Hrun).
  rewrite run_ret in Hrun. injection Hrun as <- <- <-.
  destruct (writer_run _ _ _ _ initialWorld (writer_info logger _) Hlog) as (_ & Hs0 & Ht0 & Ho0).
  destruct (writer_run _ _ _ _ initialWorld (writer_enrich newPosts) Henrich)
    as (Henriched & Hs1 & Ht1 & Ho1).
  destruct (writer_run _ _ _ _ initialWorld (writer_analyze enrichedPosts) Hanalyze)
    as (Hanalyzed & Hs2 & Ht2 & Ho2).
  assert (Hbatch : analyzed = batchOf config net newPosts).
  { rewrite Hanalyzed, Henriched. unfold batchOf, OpenAIService.isEnabled.
    rewrite (mapM_value _ _ _ initialWorld)
      by (intros post; apply writer_bind;
          [apply writer_fetchFullPostContent|intros ?; apply writer_ret]).
    assert (Hmap : map (fun a : Post =>
                     ((RssService.fetchFullPostContent logger net (post_link a)
                       ≫= fun fullContent => mret (Index.withFullContent a fullContent))
                        initialWorld).1) newPosts
                   = map (enriched config net) newPosts).
    { apply map_ext. intros post. rewrite run_bind, run_ret. reflexivity. }
    rewrite Hmap.
    destruct (OpenAIService.enabled config) eqn:Hon; [|by rewrite run_ret].
    by rewrite analyzeAllPosts_value. }
  pose proof (sendNotification_tracker config logger net (Some analyzed) σ2) as Htr.
  pose proof (sendNotification_nothing config logger net analyzed σ2) as Hnothing.
  pose proof (sendNotification_attempt config logger net analyzed σ2) as Hattempt.
  rewrite Hsend in Htr, Hnothing, Hattempt. cbn [fst snd] in Htr, Hnothing, Hattempt.
  destruct Htr as [Hs3 Ht3].
  assert (Hs : seenPosts σ3 = seenPosts σ) by congruence.
  assert (Ht : ticks σ3 = ticks σ) by congruence.
  assert (Ho4 : outbox σ4 = outbox σ3).
  { destruct emailSent.
    - pose proof (forEach_markAsSeen newPosts σ3) as (_ & _ & _ & Ho & _).
      fold logger in Hmark. by rewrite Hmark in Ho.
    - rewrite run_ret in Hmark. by injection Hmark as <-. }
  split; [exact Hbatch|]. split; [|split; [|split]].
  - intros Hnone. destruct (Hnothing Hnone) as [-> Ho3]. split; [done|congruence].
  - intros Hsome e. destruct (Hattempt Hsome) as [-> Ho3]. split; [done|]. subst e. congruence.
  - intros ->. rewrite run_ret in Hmark. injection Hmark as <-. done.
  - intros ->. pose proof (forEach_markAsSeen newPosts σ3) as (Hmarked & Hother & Hkeep & _ & Hticks).
    fold logger in Hmark. rewrite Hmark in Hmarked, Hother, Hkeep, Hticks. cbn [snd] in *.
    rewrite Hs, Ht in *. done.
Qed.

(** The whole cycle: what it retrieves, which posts it selects, where
    the notification block and the cleanup start from. *)
Lemma monitorFeeds_run (c : Index.Cycle) (σ σ' : World) :
  Index.monitorFeeds config net σ = (c, σ') ->
  Index.allPosts c = retrieved config net
  ∧ (∀ p, p ∈ Index.newPosts c ->
       p ∈ retrieved config net
       ∧ Js.truthy (post_id p) = true ∧ Js.truthy (post_pubDate p) = true
       ∧ seenPosts σ !! post_id p = None
       ∧ ∃ n, (ticks σ <= n)%nat ∧ freshAt n p window = true)
  ∧ (∀ p, p ∈ retrieved config net ->
       Js.truthy (post_id p) = true -> Js.truthy (post_pubDate p) = true ->
       seenPosts σ !! post_id p = None ->
       (∀ n, (ticks σ <= n)%nat -> freshAt n p window = true) ->
       p ∈ Index.newPosts c)
  ∧ ∃ σ2 σ3,
      seenPosts σ2 = seenPosts σ ∧ outbox σ2 = outbox σ ∧ (ticks σ <= ticks σ2)%nat
      ∧ match Index.newPosts c with
        | [] => Index.analyzedPosts c = None ∧ Index.emailSent c = None
                ∧ seenPosts σ3 = seenPosts σ2 ∧ outbox σ3 = outbox σ2 ∧ ticks σ3 = ticks σ2
        | _ => ∃ batch sent,
                 Index.notify config net (Index.newPosts c) σ2 = (batch, sent, σ3)
                 ∧ Index.analyzedPosts c = Some batch ∧ Index.emailSent c = Some sent
        end
      ∧ seenPosts σ' = seenPosts (PostTracker.cleanup logger σ3).2
      ∧ outbox σ' = outbox σ3
      ∧ ticks σ' = S (ticks σ3).
Proof.
  intros Hrun. unfold Index.monitorFeeds in Hrun. fold logger window in Hrun.
  apply bind_inv in Hrun as ([] & σa & Hlog & Hrun).
  apply bind_inv in Hrun as (feedResults & σb & Hfetch & Hrun). cbv zeta in Hrun.
  apply bind_inv in Hrun as ([] & σ1 & Hlog1 & Hrun).
  apply bind_inv in Hrun as (new & σf & Hfilter & Hrun).
  apply bind_inv in Hrun as ([] & σ2 & Hlog2 & Hrun).
  apply bind_inv in Hrun as (dispatch & σ3 & Hdispatch & Hrun).
  apply bind_inv in Hrun as ([] & σc & Hclean & Hrun).
  apply bind_inv in Hrun as (n & σd & Hcount & Hrun).
  apply bind_inv in Hrun as ([] & σe & Hlog3 & Hrun).
  rewrite run_ret in Hrun. injection Hrun as <- <-. cbn [Index.allPosts Index.newPosts
    Index.analyzedPosts Index.emailSent].
  destruct (writer_run _ _ _ _ initialWorld (writer_info logger _) Hlog) as (_ & Hsa & Hta & Hoa).
  destruct (writer_run _ _ _ _ initialWorld
              (writer_fetchMultipleFeeds logger net _) Hfetch) as (Hresults & Hsb & Htb & Hob).
  rewrite fetchMultipleFeeds_value in Hresults.
  destruct (writer_run _ _ _ _ initialWorld (writer_info logger _) Hlog1) as (_ & Hs1 & Ht1 & Ho1).
  destruct (writer_run _ _ _ _ initialWorld (writer_info logger _) Hlog2) as (_ & Hs2 & Ht2 & Ho2).
  destruct (writer_run _ _ _ _ initialWorld (writer_info logger _) Hlog3) as (_ & Hse & Hte & Hoe).
  unfold PostTracker.getTrackedCount, gets in Hcount. injection Hcount as _ <-.
  assert (Hall : RssService.getAllPosts feedResults = retrieved config net)
    by (by rewrite Hresults).
  rewrite Hall in *.
  pose proof (filterM_isNewPost (retrieved config net) σ1) as Hfil.
  cbv zeta in Hfil. rewrite Hfilter in Hfil. cbn [fst snd] in Hfil.
  destruct Hfil as (Hsf & Hof & Htf & Hsound & Hcomplete).
  assert (Hσ1s : seenPosts σ1 = seenPosts σ) by congruence.
  assert (Hσ1t : ticks σ1 = ticks σ) by congruence.
  rewrite Hσ1s, Hσ1t in *.
  split; [done|]. split; [exact Hsound|]. split; [exact Hcomplete|].
  exists σ2, σ3.
  split; [congruence|]. split; [congruence|]. split; [lia|].
  split.
  - destruct new as [|p new]; cbn [length Nat.ltb Nat.leb] in Hdispatch.
    + rewrite run_ret in Hdispatch. injection Hdispatch as <- <-. done.
    + rewrite run_fmap in Hdispatch. injection Hdispatch as <- <-.
      destruct (Index.notify config net (p :: new) σ2) as [[batch sent] σn] eqn:Hn.
      by exists batch, sent.
  - rewrite Hclean in *. cbn [snd]. rewrite Hse, Hte, Hoe.
    destruct (cleanup_run logger σ3) as (_ & Htc & Hoc). rewrite Hclean in Htc, Hoc. done.
Qed.

End CycleFacts.

(* ===================================================================== *)
(** ** Configuration *)
(* ===================================================================== *)

(** *** The email pattern *)

Lemma append_cons (ch : ascii) (a b : string) : String ch a +:+ b = String ch (a +:+ b).
Proof. reflexivity. Qed.

Lemma append_nil (b : string) : "" +:+ b = b.
Proof. reflexivity. Qed.

Lemma allPlain_append (a b : string) :
  Env.allPlain (a +:+ b) = Env.allPlain a && Env.allPlain b.
Proof.
  induction a as [|ch a IH]; [done|]. rewrite ?append_cons, ?append_nil; cbn [Env.allPlain].
  by rewrite IH, andb_assoc.
Qed.

Lemma spanPlain_inv (s a r : string) :
  Env.spanPlain s = (a, r) -> s = a +:+ r ∧ Env.allPlain a = true.
Proof.
  revert a r. induction s as [|ch s IH]; intros a r; cbn [Env.spanPlain].
  - by intros [= <- <-].
  - destruct (Env.plainChar ch) eqn:Hch.
    + destruct (Env.spanPlain s) as [a' r'] eqn:Hs. intros [= <- <-].
      destruct (IH a' r' eq_refl) as [-> Ha']. rewrite ?append_cons, ?append_nil; cbn [Env.allPlain].
      by rewrite Hch, Ha'.
    + by intros [= <- <-].
Qed.

Lemma spanPlain_append (a r : string) (ch : ascii) :
  Env.allPlain a = true -> Env.plainChar ch = false ->
  Env.spanPlain (a +:+ String ch r) = (a, String ch r).
Proof.
  intros Ha Hch. induction a as [|x a IH]; rewrite ?append_cons, ?append_nil; cbn [Env.spanPlain].
  - by rewrite Hch.
  - cbn [Env.allPlain] in Ha. apply andb_true_iff in Ha as [Hx Ha].
    by rewrite Hx, IH.
Qed.

Lemma dotBeforeEnd_iff (s : string) :
  Env.dotBeforeEnd s = true ↔ ∃ b c, s = b +:+ "." +:+ c ∧ c ≠ "".
Proof.
  induction s as [|ch s IH]; cbn [Env.dotBeforeEnd].
  - split; [discriminate|]. intros (b & c & Heq & _). by destruct b.
  - rewrite orb_true_iff, andb_true_iff, negb_true_iff, IH. split.
    + intros [[Hdot Hrest] | (b & c & -> & Hc)].
      * apply Ascii.eqb_eq in Hdot as ->. apply String.eqb_neq in Hrest.
        by exists "", s.
      * by exists (String ch b), c.
    + intros (b & c & Heq & Hc). destruct b as [|x b]; rewrite ?append_cons, ?append_nil in Heq.
      * injection Heq as -> ->. left. split; [done|]. by apply String.eqb_neq.
      * injection Heq as -> ->. right. by exists b, c.
Qed.

(** X21.  [isValidEmail] accepts exactly the strings of the pattern:
    a non-empty local part, one ["@"], and a domain with a ["."] that
    is neither its first nor its last character, all without white
    space. *)
Lemma isValidEmail_iff (email : string) :
  Env.isValidEmail email = true ↔ emailShape email.
Proof.
  unfold Env.isValidEmail, emailShape. split.
  - destruct (Env.spanPlain email) as [a r] eqn:Hspan.
    apply spanPlain_inv in Hspan as [-> Ha].
    rewrite andb_true_iff, negb_true_iff. intros [Hne Hrest].
    apply String.eqb_neq in Hne.
    destruct r as [|at_ domain]; [discriminate|].
    apply andb_true_iff in Hrest as [Hat Hdomain]. apply Ascii.eqb_eq in Hat as ->.
    destruct domain as [|ch tail]; [discriminate|].
    apply andb_true_iff in Hdomain as [Hplain Hdot].
    apply dotBeforeEnd_iff in Hdot as (b & c & -> & Hc).
    exists a, (String ch b), c. split; [done|]. do 3 (split; [done|]).
    split; [done|].
    change (String ch (b +:+ "." +:+ c)) with (String ch b +:+ "." +:+ c) in Hplain.
    rewrite !allPlain_append in Hplain.
    by apply andb_true_iff in Hplain as [-> [_ ->]%andb_true_iff].
  - intros (a & b & c & -> & Ha & Hb & Hc & Hpa & Hpb & Hpc).
    change (a +:+ "@" +:+ b +:+ "." +:+ c) with (a +:+ String "@" (b +:+ "." +:+ c)).
    rewrite spanPlain_append by done.
    apply String.eqb_neq in Ha. rewrite Ha. cbn [negb andb].
    rewrite Ascii.eqb_refl. cbn [andb].
    destruct b as [|ch b]; [done|]. rewrite (append_cons ch b).
    apply andb_true_iff. split.
    + rewrite <- (append_cons ch b). by rewrite !allPlain_append, Hpb, Hpc.
    + apply dotBeforeEnd_iff. by exists b, c.
Qed.

Lemma requireEnv_Ok env varName value :
  Env.requireEnv env varName = Ok value -> env !! varName = Some value ∧ value ≠ "".
Proof.
  unfold Env.requireEnv. destruct (env !! varName) as [v|]; [|discriminate].
  destruct (String.eqb v "") eqn:Hv; [discriminate|].
  intros [= ->]. split; [done|]. by apply String.eqb_neq.
Qed.

Lemma requireEnv_Throw env varName message :
  Env.requireEnv env varName = Throw message ->
  message = "Missing required environment variable: " +:+ varName.
Proof.
  unfold Env.requireEnv. destruct (env !! varName) as [v|]; [|by intros [= <-]].
  destruct (String.eqb v ""); [by intros [= <-]|discriminate].
Qed.

Lemma requireEnv_missing env varName :
  missing env varName -> ∃ message, Env.requireEnv env varName = Throw message.
Proof. unfold Env.requireEnv. intros [-> | ->]; by eexists. Qed.

(** A configuration object is only produced when every check passed. *)
Lemma config_Ok env promptFile cfg :
  Env.config env promptFile = Ok cfg ->
  (∀ varName, varName ∈ ["MAILERSEND_API_TOKEN"; "FROM_EMAIL"; "TO_EMAIL"; "SUBREDDITS"] ->
     ¬ missing env varName)
  ∧ env !! "FROM_EMAIL" = Some (email_fromEmail cfg)
  ∧ env !! "TO_EMAIL" = Some (email_toEmail cfg)
  ∧ Env.isValidEmail (email_fromEmail cfg) = true
  ∧ Env.isValidEmail (email_toEmail cfg) = true
  ∧ (∃ value, env !! "SUBREDDITS" = Some value
              ∧ monitoring_subreddits cfg = Env.parseSubreddits value)
  ∧ monitoring_subreddits cfg ≠ []
  ∧ monitoring_checkIntervalMinutes cfg = Js.parseInt (Env.getEnv env "CHECK_INTERVAL_MINUTES" "5")
  ∧ monitoring_postAgeMinutes cfg = Js.parseInt (Env.getEnv env "POST_AGE_MINUTES" "5")
  ∧ Js.lt (monitoring_checkIntervalMinutes cfg) (Js.Num 1) = false
  ∧ Js.lt (monitoring_postAgeMinutes cfg) (Js.Num 1) = false.
Proof.
  unfold Env.config.
  destruct (Env.requireEnv env "MAILERSEND_API_TOKEN") as [token|] eqn:Htoken; [|discriminate].
  destruct (Env.requireEnv env "FROM_EMAIL") as [from|] eqn:Hfrom; [|discriminate].
  destruct (Env.requireEnv env "TO_EMAIL") as [to|] eqn:Hto; [|discriminate].
  destruct (Env.requireEnv env "SUBREDDITS") as [subs|] eqn:Hsubs; [|discriminate].
  cbn [mbind Result_bind]. cbv zeta.
  cbn [email_fromEmail email_toEmail monitoring_subreddits
       monitoring_checkIntervalMinutes monitoring_postAgeMinutes].
  destruct (Env.isValidEmail from) eqn:Hvf; [|discriminate].
  destruct (Env.isValidEmail to) eqn:Hvt; [|discriminate]. cbn [negb].
  destruct (length (Env.parseSubreddits subs) =? 0)%nat eqn:Hlen; [discriminate|].
  destruct (Js.lt (Js.parseInt (Env.getEnv env "CHECK_INTERVAL_MINUTES" "5")) (Js.Num 1))
    eqn:Hint; [discriminate|].
  destruct (Js.lt (Js.parseInt (Env.getEnv env "POST_AGE_MINUTES" "5")) (Js.Num 1))
    eqn:Hage; [discriminate|].
  intros [= <-]. cbn.
  apply requireEnv_Ok in Htoken as [Htoken Htoken'], Hfrom as [Hfrom Hfrom'],
      Hto as [Hto Hto'], Hsubs as [Hsubs Hsubs'].
  split.
  { intros varName Hin [Hnone | Hempty];
      repeat (apply elem_of_cons in Hin as [-> | Hin]; [congruence|]);
      by apply elem_of_nil in Hin. }
  do 4 (split; [done|]). split; [by exists subs|].
  split; [|done].
  intros Hnil. rewrite Hnil in Hlen. discriminate.
Qed.

(** Whatever it throws is one of the messages of the module. *)
Lemma config_Throw env promptFile message :
  Env.config env promptFile = Throw message -> descriptive message.
Proof.
  unfold Env.config, descriptive.
  destruct (Env.requireEnv env "MAILERSEND_API_TOKEN") as [token|m] eqn:Htoken.
  2:{ intros [= <-]. left. eexists. split; [|by eapply requireEnv_Throw].
      set_solver. }
  destruct (Env.requireEnv env "FROM_EMAIL") as [from|m] eqn:Hfrom.
  2:{ intros [= <-]. left. eexists. split; [|by eapply requireEnv_Throw].
      set_solver. }
  destruct (Env.requireEnv env "TO_EMAIL") as [to|m] eqn:Hto.
  2:{ intros [= <-]. left. eexists. split; [|by eapply requireEnv_Throw].
      set_solver. }
  destruct (Env.requireEnv env "SUBREDDITS") as [subs|m] eqn:Hsubs.
  2:{ intros [= <-]. left. eexists. split; [|by eapply requireEnv_Throw].
      set_solver. }
  cbn [mbind Result_bind]. cbv zeta.
  cbn [email_fromEmail email_toEmail monitoring_subreddits
       monitoring_checkIntervalMinutes monitoring_postAgeMinutes].
  destruct (negb (Env.isValidEmail from)); [intros [= <-]; right; left; by eexists|].
  destruct (negb (Env.isValidEmail to)); [intros [= <-]; do 2 right; left; by eexists|].
  destruct (length (Env.parseSubreddits subs) =? 0)%nat; [intros [= <-]; tauto|].
  destruct (Js.lt _ _); [intros [= <-]; tauto|].
  destruct (Js.lt _ _); [intros [= <-]; tauto|].
  discriminate.
Qed.

Section ConfigProperties.
Context `{Host}.

(** C9.  Loading the configuration throws, with one of the messages of
    the module, whenever a required variable is missing, the sender or
    the recipient address does not have the shape of an email address,
    the list of sources is empty, or the polling period or the
    freshness window is a number below 1; the entry module then aborts
    before anything is scheduled. *)
Theorem invalid_configuration_aborts (env : gmap string string)
    (promptFile : option string) (net : Network) :
  (∃ varName, varName ∈ ["MAILERSEND_API_TOKEN"; "FROM_EMAIL"; "TO_EMAIL"; "SUBREDDITS"]
              ∧ missing env varName)
  ∨ (∃ address, env !! "FROM_EMAIL" = Some address ∧ Env.isValidEmail address = false)
  ∨ (∃ address, env !! "TO_EMAIL" = Some address ∧ Env.isValidEmail address = false)
  ∨ (∃ value, env !! "SUBREDDITS" = Some value ∧ Env.parseSubreddits value = [])
  ∨ (∃ n, Js.parseInt (Env.getEnv env "CHECK_INTERVAL_MINUTES" "5") = Js.Num n ∧ n < 1)
  ∨ (∃ n, Js.parseInt (Env.getEnv env "POST_AGE_MINUTES" "5") = Js.Num n ∧ n < 1) ->
  ∃ message,
    Env.config env promptFile = Throw message
    ∧ descriptive message
    ∧ Index.main env promptFile net = Index.Aborted message.
Proof.
  intros Hbad.
  destruct (Env.config env promptFile) as [cfg|message] eqn:Hcfg.
  - exfalso. apply config_Ok in Hcfg
      as (Hreq & Hfrom & Hto & Hvf & Hvt & (subs & Hsubs & Hparse) & Hne & Hi & Ha & Hint & Hage).
    destruct Hbad as [(v & Hin & Hmiss) | [(a & Ha' & Hinv) | [(a & Ha' & Hinv)
      | [(v & Hv & Hnil) | [(n & Hn & Hlt) | (n & Hn & Hlt)]]]]].
    + by apply (Hreq v).
    + congruence.
    + congruence.
    + apply Hne. congruence.
    + rewrite Hi, Hn in Hint. cbn in Hint. apply Z.ltb_ge in Hint. lia.
    + rewrite Ha, Hn in Hage. cbn in Hage. apply Z.ltb_ge in Hage. lia.
  - exists message. split; [done|]. split; [by eapply config_Throw|].
    unfold Index.main. by rewrite Hcfg.
Qed.

End ConfigProperties.

(* ===================================================================== *)
(** ** The cycle and the notifier *)
(* ===================================================================== *)

Section CycleProperties.
Context `{Host}.
Variable config : Config.

Let logger := Index.logger config.
Let window := monitoring_postAgeMinutes config.

(** Posts come out of the feeds without a decision. *)
Lemma retrieved_undecided net p :
  p ∈ retrieved config net -> post_shouldReply p = None.
Proof.
  unfold retrieved, RssService.getAllPosts. intros Hp.
  apply list_elem_of_In, in_flat_map in Hp as (r & Hr & Hp).
  apply filter_In in Hr as [Hr _]. apply in_map_iff in Hr as (s & <- & _).
  rewrite fetchFeed_value in Hp.
  destruct (parseURL net _); cbn in Hp; [done|].
  apply in_map_iff in Hp as (item & <- & _). reflexivity.
Qed.

Lemma enriched_baseline net p : baseline (enriched config net p) = baseline p.
Proof. reflexivity. Qed.

Lemma enriched_shouldReply net p :
  post_shouldReply (enriched config net p) = post_shouldReply p.
Proof. reflexivity. Qed.

Lemma analysed_baseline net p : baseline (analysed config net p) = baseline p.
Proof. apply analyzeOne_baseline. Qed.


(** When it is off, the batch carries no decision at all. *)
Lemma batchOf_undecided net newPosts q :
  OpenAIService.enabled config = false ->
  (∀ p, p ∈ newPosts -> post_shouldReply p = None) ->
  q ∈ batchOf config net newPosts -> post_shouldReply q = None.
Proof.
  intros Hoff Hnone. unfold batchOf. rewrite Hoff. cbv zeta.
  intros Hq. apply list_elem_of_fmap in Hq as (p & -> & Hp).
  rewrite enriched_shouldReply. by apply Hnone.
Qed.




(** A successful dispatch marks every post of the batch under the
    identifier it came with, whatever the annotation decided. *)
Lemma successful_dispatch_marks_all net newPosts batch σ σ' :
  Index.notify config net newPosts σ = (batch, true, σ') ->
  ∀ p, p ∈ newPosts -> is_Some (seenPosts σ' !! post_id p).
Proof.
  intros Hnotify p Hp.
  destruct (notify_run config net _ _ _ _ _ Hnotify) as (_ & _ & _ & _ & Hsent).
  destruct (Hsent eq_refl) as (Hmarked & _).
  destruct (Hmarked p Hp) as (n & _ & ->). by eexists.
Qed.



End CycleProperties.

Section SourceProperties.
Context `{Host}.
Variable config : Config.

Let logger := Index.logger config.

Lemma batchOf_baseline net newPosts :
  map baseline (batchOf config net newPosts) = map baseline newPosts.
Proof.
  unfold batchOf. cbv zeta.
  destruct (OpenAIService.enabled config); rewrite ?map_map; apply map_ext; intros p.
  - by rewrite analysed_baseline.
  - reflexivity.
Qed.

Lemma postsToEmail_undecided (posts : list Post) :
  (∀ q, q ∈ posts -> post_shouldReply q = None) ->
  EmailService.postsToEmail posts = posts.
Proof.
  induction posts as [|p posts IH]; intros Hnone; [done|].
  unfold EmailService.postsToEmail in *. cbn [List.filter].
  rewrite (Hnone p) by (by left). rewrite bool_decide_eq_false_2 by done. cbn [negb].
  f_equal. apply IH. intros q Hq. apply Hnone. by right.
Qed.

(** What a cycle retrieves, in terms of what the sources answered. *)
Lemma retrieved_concat net :
  retrieved config net =
  concat (map (fun s => match parseURL net (RssService.feedUrl s) with
                        | ParseFeed items => map (RssService.postOfItem s) items
                        | ParseRejects _ => []
                        end) (monitoring_subreddits config)).
Proof.
  unfold retrieved, RssService.getAllPosts.
  induction (monitoring_subreddits config) as [|s subs IH]; [done|].
  cbn [map List.filter]. rewrite fetchFeed_value.
  destruct (parseURL net (RssService.feedUrl s)); cbn [RssService.success].
  - exact IH.
  - cbn [flat_map concat RssService.posts]. by rewrite IH.
Qed.

(** C8.  [fetchFeed] turns a failure of the parser into a result with
    [success: false] and no posts instead of throwing, and
    [getAllPosts] is the concatenation of the posts of the successful
    results; a cycle therefore works on exactly the posts of the sources
    that answered.  With two sources of which one fails, the cycle
    retrieves the posts of the other one, hands a batch with an entry
    for every new post among them to the notifier, and one email with
    the posts that pass the notifier's filter is handed to the mail
    provider (all of them when the annotation feature is off). *)
Theorem failing_source_is_isolated (net : Network) :
  (∀ subreddit message σ,
     parseURL net (RssService.feedUrl subreddit) = ParseRejects message ->
     (RssService.fetchFeed logger net subreddit σ).1 =
       {| RssService.success := false; RssService.subreddit := subreddit;
          RssService.error := Some message; RssService.posts := [] |})
  ∧ (∀ feedResults,
       RssService.getAllPosts feedResults =
       concat (map RssService.posts (List.filter RssService.success feedResults)))
  ∧ (∀ σ c σ',
       Index.monitorFeeds config net σ = (c, σ') ->
       Index.allPosts c =
         concat (map (fun s => match parseURL net (RssService.feedUrl s) with
                               | ParseFeed items => map (RssService.postOfItem s) items
                               | ParseRejects _ => []
                               end) (monitoring_subreddits config))
       ∧ (∀ down up message items,
            (monitoring_subreddits config = [down; up]
             ∨ monitoring_subreddits config = [up; down]) ->
            parseURL net (RssService.feedUrl down) = ParseRejects message ->
            parseURL net (RssService.feedUrl up) = ParseFeed items ->
            Index.allPosts c = map (RssService.postOfItem up) items)
       ∧ (Index.newPosts c ≠ [] ->
          ∃ batch sent,
            Index.analyzedPosts c = Some batch ∧ Index.emailSent c = Some sent
            ∧ map baseline batch = map baseline (Index.newPosts c)
            ∧ (OpenAIService.enabled config = false -> EmailService.postsToEmail batch = batch)
            ∧ (EmailService.postsToEmail batch ≠ [] ->
               outbox σ' = outbox σ
                           ++ [EmailService.emailParams config (EmailService.postsToEmail batch)]))).
Proof.
  split; [|split].
  - intros subreddit message σ Hfail. by rewrite fetchFeed_value, Hfail.
  - intros feedResults. unfold RssService.getAllPosts. apply flat_map_concat_map.
  - intros σ c σ' Hrun.
    destruct (monitorFeeds_run config net c σ σ' Hrun)
      as (Hall & Hsound & _ & σ2 & σ3 & _ & Ho2 & _ & Hdispatch & _ & Ho' & _).
    rewrite retrieved_concat in Hall.
    split; [exact Hall|]. split.
    + intros down up message items Hsubs Hdown Hup. rewrite Hall.
      destruct Hsubs as [-> | ->]; cbn [map concat]; rewrite Hdown, Hup; cbn [app].
      * apply app_nil_r.
      * apply app_nil_r.
    + intros Hnew.
      destruct (Index.newPosts c) as [|p new] eqn:Hnews; [done|].
      destruct Hdispatch as (batch & sent & Hnotify & Hbatch & Hsent).
      destruct (notify_run config net _ _ _ _ _ Hnotify) as (Hbatchof & _ & Hattempt & _).
      exists batch, sent. split; [done|]. split; [done|].
      split; [rewrite Hbatchof; apply batchOf_baseline|]. split.
      * intros Hoff. apply postsToEmail_undecided. intros q Hq.
        rewrite Hbatchof in Hq. apply (batchOf_undecided config net (p :: new) q Hoff); [|done].
        intros p' Hp'. apply (retrieved_undecided config net). by apply Hsound.
      * intros Hsome. destruct (Hattempt Hsome) as [_ Ho3]. congruence.
Qed.

End SourceProperties.

(* ===================================================================== *)
(** ** Suppressed posts and failed annotations in the notification *)
(* ===================================================================== *)

(** The payload is computed from the posts that pass the filter, and no
    suppressed post passes it. *)
Lemma postsToEmail_not_suppressed (posts : list Post) (p : Post) :
  p ∈ EmailService.postsToEmail posts -> p ∈ posts ∧ post_shouldReply p ≠ Some false.
Proof.
  unfold EmailService.postsToEmail. intros Hp.
  apply list_elem_of_In, filter_In in Hp as [Hin Hkeep].
  split; [by apply list_elem_of_In|].
  by apply negb_true_iff, bool_decide_eq_false in Hkeep.
Qed.

(** A post whose annotation call fails is suppressed like one the
    annotation decided to skip. *)
Lemma failed_annotation_is_suppressed `{Host} (config : Config) (net : Network)
    (newPosts : list Post) (p : Post) :
  OpenAIService.enabled config = true ->
  p ∈ newPosts ->
  annotationFails config net (enriched config net p) = true ->
  let q := analysed config net (enriched config net p) in
  q ∈ batchOf config net newPosts
  ∧ baseline q = baseline p
  ∧ post_shouldReply q = Some false
  ∧ q ∉ EmailService.postsToEmail (batchOf config net newPosts).
Proof.
  intros Hon Hp Hfail q.
  assert (Hq : post_shouldReply q = Some false)
    by (by apply analyzeOne_failure).
  split; [|split; [|split]].
  - unfold batchOf. rewrite Hon. apply list_elem_of_fmap. eexists. split; [done|].
    apply list_elem_of_fmap. by exists p.
  - subst q. by rewrite analysed_baseline.
  - exact Hq.
  - intros Hin. by apply postsToEmail_not_suppressed in Hin as [_ Hne].
Qed.

(** C2 (the code departs from the specification).  The cycle finds a1 and a2
    new; the annotation wants a reply to a1 and suppresses a2; the
    provider accepts the email.  Both posts are marked as seen, but the
    only email handed to the provider lists a1 alone: a2 is not in it,
    neither as a skipped entry nor otherwise. *)
Theorem suppressed_post_is_dropped_from_email :
  let c := Fixture.cycleSkip.1 in
  let σ' := Fixture.cycleSkip.2 in
  map post_id (Index.newPosts c) = [Some "a1"; Some "a2"]
  ∧ (map (fun q => (post_id q, post_shouldReply q)) <$> Index.analyzedPosts c)
    = Some [(Some "a1", Some true); (Some "a2", Some false)]
  ∧ Index.emailSent c = Some true
  ∧ dom (seenPosts σ') = {[Some "a1"; Some "a2"]}
  ∧ length (outbox σ') = 1%nat
  ∧ map email_subject (outbox σ') = ["[dev] New Reddit post from r/bass"]
  ∧ map (fun e => String.index 0 "First post" (email_text e)) (outbox σ') = [Some 39%nat]
  ∧ map (fun e => String.index 0 "Second post" (email_text e)) (outbox σ') = [None]
  ∧ map (fun e => String.index 0 "SKIP" (email_text e)) (outbox σ') = [None].
Proof. cbv zeta. by vm_compute. Qed.

(** C3 (the code departs from the specification).  The cycle finds a1 new and
    the completion API answers with an error.  The cycle runs to its
    end, and the post keeps its baseline content in the batch, but the
    failure is recorded as a decision to skip: no email is handed to the
    provider, and a1 is not marked as seen. *)
Theorem failed_annotation_is_not_delivered :
  let c := Fixture.cycleDown.1 in
  let σ' := Fixture.cycleDown.2 in
  map post_id (Index.newPosts c) = [Some "a1"]
  ∧ (map (fun q => (baseline q, post_shouldReply q, post_aiReply q, post_skipReason q))
       <$> Index.analyzedPosts c)
    = Some [(baseline Fixture.post1, Some false, None, Some "OpenAI API error")]
  ∧ Index.emailSent c = Some false
  ∧ outbox σ' = []
  ∧ seenPosts σ' = ∅
  ∧ last (console σ') = Some (LInfo, "Check complete. Tracking 0 posts in memory.").
Proof. cbv zeta. by vm_compute. Qed.

(* ===================================================================== *)
(** ** The statements at work on the fixtures *)
(* ===================================================================== *)

Lemma isWithinTimeWindow_iff_witness :
  (@DateUtils.isWithinTimeWindow Fixture.now0
     (Some "2026-11-02T08:58:00.000Z") (Js.Num 5) initialWorld).1 = true
  ∧ (@DateUtils.isWithinTimeWindow Fixture.now0
       (Some "2026-11-02T09:10:00.000Z") (Js.Num 5) initialWorld).1 = false
  ∧ (@DateUtils.isWithinTimeWindow Fixture.now0
       (Some "yesterday") (Js.Num 5) initialWorld).1 = false.
Proof.
  split; [|split].
  - apply (@isWithinTimeWindow_iff Fixture.now0 (Some "2026-11-02T08:58:00.000Z") 5 initialWorld).
    exists (Fixture.t0 - 2 * Fixture.minute). split; [reflexivity|].
    vm_compute. split; discriminate.
  - apply (proj1 (proj2 (@isWithinTimeWindow_iff Fixture.now0
                           (Some "2026-11-02T09:10:00.000Z") 5 initialWorld))
             (Fixture.t0 + 10 * Fixture.minute)); reflexivity.
  - apply (proj2 (proj2 (@isWithinTimeWindow_iff Fixture.now0
                           (Some "yesterday") 5 initialWorld))).
    reflexivity.
Defined.

Lemma isNewPost_spec_witness :
  (@PostTracker.isNewPost Fixture.now0 (Logger.new "info") Fixture.postWithoutId
     (Js.Num 5) initialWorld).1 = false
  ∧ console (@PostTracker.isNewPost Fixture.now0 (Logger.new "info") Fixture.postWithoutId
               (Js.Num 5) initialWorld).2 = [(LError, "Invalid post object:")]
  ∧ (@PostTracker.isNewPost Fixture.now0 (Logger.new "info") Fixture.post1
       (Js.Num 5) initialWorld).1 = true.
Proof.
  destruct (@isNewPost_spec Fixture.now0 (Logger.new "info") Fixture.postWithoutId
              (Js.Num 5) initialWorld) as (Hbad & _ & _).
  destruct (Hbad (or_introl eq_refl)) as [Hr Hprint].
  destruct (@isNewPost_spec Fixture.now0 (Logger.new "info") Fixture.post1
              (Js.Num 5) initialWorld) as (_ & Hgood & _).
  split; [|split].
  - rewrite Hr. reflexivity.
  - apply (Hprint "info"); reflexivity.
  - apply (Hgood eq_refl eq_refl). split; reflexivity.
Defined.

Lemma isNewPost_false_after_markAsSeen_witness :
  (@PostTracker.isNewPost Fixture.now0 (Logger.new "info") Fixture.post1 (Js.Num 5)
     (forEach (@call Fixture.now0 (Logger.new "info")) Fixture.laterCalls
        (@PostTracker.markAsSeen Fixture.now0 (Logger.new "info") (Some "a1")
           initialWorld).2).2).1 = false.
Proof.
  apply (@isNewPost_false_after_markAsSeen Fixture.now0 (Logger.new "info") (Some "a1")
           initialWorld Fixture.laterCalls Fixture.post1 (Js.Num 5)).
  - reflexivity.
  - vm_compute. reflexivity.
Defined.

Lemma cleanup_spec_witness :
  seenPosts (@PostTracker.cleanup (Fixture.host (Fixture.frozen (Fixture.t0 + 61 * 60000)))
               (Logger.new "info") Fixture.sawA1).2 = ∅
  ∧ seenPosts (@PostTracker.cleanup (Fixture.host (Fixture.frozen (Fixture.t0 + 59 * 60000)))
                 (Logger.new "info") Fixture.sawA1).2 = {[Some "a1" := Fixture.t0]}.
Proof.
  split.
  - destruct (@cleanup_spec (Fixture.host (Fixture.frozen (Fixture.t0 + 61 * 60000)))
                (Logger.new "info") Fixture.sawA1) as (_ & _ & _ & _ & Hscenario).
    apply (Hscenario (Some "a1") Fixture.t0); reflexivity.
  - destruct (@cleanup_spec (Fixture.host (Fixture.frozen (Fixture.t0 + 59 * 60000)))
                (Logger.new "info") Fixture.sawA1) as (_ & _ & _ & _ & Hscenario).
    apply (Hscenario (Some "a1") Fixture.t0); reflexivity.
Defined.

Lemma invalid_configuration_aborts_witness :
  (∃ message,
     Env.config Fixture.envNoRecipient None = Throw message
     ∧ descriptive message
     ∧ @Index.main Fixture.now0 Fixture.envNoRecipient None
         (Fixture.net [] Fixture.chat SendOk) = Index.Aborted message)
  ∧ (∃ message,
       Env.config Fixture.envHalfMinute None = Throw message
       ∧ descriptive message
       ∧ @Index.main Fixture.now0 Fixture.envHalfMinute None
           (Fixture.net [] Fixture.chat SendOk) = Index.Aborted message).
Proof.
  split.
  - apply (@invalid_configuration_aborts Fixture.now0 Fixture.envNoRecipient None).
    left. exists "TO_EMAIL". split; [repeat constructor|]. left. reflexivity.
  - apply (@invalid_configuration_aborts Fixture.now0 Fixture.envHalfMinute None).
    do 4 right. left. exists 0. split; [reflexivity|lia].
Defined.



Lemma failing_source_is_isolated_witness :
  Index.allPosts Fixture.cycleOneSourceDown.1
  = map (RssService.postOfItem "bass") [Fixture.a1; Fixture.a2; Fixture.future]
  ∧ ∃ batch,
      Index.analyzedPosts Fixture.cycleOneSourceDown.1 = Some batch
      ∧ map baseline batch = map baseline (Index.newPosts Fixture.cycleOneSourceDown.1)
      ∧ outbox Fixture.cycleOneSourceDown.2 = [EmailService.emailParams Fixture.cfg batch].
Proof.
  destruct (@failing_source_is_isolated Fixture.now0 Fixture.cfg
              (Fixture.net [Fixture.a1; Fixture.a2; Fixture.future] Fixture.chat SendOk))
    as (_ & _ & Hcycle).
  destruct (Hcycle initialWorld Fixture.cycleOneSourceDown.1 Fixture.cycleOneSourceDown.2
              (surjective_pairing _)) as (_ & Htwo & Hnotify).
  split.
  - apply (Htwo "guitar" "bass" "Status code 429"); [left|..]; reflexivity.
  - destruct Hnotify as (batch & sent & Hbatch & _ & Hbase & Hall & Hout).
    { vm_compute. discriminate. }
    exists batch. split; [exact Hbatch|]. split; [exact Hbase|].
    rewrite (Hall eq_refl) in Hout. apply Hout.
    intros ->. vm_compute in Hbatch. discriminate.
Defined.

(* ===================================================================== *)
(** ** Further properties: the logger *)
(* ===================================================================== *)

(** The level the constructor stores is that of [info], that of
    [error], or not a number. *)
Lemma Logger_new_cases lvl :
  Logger.level (Logger.new lvl) = Js.Num 1
  ∨ Logger.level (Logger.new lvl) = Js.Num 2
  ∨ Logger.level (Logger.new lvl) = Js.NaN.
Proof.
  unfold Logger.new, Logger.LOG_LEVELS. cbn [Logger.level].
  repeat (destruct (String.eqb lvl _); cbn; auto).
  destruct (Logger.inherited lvl); auto.
Qed.

(** X1.  The level [0] of ['debug'] is falsy, so the constructor
    replaces it by the level of ['info']: a logger built for ['debug']
    is the logger built for ['info'], and no logger the constructor
    builds ever prints a debug line. *)
Theorem logger_debug_never_prints :
  Logger.new "debug" = Logger.new "info"
  ∧ ∀ lvl msg σ, Logger.debug (Logger.new lvl) msg σ = (tt, σ).
Proof.
  split; [reflexivity|]. intros lvl msg σ. unfold Logger.debug.
  by destruct (Logger_new_cases lvl) as [-> | [-> | ->]].
Qed.

(** X2.  A logger built for ['error'] prints errors and drops info
    lines; a logger built for any other level name that is not an
    inherited property name (['info'], ['debug'], a misspelt or unknown
    name) prints both. *)
Theorem logger_thresholds :
  (∀ msg σ, Logger.info (Logger.new "error") msg σ = (tt, σ)
            ∧ Logger.error (Logger.new "error") msg σ = (tt, logged [(LError, msg)] σ))
  ∧ (∀ lvl msg σ, Logger.inherited lvl = false -> lvl ≠ "error" ->
       Logger.info (Logger.new lvl) msg σ = (tt, logged [(LInfo, msg)] σ)
       ∧ Logger.error (Logger.new lvl) msg σ = (tt, logged [(LError, msg)] σ)).
Proof.
  split; [intros msg σ; split; reflexivity|]. intros lvl msg σ Hin Hne.
  assert (Hlevel : Logger.level (Logger.new lvl) = Js.Num 1).
  { unfold Logger.new, Logger.LOG_LEVELS. cbn [Logger.level].
    destruct (String.eqb lvl "debug"); [done|].
    destruct (String.eqb lvl "info"); [done|].
    destruct (String.eqb lvl "error") eqn:Herr; [by apply String.eqb_eq in Herr|].
    by rewrite Hin. }
  unfold Logger.info, Logger.error. by rewrite Hlevel.
Qed.

(* ===================================================================== *)
(** ** Further properties: dates *)
(* ===================================================================== *)

Section DateProperties.
Context `{Host}.

(** X3.  At one reading of the clock the freshness filter is monotone
    in the window: what is fresh for [w] minutes is fresh for every
    longer window.  For a negative window and for a window that is not
    a number nothing is fresh. *)
Theorem isWithinTimeWindow_window (postDate : option string) (σ : World) :
  (∀ w w', w <= w' ->
     (DateUtils.isWithinTimeWindow postDate (Js.Num w) σ).1 = true ->
     (DateUtils.isWithinTimeWindow postDate (Js.Num w') σ).1 = true)
  ∧ (∀ w, w < 0 -> (DateUtils.isWithinTimeWindow postDate (Js.Num w) σ).1 = false)
  ∧ (DateUtils.isWithinTimeWindow postDate Js.NaN σ).1 = false.
Proof.
  split; [|split].
  - intros w w' Hle. rewrite !isWithinTimeWindow_run. cbn [fst].
    destruct (Date_getTime postDate) as [|t]; [done|].
    cbn [Js.sub Js.ge Js.le Js.mul]. rewrite !andb_true_iff, !Z.leb_le. lia.
  - intros w Hneg. rewrite isWithinTimeWindow_run. cbn [fst].
    destruct (Date_getTime postDate) as [|t]; [done|].
    cbn [Js.sub Js.ge Js.le Js.mul]. apply andb_false_iff.
    destruct (0 <=? clock (ticks σ) - t) eqn:Hage; [right|by left].
    apply Z.leb_le in Hage. apply Z.leb_gt. lia.
  - rewrite isWithinTimeWindow_run. cbn [fst].
    destruct (Js.sub _ _); cbn; [done|apply andb_false_r].
Qed.

Lemma getAgeInMinutes_run postDate σ :
  (DateUtils.getAgeInMinutes postDate σ).1 =
  match Date_getTime postDate with
  | Js.Num t => Js.Num ((clock (ticks σ) - t) / 60000)
  | Js.NaN => Js.NaN
  end.
Proof.
  unfold DateUtils.getAgeInMinutes. rewrite run_bind. unfold Date_now. cbn [fst snd].
  rewrite run_ret. cbn [fst]. by destruct (Date_getTime postDate).
Qed.

(** X4.  [getAgeInMinutes] and [isWithinTimeWindow] agree when they read
    the same instant: the age is not a number exactly for an invalid
    date; a post within a window of [w] minutes has an age between 0
    and [w] minutes; and a post whose age in whole minutes is at least
    0 and below [w] is within the window. *)
Theorem getAgeInMinutes_agrees (postDate : option string) (w : Z) (σ : World) :
  let age := (DateUtils.getAgeInMinutes postDate σ).1 in
  let fresh := (DateUtils.isWithinTimeWindow postDate (Js.Num w) σ).1 in
  (age = Js.NaN ↔ DateUtils.toTimestamp postDate = Js.NaN)
  ∧ (fresh = true -> ∃ a, age = Js.Num a ∧ 0 <= a <= w)
  ∧ (∀ a, age = Js.Num a -> 0 <= a < w -> fresh = true).
Proof.
  cbv zeta. rewrite getAgeInMinutes_run, isWithinTimeWindow_run. cbn [fst].
  unfold DateUtils.toTimestamp.
  destruct (Date_getTime postDate) as [|t]; cbn [Js.sub Js.ge Js.le Js.mul].
  - split; [done|]. split; [done|]. intros a [=].
  - split; [split; discriminate|]. split.
    + rewrite andb_true_iff, !Z.leb_le. intros [Hlo Hhi].
      eexists. split; [reflexivity|]. split.
      * apply Z.div_pos; lia.
      * apply Z.div_le_upper_bound; lia.
    + intros a [= <-] [Hlo Hhi]. rewrite andb_true_iff, !Z.leb_le.
      pose proof (Z.div_mod (clock (ticks σ) - t) 60000 ltac:(lia)) as Hdm.
      pose proof (Z.mod_pos_bound (clock (ticks σ) - t) 60000 ltac:(lia)) as Hmod.
      lia.
Qed.

End DateProperties.

(* ===================================================================== *)
(** ** Further properties: the tracker *)
(* ===================================================================== *)

Section TrackerAccounting.
Context `{Host}.
Variable logger : Logger.t.

(** X5.  [markAsSeen] records the identifier with the instant of the
    call and touches no other record.  The tracked count grows by one
    for an identifier that was not tracked and stays the same for one
    that was: marking again only refreshes the timestamp. *)
Theorem markAsSeen_count (postId : option string) (σ : World) :
  let σ' := (PostTracker.markAsSeen logger postId σ).2 in
  seenPosts σ' !! postId = Some (clock (ticks σ))
  ∧ (∀ other, other ≠ postId -> seenPosts σ' !! other = seenPosts σ !! other)
  ∧ (seenPosts σ !! postId = None ->
       (PostTracker.getTrackedCount σ').1 = S (PostTracker.getTrackedCount σ).1)
  ∧ (is_Some (seenPosts σ !! postId) ->
       (PostTracker.getTrackedCount σ').1 = (PostTracker.getTrackedCount σ).1).
Proof.
  cbv zeta. destruct (markAsSeen_run logger postId σ) as (Hs & _ & _).
  unfold PostTracker.getTrackedCount, gets. cbn [fst]. rewrite Hs.
  split; [apply lookup_insert_eq|]. split; [|split].
  - intros other Hne. by apply lookup_insert_ne.
  - intros Hnone. by apply map_size_insert_None.
  - intros Hsome. by apply map_size_insert_Some.
Qed.

(** The counter of the loop of [cleanup] and the size of the map add up
    to what they were, as long as the entries still to visit are entries
    of the map with distinct keys. *)
Lemma cleanup_fold_count now l acc :
  NoDup l.*1 ->
  (∀ k ts, (k, ts) ∈ l -> acc.1 !! k = Some ts) ->
  (size (foldl (PostTracker.cleanup_step now) acc l).1
   + (foldl (PostTracker.cleanup_step now) acc l).2 = size acc.1 + acc.2)%nat.
Proof.
  revert acc. induction l as [|[k ts] l IH]; intros acc Hnodup Hin; [done|].
  cbn [foldl]. cbn [fmap list_fmap fst] in Hnodup. apply NoDup_cons in Hnodup as [Hk Hnodup].
  assert (Hhere : acc.1 !! k = Some ts) by (apply Hin; by left).
  rewrite IH; [|done|].
  - unfold PostTracker.cleanup_step. cbn [fst snd].
    destruct (PostTracker.MAX_AGE_MS <? now - ts); [|done]. cbn [fst snd].
    pose proof (map_size_delete_Some k acc.1 ltac:(by eexists)) as Hsize.
    assert (size acc.1 ≠ 0%nat).
    { apply map_size_non_empty_iff. intros Hempty. by rewrite Hempty, lookup_empty in Hhere. }
    lia.
  - intros k' ts' Hin'. unfold PostTracker.cleanup_step. cbn [fst snd].
    assert (Hne : k ≠ k').
    { intros <-. apply Hk. apply list_elem_of_fmap. by exists (k, ts'). }
    destruct (PostTracker.MAX_AGE_MS <? now - ts); cbn [fst].
    + rewrite lookup_delete_ne by done. apply Hin. by right.
    + apply Hin. by right.
Qed.

Lemma cleanup_state σ :
  let r := foldl (PostTracker.cleanup_step (clock (ticks σ))) (seenPosts σ, 0%nat)
             (map_to_list (seenPosts σ)) in
  (PostTracker.cleanup logger σ).2 =
  ((if (0 <? r.2)%nat then
      Logger.info logger ("Cleaned up " +:+ Js.ofNat r.2 +:+
                          " old posts from memory (remaining: " +:+
                          Js.ofNat (size r.1) +:+ ")")
    else mret tt) (set_seenPosts r.1 (set_ticks (S (ticks σ)) σ))).2.
Proof.
  cbv zeta. unfold PostTracker.cleanup.
  rewrite run_bind. unfold Date_now. cbn [fst snd].
  rewrite run_bind. unfold gets. cbn [fst snd seenPosts set_ticks].
  destruct (foldl _ _ _) as [seen' removed].
  rewrite run_bind. unfold modify. cbn [fst snd]. reflexivity.
Qed.

(** X6.  [cleanup] never adds a record, and its counter is the number
    of records it removed: when nothing was stale it prints nothing,
    and otherwise the one line it prints (for a logger that lets info
    lines through) names the number removed and the number that
    remain. *)
Theorem cleanup_accounting (σ : World) :
  let σ' := (PostTracker.cleanup logger σ).2 in
  let removed := (size (seenPosts σ) - size (seenPosts σ'))%nat in
  (size (seenPosts σ') <= size (seenPosts σ))%nat
  ∧ (removed = 0%nat -> console σ' = console σ)
  ∧ (removed ≠ 0%nat -> Js.le (Logger.level logger) (Js.Num 1) = true ->
       console σ' = console σ ++
         [(LInfo, "Cleaned up " +:+ Js.ofNat removed +:+
                  " old posts from memory (remaining: " +:+
                  Js.ofNat (size (seenPosts σ')) +:+ ")")]).
Proof.
  cbv zeta.
  pose proof (cleanup_fold_count (clock (ticks σ)) (map_to_list (seenPosts σ))
                (seenPosts σ, 0%nat) (NoDup_fst_map_to_list _)
                ltac:(intros k ts Hin; by apply elem_of_map_to_list in Hin)) as Hcount.
  destruct (cleanup_run logger σ) as (Hs & _).
  rewrite Hs. rewrite cleanup_state. cbv zeta. cbn [fst snd] in Hcount.
  destruct (foldl _ _ _) as [seen' removed]. cbn [fst snd] in *.
  assert (Hremoved : (size (seenPosts σ) - size seen')%nat = removed) by lia.
  rewrite Hremoved. split; [lia|]. split.
  - intros ->. reflexivity.
  - intros Hne Hinfo. destruct removed as [|n]; [done|]. cbn [Nat.ltb Nat.leb].
    unfold Logger.info. rewrite Hinfo. reflexivity.
Qed.

(** X7.  The retention horizon is one hour whatever the freshness
    window is: once a cleanup runs more than an hour after the
    marking, a post with the marked identifier that is still fresh for
    the window is new again. *)
Theorem evicted_post_is_new_again (post : Post) (w : Js.number) (σ : World) :
  let σ1 := (PostTracker.markAsSeen logger (post_id post) σ).2 in
  let σ2 := (PostTracker.cleanup logger σ1).2 in
  PostTracker.MAX_AGE_MS < clock (ticks σ1) - clock (ticks σ) ->
  Js.truthy (post_id post) = true ->
  Js.truthy (post_pubDate post) = true ->
  freshAt (ticks σ2) post w = true ->
  (PostTracker.isNewPost logger post w σ1).1 = false
  ∧ (PostTracker.isNewPost logger post w σ2).1 = true.
Proof.
  cbv zeta. intros Hold Hid Hpub Hfresh.
  destruct (markAsSeen_run logger (post_id post) σ) as (Hs1 & _).
  split.
  - apply isNewPost_seen. rewrite Hs1, lookup_insert_eq. by eexists.
  - destruct (isNewPost_valid logger post w
                (PostTracker.cleanup logger
                   (PostTracker.markAsSeen logger (post_id post) σ).2).2 Hid Hpub) as (-> & _).
    rewrite isWithinTimeWindow_freshAt, Hfresh. cbn [andb].
    rewrite cleanup_lookup, Hs1, lookup_insert_eq.
    apply Z.ltb_lt in Hold. by rewrite Hold.
Qed.

End TrackerAccounting.

(* ===================================================================== *)
(** ** Further properties: fetching and selecting *)
(* ===================================================================== *)

Section FetchProperties.
Context `{Host}.
Variable logger : Logger.t.
Variable net : Network.

(** X8.  [fetchMultipleFeeds] resolves to one result per requested
    subreddit, in the order of the request and labelled with its name;
    a failed result has an error message and no posts, a successful one
    has no error message and one post per item of the feed; the two
    counts of the summary line add up to the number of subreddits. *)
Theorem fetchMultipleFeeds_results (subreddits : list string) (σ : World) :
  let results := (RssService.fetchMultipleFeeds logger net subreddits σ).1 in
  map RssService.subreddit results = subreddits
  ∧ Forall (fun r =>
       match parseURL net (RssService.feedUrl (RssService.subreddit r)) with
       | ParseFeed items =>
           RssService.success r = true ∧ RssService.error r = None
           ∧ RssService.posts r = map (RssService.postOfItem (RssService.subreddit r)) items
       | ParseRejects message =>
           RssService.success r = false ∧ RssService.error r = Some message
           ∧ RssService.posts r = []
       end) results
  ∧ (length (List.filter RssService.success results)
     + length (List.filter (fun r => negb (RssService.success r)) results)
     = length subreddits)%nat.
Proof.
  cbv zeta. rewrite fetchMultipleFeeds_value.
  induction subreddits as [|s subs (IHname & IHeach & IHcount)]; [by repeat constructor|].
  cbn [map List.filter]. rewrite fetchFeed_value.
  split; [|split].
  - rewrite IHname. by destruct (parseURL net (RssService.feedUrl s)).
  - constructor; [|exact IHeach].
    destruct (parseURL net (RssService.feedUrl s)) eqn:Hs; cbn; by rewrite Hs.
  - destruct (parseURL net (RssService.feedUrl s)); cbn [RssService.success negb length]; lia.
Qed.

(** X9.  A post made from a feed item is tracked under the item's [id],
    or under its [guid] when there is no [id], and dated by [pubDate],
    or by [isoDate] when there is no [pubDate].  An item that has
    neither identifier, or neither date, gives a post that [isNewPost]
    rejects, with an error line as its only effect. *)
Theorem postOfItem_identity (subreddit : string) (item : Item) (w : Js.number) (σ : World) :
  let post := RssService.postOfItem subreddit item in
  Js.truthy (post_id post) = Js.truthy (item_id item) || Js.truthy (item_guid item)
  ∧ Js.truthy (post_pubDate post)
    = Js.truthy (item_pubDate item) || Js.truthy (item_isoDate item)
  ∧ (Js.truthy (item_id item) = true -> post_id post = item_id item)
  ∧ (Js.truthy (item_id item) = false -> post_id post = item_guid item)
  ∧ (Js.truthy (item_pubDate item) = true -> post_pubDate post = item_pubDate item)
  ∧ (Js.truthy (item_pubDate item) = false -> post_pubDate post = item_isoDate item)
  ∧ (Js.truthy (item_id item) || Js.truthy (item_guid item) = false
     ∨ Js.truthy (item_pubDate item) || Js.truthy (item_isoDate item) = false ->
     PostTracker.isNewPost logger post w σ
     = (false, (Logger.error logger "Invalid post object:" σ).2)).
Proof.
  cbv zeta. cbn [RssService.postOfItem post_id post_pubDate]. unfold Js.or.
  assert (Hid : Js.truthy (if Js.truthy (item_id item) then item_id item else item_guid item)
                = Js.truthy (item_id item) || Js.truthy (item_guid item))
    by (by destruct (Js.truthy (item_id item)) eqn:E).
  assert (Hpub : Js.truthy (if Js.truthy (item_pubDate item)
                            then item_pubDate item else item_isoDate item)
                 = Js.truthy (item_pubDate item) || Js.truthy (item_isoDate item))
    by (by destruct (Js.truthy (item_pubDate item)) eqn:E).
  split; [exact Hid|]. split; [exact Hpub|].
  split; [by intros ->|]. split; [by intros ->|].
  split; [by intros ->|]. split; [by intros ->|].
  intros Hbad. apply isNewPost_invalid.
  cbn [RssService.postOfItem post_id post_pubDate]. unfold Js.or.
  rewrite Hid, Hpub. exact Hbad.
Qed.

End FetchProperties.

Section SelectionProperties.
Context `{Host}.
Variable config : Config.
Variable net : Network.

Let logger := Index.logger config.
Let window := monitoring_postAgeMinutes config.

Lemma monitorFeeds_pair σ :
  Index.monitorFeeds config net σ
  = ((Index.monitorFeeds config net σ).1, (Index.monitorFeeds config net σ).2).
Proof. apply surjective_pairing. Qed.

(** X10.  Every post a cycle works on comes from a configured source
    that answered: it carries that source's name, it is the post made
    from one of the items the source returned, and it has no decision
    yet. *)
Theorem allPosts_provenance (σ : World) :
  Forall (fun p =>
      post_subreddit p ∈ monitoring_subreddits config
      ∧ post_shouldReply p = None
      ∧ ∃ items item,
          parseURL net (RssService.feedUrl (post_subreddit p)) = ParseFeed items
          ∧ item ∈ items
          ∧ p = RssService.postOfItem (post_subreddit p) item)
    (Index.allPosts (Index.monitorFeeds config net σ).1).
Proof.
  destruct (monitorFeeds_run config net _ _ _ (monitorFeeds_pair σ)) as (-> & _).
  apply Forall_forall. intros p Hp.
  unfold retrieved, RssService.getAllPosts in Hp.
  apply list_elem_of_In, in_flat_map in Hp as (r & Hr & Hp).
  apply filter_In in Hr as [Hr _]. apply in_map_iff in Hr as (s & <- & Hs).
  rewrite fetchFeed_value in Hp.
  destruct (parseURL net (RssService.feedUrl s)) as [|items] eqn:Hfeed; cbn in Hp; [done|].
  apply in_map_iff in Hp as (item & <- & Hitem). cbn [RssService.postOfItem post_subreddit
    post_shouldReply].
  split; [by apply list_elem_of_In|]. split; [done|].
  exists items, item. split; [done|]. split; [by apply list_elem_of_In|done].
Qed.

(** The filter keeps the order of the posts. *)
Lemma filterM_sublist {A : Type} (f : A -> M bool) (l : list A) (σ : World) :
  (filterM f l σ).1 `sublist_of` l.
Proof.
  revert σ. induction l as [|a l IH]; intros σ; cbn [filterM].
  - rewrite run_ret. constructor.
  - rewrite !run_bind, run_ret. cbn [fst].
    destruct (f a σ).1; [apply sublist_skip|apply sublist_cons]; apply IH.
Qed.

Lemma filterM_isNewPost_all (l : list Post) (σ : World) :
  (∀ p, p ∈ l ->
     Js.truthy (post_id p) = true ∧ Js.truthy (post_pubDate p) = true
     ∧ seenPosts σ !! post_id p = None
     ∧ ∀ n, (ticks σ <= n)%nat -> freshAt n p window = true) ->
  (filterM (fun post => PostTracker.isNewPost logger post window) l σ).1 = l.
Proof.
  revert σ. induction l as [|a l IH]; intros σ Hall; cbn [filterM]; [done|].
  rewrite !run_bind, run_ret. cbn [fst].
  destruct (Hall a ltac:(by left)) as (Hid & Hpub & Hnone & Hfresh).
  destruct (isNewPost_valid logger a window σ Hid Hpub) as (Hval & Hs & _ & Ht).
  rewrite Hval, isWithinTimeWindow_freshAt, Hfresh by lia.
  rewrite bool_decide_eq_false_2 by (by apply eq_None_not_Some). cbn [andb negb].
  f_equal. apply IH. intros p Hp.
  destruct (Hall p ltac:(by right)) as (Hid' & Hpub' & Hnone' & Hfresh').
  rewrite Hs, Ht. repeat split; try done. intros n Hn. apply Hfresh'. lia.
Qed.

(** X11.  The posts a cycle selects are a subsequence of the posts it
    retrieved, in the same order; each of them has an identifier and a
    publish date, was not in the seen map when the cycle began, and was
    fresh at one of the cycle's readings of the clock.  Nothing is
    merged: when every retrieved post is eligible at every reading, the
    selection is the whole list, repetitions included. *)
Theorem selection_of_new_posts (σ : World) :
  let c := (Index.monitorFeeds config net σ).1 in
  Index.newPosts c `sublist_of` Index.allPosts c
  ∧ Forall (fun p =>
        Js.truthy (post_id p) = true ∧ Js.truthy (post_pubDate p) = true
        ∧ seenPosts σ !! post_id p = None
        ∧ ∃ n, (ticks σ <= n)%nat ∧ freshAt n p window = true)
      (Index.newPosts c)
  ∧ (Forall (fun p =>
         Js.truthy (post_id p) = true ∧ Js.truthy (post_pubDate p) = true
         ∧ seenPosts σ !! post_id p = None
         ∧ ∀ n, (ticks σ <= n)%nat -> freshAt n p window = true)
       (Index.allPosts c) ->
     Index.newPosts c = Index.allPosts c).
Proof.
  cbv zeta.
  destruct (Index.monitorFeeds config net σ) as [c σ'] eqn:Hrun. cbn [fst].
  destruct (monitorFeeds_run config net c σ σ' Hrun) as (Hall & Hsound & _).
  unfold Index.monitorFeeds in Hrun. fold logger window in Hrun.
  apply bind_inv in Hrun as ([] & σa & Hlog & Hrun).
  apply bind_inv in Hrun as (feedResults & σb & Hfetch & Hrun). cbv zeta in Hrun.
  apply bind_inv in Hrun as ([] & σ1 & Hlog1 & Hrun).
  apply bind_inv in Hrun as (new & σf & Hfilter & Hrun).
  apply bind_inv in Hrun as ([] & σ2 & Hlog2 & Hrun).
  apply bind_inv in Hrun as (dispatch & σ3 & Hdispatch & Hrun).
  apply bind_inv in Hrun as ([] & σc & Hclean & Hrun).
  apply bind_inv in Hrun as (n & σd & Hcount & Hrun).
  apply bind_inv in Hrun as ([] & σe & Hlog3 & Hrun).
  rewrite run_ret in Hrun. injection Hrun as <- <-.
  cbn [Index.allPosts Index.newPosts] in *.
  destruct (writer_run _ _ _ _ initialWorld (writer_info logger _) Hlog) as (_ & Hsa & Hta & _).
  destruct (writer_run _ _ _ _ initialWorld
              (writer_fetchMultipleFeeds logger net _) Hfetch) as (_ & Hsb & Htb & _).
  destruct (writer_run _ _ _ _ initialWorld (writer_info logger _) Hlog1) as (_ & Hs1 & Ht1 & _).
  assert (Hnew : new = (filterM (fun post => PostTracker.isNewPost logger post window)
                          (RssService.getAllPosts feedResults) σ1).1) by (by rewrite Hfilter).
  split; [|split].
  - rewrite Hnew. apply filterM_sublist.
  - apply Forall_forall. intros p Hp. by destruct (Hsound p Hp) as (_ & ?).
  - intros Heligible. rewrite Hnew. apply filterM_isNewPost_all.
    intros p Hp. rewrite Forall_forall in Heligible.
    destruct (Heligible p Hp) as (Hid & Hpub & Hnone & Hfresh).
    repeat split; try done; [congruence|]. intros k Hk. apply Hfresh. lia.
Qed.

End SelectionProperties.

(* ===================================================================== *)
(** ** Further properties: the annotation service *)
(* ===================================================================== *)

Section AnnotationProperties.
Context `{Host}.
Variable config : Config.
Variable logger : Logger.t.
Variable net : Network.

Lemma generateReply_value post σ :
  OpenAIService.enabled config = true ->
  (OpenAIService.generateReply config logger net post σ).1 = Some (decisionOf config net post).
Proof.
  intros Hon. unfold OpenAIService.generateReply, decisionOf. rewrite Hon. cbn [negb].
  rewrite !run_bind.
  destruct (chat_completions_create net _ _ _) as [status message|content].
  - by rewrite !run_bind, run_ret.
  - cbv zeta. destruct (negb (Js.truthy (Js.trim <$> content))).
    + by rewrite !run_bind, run_ret.
    + destruct (JSON_parse _); by rewrite !run_bind, run_ret.
Qed.

Lemma or_str_nonempty (a : option string) (b : string) : b ≠ "" -> Js.or_str a b ≠ "".
Proof.
  intros Hb. unfold Js.or_str. destruct a as [s|]; [|done].
  destruct (String.eqb s "") eqn:Hs; [done|]. by apply String.eqb_neq.
Qed.

(** X12.  With the service disabled, or for an empty list, the analysis
    hands the posts back as they are and prints nothing; a disabled
    service resolves every single request to [null] without a line in
    the log. *)
Theorem annotation_disabled_is_noop (posts : list Post) (σ : World) :
  OpenAIService.enabled config = false ∨ posts = [] ->
  OpenAIService.analyzeAllPosts config logger net posts σ = (posts, σ)
  ∧ OpenAIService.generateReplies config logger net posts σ = (posts, σ)
  ∧ (OpenAIService.enabled config = false ->
     ∀ post, OpenAIService.generateReply config logger net post σ = (None, σ)).
Proof.
  intros Hoff.
  assert (Hguard : negb (OpenAIService.enabled config) || (length posts =? 0)%nat = true).
  { destruct Hoff as [-> | ->]; [done|apply orb_true_r]. }
  unfold OpenAIService.analyzeAllPosts, OpenAIService.generateReplies. rewrite Hguard.
  do 2 (split; [done|]). intros Hdisabled post.
  unfold OpenAIService.generateReply. by rewrite Hdisabled.
Qed.

(** X13.  With the service enabled every analysed post keeps the fields
    it came with and carries a decision.  A failed call (API error,
    empty or undecodable response) is recorded as a decision to skip
    with a reason naming the failure; otherwise the decision is to
    reply exactly when the decoded [should_reply] is [true].  A post
    has no skip reason exactly when the decision is to reply, and a
    skip reason is never empty. *)
Theorem analysed_post_decision (post : Post) (σ : World) :
  OpenAIService.enabled config = true ->
  let q := (OpenAIService.analyzeOne config logger net post σ).1 in
  baseline q = baseline post
  ∧ post_fullContent q = post_fullContent post
  ∧ (annotationFails config net post = true ->
       post_shouldReply q = Some false ∧ post_aiReply q = None
       ∧ post_skipReason q ∈ [Some "OpenAI API error"; Some "No response from AI";
                               Some "AI response error"])
  ∧ (annotationFails config net post = false ->
       ∃ content response,
         chat_completions_create net (openai_model config) (openai_prompt config)
           (OpenAIService.formatPostForPrompt post) = AiCompletion (Some content)
         ∧ JSON_parse (Js.trim content) = Some response
         ∧ post_shouldReply q = Some (should_reply response)
         ∧ post_aiReply q = Js.or (AiJson_reply response) None)
  ∧ (post_shouldReply q = Some true ↔ post_skipReason q = None)
  ∧ (∀ why, post_skipReason q = Some why -> why ≠ "").
Proof.
  intros Hon q. subst q. unfold OpenAIService.analyzeOne. rewrite run_bind.
  rewrite generateReply_value by done. rewrite run_ret. cbn [fst].
  unfold annotationFails, decisionOf.
  destruct (chat_completions_create net _ _ _) as [status message|content].
  - cbn. split; [done|]. split; [done|]. split; [intros _; split; [done|split; [done|]]|].
    { set_solver. }
    split; [discriminate|]. split; [split; discriminate|]. by intros why [= <-].
  - cbv zeta. destruct (Js.truthy (Js.trim <$> content)) eqn:Htruthy; cbn [negb orb].
    + destruct content as [content|]; [|discriminate]. cbn [fmap option_fmap option_map Js.show].
      destruct (JSON_parse (Js.trim content)) as [response|] eqn:Hjson.
      * cbn. split; [done|]. split; [done|]. split; [discriminate|].
        split; [intros _; by exists content, response|].
        destruct (should_reply response); cbn.
        -- split; [done|]. discriminate.
        -- split; [split; discriminate|].
           intros why [= <-]. by apply or_str_nonempty.
      * cbn. split; [done|]. split; [done|].
        split; [intros _; split; [done|split; [done|set_solver]]|].
        split; [discriminate|]. split; [split; discriminate|]. by intros why [= <-].
    + cbn. split; [done|]. split; [done|].
      split; [intros _; split; [done|split; [done|set_solver]]|].
      split; [discriminate|]. split; [split; discriminate|]. by intros why [= <-].
Qed.

Lemma writer_generateReplies_step post :
  writer (result ← OpenAIService.generateReply config logger net post;
          match result with
          | Some r =>
              mret {| post_id := post_id post;
                      post_title := post_title post;
                      post_link := post_link post;
                      post_pubDate := post_pubDate post;
                      post_subreddit := post_subreddit post;
                      post_content := post_content post;
                      post_contentSnippet := post_contentSnippet post;
                      post_fullContent := post_fullContent post;
                      post_shouldReply := Some (OpenAIService.shouldReply r);
                      post_aiReply := OpenAIService.reply r;
                      post_skipReason := post_skipReason post |}
          | None => mret post
          end).
Proof.
  apply writer_bind; [apply writer_generateReply|intros [r|]; apply writer_ret].
Qed.

(** X14.  The filtering variant returns what the analysis marks for a
    reply: for posts that come without a skip reason (as every post of
    a feed does), [generateReplies] resolves to the posts of
    [analyzeAllPosts] whose decision is to reply, in the same order. *)
Theorem generateReplies_filters_analysis (posts : list Post) (σ : World) :
  OpenAIService.enabled config = true ->
  Forall (fun p => post_skipReason p = None) posts ->
  (OpenAIService.generateReplies config logger net posts σ).1
  = List.filter (fun p => bool_decide (post_shouldReply p = Some true))
      (OpenAIService.analyzeAllPosts config logger net posts σ).1.
Proof.
  intros Hon Hnone. rewrite analyzeAllPosts_value by done.
  unfold OpenAIService.generateReplies. rewrite Hon. cbn [negb orb].
  destruct posts as [|p0 posts0] eqn:Hposts; [done|]. rewrite <- Hposts in *.
  assert (Hlen : (length posts =? 0)%nat = false) by (by rewrite Hposts).
  rewrite Hlen. rewrite !run_bind, run_ret. cbn [fst].
  rewrite (mapM_value _ _ _ initialWorld) by apply writer_generateReplies_step.
  clear Hposts Hlen. induction Hnone as [|p posts Hp _ IH]; [done|].
  cbn [map List.filter]. rewrite IH. clear IH.
  unfold OpenAIService.analyzeOne. rewrite !run_bind.
  rewrite generateReply_value by done. rewrite !run_ret. cbn [fst].
  cbn [OpenAIService.annotate post_shouldReply].
  destruct (OpenAIService.shouldReply (decisionOf config net p)) eqn:Hd; cbn.
  - rewrite !bool_decide_eq_true_2 by done. f_equal.
    unfold OpenAIService.annotate. by rewrite Hd, Hp.
  - by rewrite !bool_decide_eq_false_2 by done.
Qed.

End AnnotationProperties.

(* ===================================================================== *)
(** ** Further properties: the notifier *)
(* ===================================================================== *)

Lemma append_assoc (a b c : string) : (a +:+ b) +:+ c = a +:+ (b +:+ c).
Proof.
  induction a as [|ch a IH]; [done|]. rewrite !append_cons. by rewrite IH.
Qed.

Lemma append_empty_r (s : string) : s +:+ "" = s.
Proof. induction s as [|ch s IH]; [done|]. rewrite append_cons. by rewrite IH. Qed.

Lemma occurs_refl (s : string) : occurs s s.
Proof. exists "", "". by rewrite append_nil, append_empty_r. Qed.

Lemma occurs_append_l (sub s t : string) : occurs sub s -> occurs sub (s +:+ t).
Proof.
  intros (a & b & ->). exists a, (b +:+ t). by rewrite !append_assoc.
Qed.

Lemma occurs_append_r (sub s t : string) : occurs sub t -> occurs sub (s +:+ t).
Proof.
  intros (a & b & ->). exists (s +:+ a), b. by rewrite !append_assoc.
Qed.

Lemma occurs_join (sep x : string) (l : list string) :
  x ∈ l -> occurs x (Js.join sep l).
Proof.
  induction l as [|y l IH]; intros Hx; [by apply elem_of_nil in Hx|].
  apply elem_of_cons in Hx as [-> | Hx'].
  - destruct l as [|z l]; cbn [Js.join]; [apply occurs_refl|].
    apply occurs_append_l, occurs_refl.
  - destruct l as [|z l]; [by apply elem_of_nil in Hx'|].
    change (Js.join sep (y :: z :: l)) with (y +:+ sep +:+ Js.join sep (z :: l)).
    do 2 apply occurs_append_r. by apply IH.
Qed.

(** Splitting at a character and joining with it gives the string back. *)
Lemma join_split (sep : ascii) (s : string) :
  Js.join (String sep "") (Js.split sep s) = s.
Proof.
  induction s as [|ch s IH]; [done|]. cbn [Js.split].
  destruct (Ascii.eqb ch sep) eqn:Hch.
  - apply Ascii.eqb_eq in Hch as ->.
    destruct (Js.split sep s) as [|piece rest] eqn:Hsplit.
    + by destruct s; cbn in Hsplit; [|destruct (Ascii.eqb _ _), (Js.split _ _)].
    + change (Js.join (String sep "") ("" :: piece :: rest))
        with ("" +:+ String sep "" +:+ Js.join (String sep "") (piece :: rest)).
      rewrite IH. reflexivity.
  - destruct (Js.split sep s) as [|piece rest] eqn:Hsplit.
    + by destruct s; cbn in Hsplit; [|destruct (Ascii.eqb _ _), (Js.split _ _)].
    + destruct rest as [|piece' rest].
      * cbn [Js.join] in *. by rewrite IH.
      * change (Js.join (String sep "") (String ch piece :: piece' :: rest))
          with (String ch piece +:+ String sep "" +:+ Js.join (String sep "") (piece' :: rest)).
        change (Js.join (String sep "") (piece :: piece' :: rest))
          with (piece +:+ String sep "" +:+ Js.join (String sep "") (piece' :: rest)) in IH.
        rewrite append_cons. by rewrite IH.
Qed.

Lemma postsToEmail_idempotent (posts : list Post) :
  EmailService.postsToEmail (EmailService.postsToEmail posts) = EmailService.postsToEmail posts.
Proof.
  unfold EmailService.postsToEmail.
  induction posts as [|p posts IH]; [done|]. cbn [List.filter].
  destruct (negb (bool_decide (post_shouldReply p = Some false))) eqn:Hp; [|done].
  cbn [List.filter]. by rewrite Hp, IH.
Qed.

(** The entry of a post that is not suppressed. *)
Lemma formatPost_kept (index : nat) (post : Post) :
  post_shouldReply post ≠ Some false ->
  EmailService.formatPost index post =
  Js.ofNat (index + 1) +:+ "." +:+ Js.nl +:+ entryLines post +:+
  (if Js.truthy (post_aiReply post)
   then Js.nl +:+ Js.nl +:+ "AI Suggested Reply:" +:+ Js.nl +:+ Js.show (post_aiReply post)
   else "").
Proof.
  intros Hkept. unfold EmailService.formatPost, entryLines. cbv zeta.
  rewrite bool_decide_eq_false_2 by done.
  destruct (Js.truthy (post_aiReply post)).
  - rewrite (join_split (ascii_of_nat 10)). by rewrite !append_assoc.
  - by rewrite !append_assoc, append_empty_r.
Qed.

Section NotifierProperties.
Variable config : Config.
Variable logger : Logger.t.
Variable net : Network.

(** X15.  One call of [sendNotification] hands at most one email to the
    provider and leaves the tracker alone.  It answers true exactly
    when some post passes its filter and the provider accepts the
    email built from the posts that pass; a rejected email was still
    handed over.  The email goes from the configured sender to the
    configured recipient alone. *)
Theorem sendNotification_outcome (posts : option (list Post)) (σ : World) :
  let r := EmailService.sendNotification config logger net posts σ in
  let kept := EmailService.postsToEmail (default [] posts) in
  let e := EmailService.emailParams config kept in
  (r.1 = true ↔ kept ≠ [] ∧ mailerSend_email_send net e = SendOk)
  ∧ outbox r.2 = outbox σ ++ (if decide (kept = []) then [] else [e])
  ∧ seenPosts r.2 = seenPosts σ ∧ ticks r.2 = ticks σ
  ∧ email_from e = (email_fromEmail config, email_fromName config)
  ∧ email_to e = [email_toEmail config].
Proof.
  cbv zeta.
  destruct (sendNotification_tracker config logger net posts σ) as [Hs Ht].
  split; [|split; [|done]].
  - destruct posts as [posts|]; [change (default [] (Some posts)) with posts|change (default [] (@None (list Post))) with (@nil Post)].
    + destruct (decide (EmailService.postsToEmail posts = [])) as [Hnone | Hsome].
      * destruct (sendNotification_nothing config logger net posts σ Hnone) as [-> _].
        split; [discriminate|]. by intros [? _].
      * destruct (sendNotification_attempt config logger net posts σ Hsome) as [-> _].
        destruct (mailerSend_email_send net _); split; try done.
        -- by intros [_ ?].
    + destruct (sendNotification_none config logger net σ) as [-> _].
      split; [discriminate|]. by intros [? _].
  - destruct posts as [posts|]; [change (default [] (Some posts)) with posts|change (default [] (@None (list Post))) with (@nil Post)].
    + destruct (decide (EmailService.postsToEmail posts = [])) as [Hnone | Hsome].
      * destruct (sendNotification_nothing config logger net posts σ Hnone) as [_ ->].
        cbv iota. by rewrite app_nil_r.
      * by destruct (sendNotification_attempt config logger net posts σ Hsome) as [_ ->].
    + destruct (sendNotification_none config logger net σ) as [_ ->].
      rewrite decide_True by done. by rewrite app_nil_r.
Qed.

(** X16.  The posts the annotation suppressed have no part in the
    notification: with them or without them in the batch, the answer
    of [sendNotification] and the email it hands over are the same. *)
Theorem sendNotification_ignores_suppressed (posts : list Post) (σ : World) :
  let r := EmailService.sendNotification config logger net (Some posts) σ in
  let r' := EmailService.sendNotification config logger net
              (Some (EmailService.postsToEmail posts)) σ in
  r.1 = r'.1 ∧ outbox r.2 = outbox r'.2.
Proof.
  cbv zeta.
  destruct (decide (EmailService.postsToEmail posts = [])) as [Hnone | Hsome].
  - destruct (sendNotification_nothing config logger net posts σ Hnone) as [-> ->].
    rewrite Hnone.
    by destruct (sendNotification_nothing config logger net [] σ eq_refl) as [-> ->].
  - destruct (sendNotification_attempt config logger net posts σ Hsome) as [-> ->].
    assert (Hsome' : EmailService.postsToEmail (EmailService.postsToEmail posts) ≠ [])
      by (by rewrite postsToEmail_idempotent).
    destruct (sendNotification_attempt config logger net _ σ Hsome') as [-> ->].
    by rewrite postsToEmail_idempotent.
Qed.

(** X17.  The text of the email opens with the number of posts that
    pass the filter, and it shows every one of them: its source, title
    and link on three lines, and, when the annotation produced a
    reply, that reply unchanged under the heading for suggested
    replies. *)
Theorem email_shows_every_post (posts : list Post) :
  let kept := EmailService.postsToEmail posts in
  let body := email_text (EmailService.emailParams config kept) in
  (∃ rest, body = "You have " +:+ Js.ofNat (length kept) +:+ " new Reddit post" +:+ rest)
  ∧ Forall (fun p =>
        occurs (entryLines p) body
        ∧ (Js.truthy (post_aiReply p) = true ->
           occurs ("AI Suggested Reply:" +:+ Js.nl +:+ Js.show (post_aiReply p)) body))
      kept.
Proof.
  cbv zeta. cbn [EmailService.emailParams email_text]. unfold EmailService.formatEmailBody.
  split; [eexists; by rewrite !append_assoc|].
  apply Forall_forall. intros p Hp.
  pose proof (postsToEmail_not_suppressed posts p Hp) as [_ Hkept].
  apply list_elem_of_lookup in Hp as [i Hi].
  assert (Hentry : EmailService.formatPost i p
                   ∈ imap EmailService.formatPost (EmailService.postsToEmail posts)).
  { apply list_elem_of_lookup. exists i. by rewrite list_lookup_imap, Hi. }
  assert (Hin : ∀ sub, occurs sub (EmailService.formatPost i p) ->
                       occurs sub
                         (("You have " +:+ Js.ofNat (length (EmailService.postsToEmail posts)) +:+
                           " new Reddit post" +:+
                           (if (1 <? length (EmailService.postsToEmail posts))%nat
                            then "s" else "") +:+ ":" +:+ Js.nl +:+ Js.nl) +:+
                          Js.join (Js.nl +:+ Js.nl)
                            (imap EmailService.formatPost (EmailService.postsToEmail posts)) +:+
                          Js.nl +:+ Js.nl +:+ "---" +:+ Js.nl +:+ "Reddit RSS Monitor")).
  { intros sub (a & b & Hsub). apply occurs_append_r, occurs_append_l.
    destruct (occurs_join (Js.nl +:+ Js.nl) _ _ Hentry) as (a' & b' & ->).
    exists (a' +:+ a), (b +:+ b'). rewrite Hsub. by rewrite !append_assoc. }
  rewrite (formatPost_kept i p Hkept) in Hin.
  split.
  - apply Hin. do 3 apply occurs_append_r. apply occurs_append_l, occurs_refl.
  - intros Hreply. apply Hin. rewrite Hreply.
    do 6 apply occurs_append_r. apply occurs_refl.
Qed.

End NotifierProperties.

(* ===================================================================== *)
(** ** Further properties: the configuration *)
(* ===================================================================== *)

Lemma trimEnd_idempotent (s : string) : Js.trimEnd (Js.trimEnd s) = Js.trimEnd s.
Proof.
  induction s as [|c s IH]; [done|]. cbn [Js.trimEnd].
  destruct (Js.trimEnd s) as [|d t] eqn:Hs.
  - destruct (Js.isWhiteSpace c) eqn:Hc; [done|]. cbn [Js.trimEnd]. by rewrite Hc.
  - change (Js.trimEnd (String c (String d t)))
      with (match Js.trimEnd (String d t) with
            | EmptyString => if Js.isWhiteSpace c then EmptyString else String c EmptyString
            | u => String c u
            end).
    by rewrite IH.
Qed.

Lemma trimStart_head (s : string) :
  Js.trimStart s = "" ∨ ∃ c r, Js.trimStart s = String c r ∧ Js.isWhiteSpace c = false.
Proof.
  induction s as [|c s IH]; [by left|]. cbn [Js.trimStart].
  destruct (Js.isWhiteSpace c) eqn:Hc; [exact IH|]. right. by exists c, s.
Qed.

Lemma trimStart_trimEnd (c : ascii) (r : string) :
  Js.isWhiteSpace c = false ->
  Js.trimStart (Js.trimEnd (String c r)) = Js.trimEnd (String c r).
Proof.
  intros Hc. cbn [Js.trimEnd].
  destruct (Js.trimEnd r); rewrite ?Hc; cbn [Js.trimStart]; by rewrite Hc.
Qed.

Lemma trim_idempotent (s : string) : Js.trim (Js.trim s) = Js.trim s.
Proof.
  unfold Js.trim.
  destruct (trimStart_head s) as [-> | (c & r & -> & Hc)]; [done|].
  by rewrite trimStart_trimEnd, trimEnd_idempotent.
Qed.

Lemma hasChar_trimStart (c : ascii) (s : string) :
  hasChar c s = false -> hasChar c (Js.trimStart s) = false.
Proof.
  induction s as [|x s IH]; [done|]. cbn [Js.trimStart].
  destruct (Js.isWhiteSpace x); [|done].
  cbn [hasChar]. intros [_ Hs]%orb_false_iff. by apply IH.
Qed.

Lemma hasChar_trimEnd (c : ascii) (s : string) :
  hasChar c s = false -> hasChar c (Js.trimEnd s) = false.
Proof.
  induction s as [|x s IH]; [done|]. cbn [hasChar Js.trimEnd].
  intros [Hx Hs]%orb_false_iff. specialize (IH Hs).
  destruct (Js.trimEnd s) as [|d t].
  - destruct (Js.isWhiteSpace x); [done|]. cbn [hasChar]. by rewrite Hx.
  - cbn [hasChar] in *. by rewrite Hx, IH.
Qed.

Lemma hasChar_split (sep : ascii) (s : string) :
  Forall (fun piece => hasChar sep piece = false) (Js.split sep s).
Proof.
  induction s as [|x s IH]; [by repeat constructor|]. cbn [Js.split].
  destruct (Ascii.eqb x sep) eqn:Hx; [by constructor|].
  destruct (Js.split sep s) as [|piece rest].
  - repeat constructor. cbn [hasChar]. by rewrite Hx.
  - apply Forall_cons in IH as [Hpiece Hrest]. constructor; [|done].
    cbn [hasChar]. by rewrite Hx, Hpiece.
Qed.

(** X18.  Every subreddit name the configuration ends up with is
    non-empty, has no white space at either end and contains no comma,
    whatever was written in SUBREDDITS. *)
Theorem parseSubreddits_names (value : string) :
  Forall (fun name => name ≠ "" ∧ Js.trim name = name ∧ hasChar "," name = false)
    (Env.parseSubreddits value).
Proof.
  unfold Env.parseSubreddits. apply Forall_forall. intros name Hname.
  apply list_elem_of_In, filter_In in Hname as [Hin Hlen].
  apply in_map_iff in Hin as (piece & <- & Hpiece).
  split; [|split].
  - intros Hempty. rewrite Hempty in Hlen. discriminate.
  - apply trim_idempotent.
  - unfold Js.trim. apply hasChar_trimEnd, hasChar_trimStart.
    pose proof (hasChar_split "," value) as Hsplit. rewrite Forall_forall in Hsplit.
    apply Hsplit. by apply list_elem_of_In.
Qed.

Lemma prefix_append (a b : string) : String.prefix a (a +:+ b) = true.
Proof.
  induction a as [|c a IH]; [by destruct b|].
  rewrite append_cons. cbn [String.prefix]. by destruct (ascii_dec c c).
Qed.

Section ConfigurationProperties.
Context `{Host}.



(** X20.  What a loaded configuration defaults to: a polling period and
    a freshness window of 5 minutes, the log level ['info'] and
    development mode (in which every subject is prefixed with
    ["[dev] "]) for variables that are unset or empty.  The annotation
    service is enabled exactly when OPENAI_API_KEY is set and
    non-empty, and its prompt is never empty. *)
Theorem configuration_defaults (env : gmap string string) (promptFile : option string)
    (cfg : Config) :
  Env.config env promptFile = Ok cfg ->
  (missing env "CHECK_INTERVAL_MINUTES" -> monitoring_checkIntervalMinutes cfg = Js.Num 5)
  ∧ (missing env "POST_AGE_MINUTES" -> monitoring_postAgeMinutes cfg = Js.Num 5)
  ∧ (missing env "LOG_LEVEL" -> logging_level cfg = "info")
  ∧ (missing env "NODE_ENV" ->
       env_isDevelopment cfg = true
       ∧ ∀ posts, String.prefix "[dev] " (email_subject (EmailService.emailParams cfg posts))
                  = true)
  ∧ (OpenAIService.enabled cfg = true ↔ ¬ missing env "OPENAI_API_KEY")
  ∧ openai_prompt cfg ≠ "".
Proof.
  intros Hcfg. unfold Env.config in Hcfg.
  destruct (Env.requireEnv env "MAILERSEND_API_TOKEN") as [token|]; [|discriminate].
  destruct (Env.requireEnv env "FROM_EMAIL") as [from|]; [|discriminate].
  destruct (Env.requireEnv env "TO_EMAIL") as [to|]; [|discriminate].
  destruct (Env.requireEnv env "SUBREDDITS") as [subs|]; [|discriminate].
  cbn [mbind Result_bind] in Hcfg. cbv zeta in Hcfg.
  repeat match type of Hcfg with
         | (if ?b then _ else _) = _ => destruct b; [discriminate|]
         end.
  injection Hcfg as <-.
  cbn [monitoring_checkIntervalMinutes monitoring_postAgeMinutes logging_level
       env_isDevelopment openai_prompt].
  assert (Hdefault : ∀ v d, missing env v -> Env.getEnv env v d = d).
  { intros v d [Hv | Hv]; unfold Env.getEnv; by rewrite Hv. }
  split; [intros Hm; by rewrite Hdefault|].
  split; [intros Hm; by rewrite Hdefault|].
  split; [intros Hm; by rewrite Hdefault|].
  split; [|split].
  - intros Hm. rewrite Hdefault by done. split; [reflexivity|].
    intros posts. unfold EmailService.emailParams.
    cbn [env_isDevelopment email_subject]. rewrite ?Hdefault by done.
    rewrite String.eqb_refl. apply prefix_append.
  - unfold OpenAIService.enabled, missing, Env.getEnv. cbn [openai_apiKey].
    destruct (env !! "OPENAI_API_KEY") as [key|]; cbn [Js.or_str].
    + destruct (String.eqb key "") eqn:Hkey; cbn.
      * apply String.eqb_eq in Hkey as ->. split; [discriminate|]. intros Hn. exfalso. apply Hn. by right.
      * rewrite Hkey. split; [|done]. intros _ [? | [= ->]]; [done|]. discriminate.
    + split; [discriminate|]. intros Hn. exfalso. apply Hn. by left.
  - unfold Env.loadOpenAIPrompt. destruct promptFile as [text|]; [|discriminate].
    destruct (0 <? String.length (Js.trim text))%nat eqn:Hlen; [|discriminate].
    intros Hempty. rewrite Hempty in Hlen. discriminate.
Qed.

End ConfigurationProperties.

(* ===================================================================== *)
(** ** Further properties: the polling cycle *)
(* ===================================================================== *)

Section CycleAccounting.
Context `{Host}.
Variable config : Config.

Let logger := Index.logger config.
Let window := monitoring_postAgeMinutes config.

(** X22.  A freshness window that is not a number (POST_AGE_MINUTES
    without a leading digit passes the validation) silences the
    monitor: no cycle selects a post, calls the notifier or hands an
    email to the provider. *)
Theorem window_NaN_silences_the_monitor (net : Network) (σ : World) :
  monitoring_postAgeMinutes config = Js.NaN ->
  let r := Index.monitorFeeds config net σ in
  Index.newPosts r.1 = []
  ∧ Index.emailSent r.1 = None
  ∧ outbox r.2 = outbox σ.
Proof.
  intros Hnan r. subst r.
  destruct (monitorFeeds_run config net _ _ _ (monitorFeeds_pair config net σ))
    as (_ & Hsound & _ & σ2 & σ3 & _ & Ho2 & _ & Hdispatch & _ & Ho & _).
  destruct (Index.newPosts (Index.monitorFeeds config net σ).1) as [|p new] eqn:Hnew.
  - destruct Hdispatch as (_ & Hsent & _ & Ho3 & _). split; [done|]. split; [done|]. congruence.
  - exfalso. destruct (Hsound p ltac:(by left)) as (_ & _ & _ & _ & n & _ & Hfresh).
    rewrite Hnan in Hfresh. unfold freshAt in Hfresh.
    rewrite isWithinTimeWindow_run in Hfresh. cbn [fst] in Hfresh.
    destruct (Js.sub _ _); cbn in Hfresh; [done|].
    by rewrite andb_false_r in Hfresh.
Qed.

(** X23.  A cycle hands at most one email to the provider: none when it
    selected no post or when no post of the batch passes the filter of
    the notifier, and otherwise the one email built from the posts of
    the batch that pass.  The notifier is called exactly when a post
    was selected, and its answer is true exactly when the provider
    accepted that email. *)
Theorem emails_of_a_cycle (net : Network) (σ : World) :
  let r := Index.monitorFeeds config net σ in
  let kept := EmailService.postsToEmail (default [] (Index.analyzedPosts r.1)) in
  let e := EmailService.emailParams config kept in
  outbox r.2 = outbox σ ++ (if decide (kept = []) then [] else [e])
  ∧ (Index.newPosts r.1 = [] ↔ Index.emailSent r.1 = None)
  ∧ (Index.analyzedPosts r.1 = None ↔ Index.emailSent r.1 = None)
  ∧ (Index.emailSent r.1 = Some true ↔ kept ≠ [] ∧ mailerSend_email_send net e = SendOk).
Proof.
  cbv zeta.
  destruct (monitorFeeds_run config net _ _ _ (monitorFeeds_pair config net σ))
    as (_ & _ & _ & σ2 & σ3 & _ & Ho2 & _ & Hdispatch & _ & Ho & _).
  destruct (Index.newPosts (Index.monitorFeeds config net σ).1) as [|p new] eqn:Hnew.
  - destruct Hdispatch as (-> & -> & _ & Ho3 & _).
    change (default [] (@None (list Post))) with (@nil Post).
    rewrite decide_True by done. rewrite app_nil_r.
    split; [congruence|]. split; [done|]. split; [done|].
    split; [discriminate|]. by intros [? _].
  - destruct Hdispatch as (batch & sent & Hnotify & -> & ->).
    change (default [] (Some batch)) with batch.
    destruct (notify_run config net _ _ _ _ _ Hnotify) as (_ & Hnothing & Hattempt & _).
    split; [|split; [|split]].
    + rewrite Ho. destruct (decide (EmailService.postsToEmail batch = [])) as [Hnone | Hsome].
      * destruct (Hnothing Hnone) as [_ ->]. rewrite app_nil_r. congruence.
      * destruct (Hattempt Hsome) as [_ ->]. congruence.
    + split; discriminate.
    + split; discriminate.
    + destruct (decide (EmailService.postsToEmail batch = [])) as [Hnone | Hsome].
      * destruct (Hnothing Hnone) as [-> _]. split; [discriminate|]. by intros [? _].
      * destruct (Hattempt Hsome) as [-> _].
        destruct (mailerSend_email_send net _); split; try done.
        by intros [_ ?].
Qed.

(** X24.  The tracker only learns of posts that were delivered: every
    record the seen map holds after a cycle was either there before,
    with the same timestamp, or belongs to a post the cycle selected
    and the notifier answered true for, stamped with a reading of the
    clock taken during the cycle. *)
Theorem records_of_a_cycle (net : Network) (σ : World) :
  let r := Index.monitorFeeds config net σ in
  map_Forall (fun postId ts =>
      seenPosts σ !! postId = Some ts
      ∨ (Index.emailSent r.1 = Some true
         ∧ postId ∈ map post_id (Index.newPosts r.1)
         ∧ ∃ n, (ticks σ <= n)%nat ∧ ts = clock n))
    (seenPosts r.2).
Proof.
  cbv zeta. intros postId ts Hlook.
  destruct (monitorFeeds_run config net _ _ _ (monitorFeeds_pair config net σ))
    as (_ & _ & _ & σ2 & σ3 & Hs2 & _ & Ht2 & Hdispatch & Hs & _).
  fold logger in Hs. rewrite Hs, cleanup_lookup in Hlook.
  destruct (seenPosts σ3 !! postId) as [ts3|] eqn:Hlook3; [|discriminate].
  destruct (_ <? _); [discriminate|]. injection Hlook as ->.
  destruct (Index.newPosts (Index.monitorFeeds config net σ).1) as [|p new] eqn:Hnew.
  - destruct Hdispatch as (_ & _ & Hs3 & _). left. congruence.
  - destruct Hdispatch as (batch & sent & Hnotify & _ & ->).
    destruct (notify_run config net _ _ _ _ _ Hnotify) as (_ & _ & _ & Hfailed & Hsent).
    destruct sent.
    + destruct (Hsent eq_refl) as (Hmarked & Hother & _).
      destruct (decide (postId ∈ map post_id (p :: new))) as [Hin | Hnotin].
      * right. split; [done|]. split; [done|].
        apply list_elem_of_fmap in Hin as (q & -> & Hq).
        destruct (Hmarked q Hq) as (n & Hn & Hq'). exists n. split; [lia|congruence].
      * left. rewrite Hother in Hlook3 by done. congruence.
    + destruct (Hfailed eq_refl) as [Hs3 _]. left. congruence.
Qed.

(** X25.  Delivered posts are not offered twice: when a cycle whose
    notification succeeded took no more than an hour on a clock that
    does not run backwards, every post of its batch is in the seen map
    when it ends, and the next cycle selects no post that carries the
    identifier of one of them. *)
Theorem delivered_posts_are_not_selected_again (net1 net2 : Network) (σ : World) :
  let r1 := Index.monitorFeeds config net1 σ in
  let r2 := Index.monitorFeeds config net2 r1.2 in
  Index.emailSent r1.1 = Some true ->
  (∀ n m, (n <= m)%nat -> clock n <= clock m) ->
  clock (ticks r1.2 - 1) - clock (ticks σ) <= PostTracker.MAX_AGE_MS ->
  Forall (fun p => is_Some (seenPosts r1.2 !! post_id p)) (Index.newPosts r1.1)
  ∧ Forall (fun q => post_id q ∉ map post_id (Index.newPosts r1.1)) (Index.newPosts r2.1).
Proof.
  cbv zeta. intros Hsent Hmono Hhour.
  destruct (monitorFeeds_run config net1 _ _ _ (monitorFeeds_pair config net1 σ))
    as (_ & _ & _ & σ2 & σ3 & Hs2 & _ & Ht2 & Hdispatch & Hs & _ & Ht).
  destruct (monitorFeeds_run config net2 _ _ _
              (monitorFeeds_pair config net2 (Index.monitorFeeds config net1 σ).2))
    as (_ & Hsound2 & _).
  assert (Hmarked : ∀ p, p ∈ Index.newPosts (Index.monitorFeeds config net1 σ).1 ->
            is_Some (seenPosts (Index.monitorFeeds config net1 σ).2 !! post_id p)).
  { intros p Hp.
    destruct (Index.newPosts (Index.monitorFeeds config net1 σ).1) as [|p0 new] eqn:Hnew;
      [by apply elem_of_nil in Hp|].
    destruct Hdispatch as (batch & sent & Hnotify & _ & Hsome).
    assert (sent = true) as -> by congruence.
    destruct (notify_run config net1 _ _ _ _ _ Hnotify) as (_ & _ & _ & _ & Hdone).
    destruct (Hdone eq_refl) as (Hmark & _).
    destruct (Hmark p Hp) as (n & Hn & Hlook).
    fold logger in Hs. rewrite Hs, cleanup_lookup, Hlook.
    assert (Hage : clock (ticks σ3) - clock n <= PostTracker.MAX_AGE_MS).
    { rewrite Ht in Hhour. replace (S (ticks σ3) - 1)%nat with (ticks σ3) in Hhour by lia.
      pose proof (Hmono (ticks σ) n ltac:(lia)). lia. }
    apply Z.ltb_ge in Hage. rewrite Hage. by eexists. }
  split; apply Forall_forall.
  - exact Hmarked.
  - intros q Hq Hin. apply list_elem_of_fmap in Hin as (p & Hid & Hp).
    destruct (Hsound2 q Hq) as (_ & _ & _ & Hnone & _).
    specialize (Hmarked p Hp). rewrite <- Hid, Hnone in Hmarked. by destruct Hmarked.
Qed.

End CycleAccounting.

(* ===================================================================== *)
(** ** Further properties: logging does not steer the monitor *)
(* ===================================================================== *)


Lemma sameButLog_ret {A : Type} (a : A) : sameButLog (mret a : M A) (mret a).
Proof. intros σ σ' Hσ. by split. Qed.

Lemma sameButLog_bind {A B : Type} (m m' : M A) (f f' : A -> M B) :
  sameButLog m m' -> (∀ a, sameButLog (f a) (f' a)) -> sameButLog (m ≫= f) (m' ≫= f').
Proof.
  intros Hm Hf σ σ' Hσ. unfold mbind, M_bind.
  destruct (Hm σ σ' Hσ) as [Hv Hw].
  destruct (m σ) as [a w], (m' σ') as [a' w']. cbn [fst snd] in Hv, Hw. subst a'.
  by apply Hf.
Qed.

Lemma sameButLog_fmap {A B : Type} (g : A -> B) (m m' : M A) :
  sameButLog m m' -> sameButLog (g <$> m) (g <$> m').
Proof.
  intros Hm σ σ' Hσ. unfold fmap, M_fmap.
  destruct (Hm σ σ' Hσ) as [Hv Hw].
  destruct (m σ) as [a w], (m' σ') as [a' w']. cbn [fst snd] in *. by subst a'.
Qed.

Lemma sameButLog_gets {A : Type} (f : World -> A) :
  (∀ σ σ', sameButConsole σ σ' -> f σ = f σ') -> sameButLog (gets f) (gets f).
Proof. intros Hf σ σ' Hσ. split; [by apply Hf|done]. Qed.

Lemma sameButLog_modify (g : World -> World) :
  (∀ σ σ', sameButConsole σ σ' -> sameButConsole (g σ) (g σ')) ->
  sameButLog (modify g) (modify g).
Proof. intros Hg σ σ' Hσ. split; [done|by apply Hg]. Qed.

Lemma sameButLog_print_both (l l' : Level) (msg msg' : string) :
  sameButLog (print l msg) (print l' msg').
Proof. intros σ σ' Hσ. by split. Qed.

Lemma sameButLog_print_left (l : Level) (msg : string) :
  sameButLog (print l msg) (mret tt).
Proof. intros σ σ' Hσ. by split. Qed.

Lemma sameButLog_print_right (l : Level) (msg : string) :
  sameButLog (mret tt) (print l msg).
Proof. intros σ σ' Hσ. by split. Qed.

Lemma sameButLog_debug (a b : Logger.t) (msg msg' : string) :
  sameButLog (Logger.debug a msg) (Logger.debug b msg').
Proof.
  unfold Logger.debug.
  destruct (Js.le (Logger.level a) _), (Js.le (Logger.level b) _);
    [ apply sameButLog_print_both | apply sameButLog_print_left
    | apply sameButLog_print_right | apply sameButLog_ret ].
Qed.

Lemma sameButLog_info (a b : Logger.t) (msg msg' : string) :
  sameButLog (Logger.info a msg) (Logger.info b msg').
Proof.
  unfold Logger.info.
  destruct (Js.le (Logger.level a) _), (Js.le (Logger.level b) _);
    [ apply sameButLog_print_both | apply sameButLog_print_left
    | apply sameButLog_print_right | apply sameButLog_ret ].
Qed.

Lemma sameButLog_error (a b : Logger.t) (msg msg' : string) :
  sameButLog (Logger.error a msg) (Logger.error b msg').
Proof.
  unfold Logger.error.
  destruct (Js.le (Logger.level a) _), (Js.le (Logger.level b) _);
    [ apply sameButLog_print_both | apply sameButLog_print_left
    | apply sameButLog_print_right | apply sameButLog_ret ].
Qed.

Lemma sameButLog_mapM {A B : Type} (f f' : A -> M B) (l : list A) :
  (∀ a, sameButLog (f a) (f' a)) -> sameButLog (mapM f l) (mapM f' l).
Proof.
  intros Hf. induction l as [|a l IH]; cbn [mapM]; [apply sameButLog_ret|].
  apply sameButLog_bind; [apply Hf|]. intros b.
  apply sameButLog_bind; [apply IH|]. intros bs. apply sameButLog_ret.
Qed.

Lemma sameButLog_filterM {A : Type} (f f' : A -> M bool) (l : list A) :
  (∀ a, sameButLog (f a) (f' a)) -> sameButLog (filterM f l) (filterM f' l).
Proof.
  intros Hf. induction l as [|a l IH]; cbn [filterM]; [apply sameButLog_ret|].
  apply sameButLog_bind; [apply Hf|]. intros b.
  apply sameButLog_bind; [apply IH|]. intros bs. apply sameButLog_ret.
Qed.

Lemma sameButLog_forEach {A : Type} (f f' : A -> M unit) (l : list A) :
  (∀ a, sameButLog (f a) (f' a)) -> sameButLog (forEach f l) (forEach f' l).
Proof.
  intros Hf. induction l as [|a l IH]; cbn [forEach]; [apply sameButLog_ret|].
  apply sameButLog_bind; [apply Hf|]. intros _. apply IH.
Qed.

Ltac log_step :=
  match goal with
  | |- sameButLog (mret _) (mret _) => apply sameButLog_ret
  | |- sameButLog (Logger.debug _ _) (Logger.debug _ _) => apply sameButLog_debug
  | |- sameButLog (Logger.info _ _) (Logger.info _ _) => apply sameButLog_info
  | |- sameButLog (Logger.error _ _) (Logger.error _ _) => apply sameButLog_error
  | |- sameButLog (_ ≫= _) (_ ≫= _) => apply sameButLog_bind; [|intros ?]
  | |- sameButLog (_ <$> _) (_ <$> _) => apply sameButLog_fmap
  | |- sameButLog (mapM _ _) (mapM _ _) => apply sameButLog_mapM; intros ?
  | |- sameButLog (filterM _ _) (filterM _ _) => apply sameButLog_filterM; intros ?
  | |- sameButLog (forEach _ _) (forEach _ _) => apply sameButLog_forEach; intros ?
  | |- sameButLog (if ?b then _ else _) _ => destruct b
  | |- sameButLog (match ?x with _ => _ end) _ => destruct x
  end.

Section LogIndependence.
Context `{Host}.
Variable a b : Logger.t.

Lemma sameButLog_Date_now : sameButLog Date_now Date_now.
Proof.
  intros σ σ' (Hs & Ht & Ho). unfold Date_now. cbn [fst snd].
  rewrite Ht. split; [done|]. by split.
Qed.

Lemma sameButLog_isNewPost (post : Post) (w : Js.number) :
  sameButLog (PostTracker.isNewPost a post w) (PostTracker.isNewPost b post w).
Proof.
  unfold PostTracker.isNewPost, DateUtils.isWithinTimeWindow.
  destruct (_ || _); repeat log_step.
  - apply sameButLog_Date_now.
  - apply sameButLog_gets. by intros σ σ' (Hs & _).
Qed.

Lemma sameButLog_markAsSeen (postId : option string) :
  sameButLog (PostTracker.markAsSeen a postId) (PostTracker.markAsSeen b postId).
Proof.
  unfold PostTracker.markAsSeen. repeat log_step.
  - apply sameButLog_Date_now.
  - apply sameButLog_modify. intros σ σ' (Hs & Ht & Ho).
    split; [|by split]. cbn [seenPosts set_seenPosts]. by rewrite Hs.
  - apply sameButLog_gets. intros σ σ' (Hs & _). by rewrite Hs.
Qed.

Lemma sameButLog_cleanup : sameButLog (PostTracker.cleanup a) (PostTracker.cleanup b).
Proof.
  unfold PostTracker.cleanup. repeat log_step.
  - apply sameButLog_Date_now.
  - apply sameButLog_gets. by intros σ σ' (Hs & _).
  - apply sameButLog_modify. by intros σ σ' (Hs & Ht & Ho).
Qed.

Lemma sameButLog_getTrackedCount :
  sameButLog PostTracker.getTrackedCount PostTracker.getTrackedCount.
Proof. apply sameButLog_gets. intros σ σ' (Hs & _). by rewrite Hs. Qed.

Variable net : Network.

Lemma sameButLog_fetchFullPostContent (postUrl : option string) :
  sameButLog (RssService.fetchFullPostContent a net postUrl)
             (RssService.fetchFullPostContent b net postUrl).
Proof. unfold RssService.fetchFullPostContent. repeat log_step. Qed.

Lemma sameButLog_fetchMultipleFeeds (subreddits : list string) :
  sameButLog (RssService.fetchMultipleFeeds a net subreddits)
             (RssService.fetchMultipleFeeds b net subreddits).
Proof. unfold RssService.fetchMultipleFeeds, RssService.fetchFeed. repeat log_step. Qed.

Variable config : Config.

Lemma sameButLog_analyzeAllPosts (posts : list Post) :
  sameButLog (OpenAIService.analyzeAllPosts config a net posts)
             (OpenAIService.analyzeAllPosts config b net posts).
Proof.
  unfold OpenAIService.analyzeAllPosts, OpenAIService.analyzeOne, OpenAIService.generateReply.
  repeat log_step.
Qed.

Lemma sameButLog_sendNotification (posts : option (list Post)) :
  sameButLog (EmailService.sendNotification config a net posts)
             (EmailService.sendNotification config b net posts).
Proof.
  unfold EmailService.sendNotification. repeat log_step;
    apply sameButLog_modify; intros σ σ' (Hs & Ht & Ho);
    (split; [done|]); (split; [done|]); cbn [outbox set_outbox]; by rewrite Ho.
Qed.

End LogIndependence.

Lemma monitorFeeds_withLogLevel `{Host} (config : Config) (lvl : string) (net : Network) :
  sameButLog (Index.monitorFeeds config net)
             (Index.monitorFeeds (withLogLevel lvl config) net).
Proof.
  unfold Index.monitorFeeds, Index.notify, OpenAIService.isEnabled.
  change (OpenAIService.enabled (withLogLevel lvl config))
    with (OpenAIService.enabled config).
  change (monitoring_subreddits (withLogLevel lvl config))
    with (monitoring_subreddits config).
  change (monitoring_postAgeMinutes (withLogLevel lvl config))
    with (monitoring_postAgeMinutes config).
  change (OpenAIService.analyzeAllPosts (withLogLevel lvl config))
    with (OpenAIService.analyzeAllPosts config).
  change (EmailService.sendNotification (withLogLevel lvl config))
    with (EmailService.sendNotification config).
  generalize (Index.logger config) (Index.logger (withLogLevel lvl config)).
  intros a b.
  repeat first
    [ apply sameButLog_fetchMultipleFeeds
    | apply sameButLog_isNewPost
    | apply sameButLog_fetchFullPostContent
    | apply sameButLog_analyzeAllPosts
    | apply sameButLog_sendNotification
    | apply sameButLog_markAsSeen
    | apply sameButLog_cleanup
    | apply sameButLog_getTrackedCount
    | log_step ].
Qed.

Lemma requireEnv_insert_ne (env : gmap string string) (k k' v : string) :
  k' ≠ k -> Env.requireEnv (<[k' := v]> env) k = Env.requireEnv env k.
Proof. intros Hk. unfold Env.requireEnv. by rewrite lookup_insert_ne. Qed.

Lemma getEnv_insert_ne (env : gmap string string) (k k' v d : string) :
  k' ≠ k -> Env.getEnv (<[k' := v]> env) k d = Env.getEnv env k d.
Proof. intros Hk. unfold Env.getEnv. by rewrite lookup_insert_ne. Qed.

(** LOG_LEVEL reaches the configuration in [logging.level] alone. *)
Lemma config_withLogLevel (env : gmap string string) (promptFile : option string)
    (lvl : string) (cfg : Config) :
  Env.config env promptFile = Ok cfg ->
  Env.config (<["LOG_LEVEL" := lvl]> env) promptFile
  = Ok (withLogLevel (Js.or_str (Some lvl) "info") cfg).
Proof.
  intros Hcfg. unfold Env.config in *.
  rewrite !requireEnv_insert_ne by done.
  replace (Env.getEnv (<["LOG_LEVEL" := lvl]> env) "LOG_LEVEL" "info")
    with (Js.or_str (Some lvl) "info")
    by (unfold Env.getEnv; by rewrite lookup_insert_eq).
  rewrite !getEnv_insert_ne by done.
  destruct (Env.requireEnv env "MAILERSEND_API_TOKEN") as [token|]; [|discriminate].
  destruct (Env.requireEnv env "FROM_EMAIL") as [from|]; [|discriminate].
  destruct (Env.requireEnv env "TO_EMAIL") as [to|]; [|discriminate].
  destruct (Env.requireEnv env "SUBREDDITS") as [subs|]; [|discriminate].
  cbn [mbind Result_bind] in *. cbv zeta in *.
  cbn [email_fromEmail email_toEmail monitoring_subreddits monitoring_checkIntervalMinutes
       monitoring_postAgeMinutes] in *.
  repeat match type of Hcfg with
         | (if ?b then _ else _) = _ => destruct b; [discriminate|]
         end.
  by injection Hcfg as <-.
Qed.

(** X26.  The log level only changes what is printed.  When the
    configuration loads, it also loads with LOG_LEVEL set to any other
    value; and two cycles run with the two configurations, in states
    that differ at most in what was printed before, retrieve and select
    the same posts, analyse them to the same batch, get the same answer
    from the notifier, hand the same emails to the provider, and leave
    the same tracker after the same readings of the clock. *)
Theorem log_level_only_changes_the_log `{Host} (env : gmap string string)
    (promptFile : option string) (lvl : string) (cfg : Config) (net : Network)
    (σ σ' : World) :
  Env.config env promptFile = Ok cfg ->
  sameButConsole σ σ' ->
  ∃ cfg',
    Env.config (<["LOG_LEVEL" := lvl]> env) promptFile = Ok cfg'
    ∧ let r := Index.monitorFeeds cfg net σ in
      let r' := Index.monitorFeeds cfg' net σ' in
      r.1 = r'.1
      ∧ seenPosts r.2 = seenPosts r'.2 ∧ outbox r.2 = outbox r'.2 ∧ ticks r.2 = ticks r'.2.
Proof.
  intros Hcfg Hσ. eexists. split; [by apply config_withLogLevel|]. cbv zeta.
  destruct (monitorFeeds_withLogLevel cfg (Js.or_str (Some lvl) "info") net σ σ' Hσ)
    as (Hv & Hs & Ht & Ho).
  done.
Qed.

(* ===================================================================== *)
(** ** Further properties: from the selection to the notifier *)
(* ===================================================================== *)

Lemma Forall2_map_same {A B : Type} (P : A -> B -> Prop) (f : A -> B) (l : list A) :
  Forall (fun a => P a (f a)) l -> Forall2 P l (map f l).
Proof. induction 1; cbn [map]; by constructor. Qed.

Section BatchProperties.
Context `{Host}.
Variable config : Config.
Variable net : Network.

Let logger := Index.logger config.

Lemma analysed_fullContent (p : Post) :
  post_fullContent (analysed config net p) = post_fullContent p.
Proof.
  unfold analysed, OpenAIService.analyzeOne. rewrite run_bind.
  by destruct (OpenAIService.generateReply config _ net p initialWorld).1.
Qed.

Lemma enriched_fullContent (p : Post) (σ0 : World) :
  post_fullContent (enriched config net p)
  = Js.or (Js.or (RssService.fetchFullPostContent logger net (post_link p) σ0).1
                 (post_contentSnippet p))
          (post_content p).
Proof.
  unfold enriched. cbn [Index.withFullContent post_fullContent]. fold logger.
  by rewrite (writer_value _ initialWorld σ0 (writer_fetchFullPostContent logger net _)).
Qed.

(** X27.  Between the selection and the notifier no post is lost, added
    or reordered.  A cycle that selected no post has no batch; one that
    selected posts hands the notifier one post per selected post, in
    the same order and with the fields of the feed unchanged, whatever
    the full-content request and the annotation service answered.  The
    [fullContent] of a post of the batch is the fetched text when that
    is non-empty, otherwise the snippet of the feed, otherwise its
    content; and the post carries a decision exactly when the
    annotation service is enabled. *)
Theorem batch_of_a_cycle (σ : World) :
  let c := (Index.monitorFeeds config net σ).1 in
  match Index.analyzedPosts c with
  | None => Index.newPosts c = []
  | Some batch =>
      Index.newPosts c ≠ []
      ∧ Forall2 (fun p q =>
            baseline q = baseline p
            ∧ (∀ σ0, post_fullContent q
                     = Js.or (Js.or (RssService.fetchFullPostContent
                                       (Index.logger config) net (post_link p) σ0).1
                                    (post_contentSnippet p))
                             (post_content p))
            ∧ (is_Some (post_shouldReply q) ↔ OpenAIService.enabled config = true))
          (Index.newPosts c) batch
  end.
Proof.
  cbv zeta.
  destruct (monitorFeeds_run config net _ _ _ (monitorFeeds_pair config net σ))
    as (_ & Hsound & _ & σ2 & σ3 & _ & _ & _ & Hdispatch & _).
  destruct (Index.newPosts (Index.monitorFeeds config net σ).1) as [|p0 new] eqn:Hnew.
  { destruct Hdispatch as (-> & _). reflexivity. }
  destruct Hdispatch as (batch & sent & Hnotify & -> & _).
  split; [done|].
  destruct (notify_run config net _ _ _ _ _ Hnotify) as (-> & _).
  assert (Hundecided : ∀ p, p ∈ p0 :: new -> post_shouldReply p = None).
  { intros p Hp. destruct (Hsound p Hp) as (Hret & _). by eapply retrieved_undecided. }
  revert Hundecided. generalize (p0 :: new). intros posts Hundecided.
  unfold batchOf. cbv zeta.
  destruct (OpenAIService.enabled config) eqn:Hon.
  - rewrite map_map. apply Forall2_map_same, Forall_forall. intros p _.
    split; [by rewrite analysed_baseline|]. split.
    + intros σ0. rewrite analysed_fullContent. apply enriched_fullContent.
    + split; [done|]. intros _. by apply analyzeOne_decided.
  - apply Forall2_map_same, Forall_forall. intros p Hp.
    split; [reflexivity|]. split.
    + intros σ0. apply enriched_fullContent.
    + rewrite enriched_shouldReply, (Hundecided p Hp).
      split; [by intros [? ?]|done].
Qed.

End BatchProperties.

(** X28.  What the annotation service reads about a post of the batch:
    its subreddit, title and link, and between them the text the cycle
    stored as [fullContent] (the fetched text, else the snippet, else
    the content of the feed).  The fall-backs of [formatPostForPrompt]
    itself never apply to such a post; and a text that is empty or all
    white space is replaced by the placeholder, also when the feed had
    a snippet. *)
Theorem prompt_of_enriched_post (post : Post) (fetched : option string) :
  let text := Js.or (Js.or fetched (post_contentSnippet post)) (post_content post) in
  let body :=
    match text with
    | Some t => if (0 <? String.length (Js.trim t))%nat
                then "Post Content:" +:+ Js.nl +:+ t
                else "Post Content: [No text content - may be link/image/video post]"
    | None => "Post Content: [No text content - may be link/image/video post]"
    end in
  OpenAIService.formatPostForPrompt (Index.withFullContent post fetched)
  = "Subreddit: r/" +:+ post_subreddit post +:+ Js.nl +:+ Js.nl +:+
    "Post Title: " +:+ Js.show (post_title post) +:+ Js.nl +:+ Js.nl +:+
    body +:+ Js.nl +:+ Js.nl +:+
    "Post Link: " +:+ Js.show (post_link post).
Proof.
  cbv zeta. unfold OpenAIService.formatPostForPrompt. cbv zeta.
  cbn [Index.withFullContent post_fullContent post_content post_contentSnippet
       post_subreddit post_title post_link].
  set (text := Js.or (Js.or fetched (post_contentSnippet post)) (post_content post)).
  assert (Hchoice : Js.or (Js.or text (post_content post)) (post_contentSnippet post) = text
                    ∨ (Js.truthy text = false
                       ∧ Js.truthy (Js.or (Js.or text (post_content post))
                                          (post_contentSnippet post)) = false)).
  { subst text. unfold Js.or.
    destruct (Js.truthy fetched) eqn:Hf; rewrite ?Hf; [by left|].
    destruct (Js.truthy (post_contentSnippet post)) eqn:Hs; rewrite ?Hs; [by left|].
    destruct (Js.truthy (post_content post)) eqn:Hc; rewrite ?Hc, ?Hs; [by left|].
    by right. }
  assert (Hblank : ∀ v, Js.truthy v = false ->
            match v with
            | Some c => negb (String.eqb c "") && (0 <? String.length (Js.trim c))%nat
            | None => false
            end = false).
  { intros [c|] Hv; [|done]. cbn [Js.truthy] in Hv. by rewrite Hv. }
  destruct Hchoice as [-> | [Htext Hother]].
  - destruct text as [t|]; [|by rewrite !append_assoc].
    destruct (String.eqb t "") eqn:Ht.
    + apply String.eqb_eq in Ht as ->. cbn [negb andb]. by rewrite !append_assoc.
    + cbn [negb andb]. destruct (0 <? _)%nat; by rewrite !append_assoc.
  - pose proof (Hblank _ Hother) as Hb. pose proof (Hblank _ Htext) as Hb'.
    destruct (Js.or (Js.or text (post_content post)) (post_contentSnippet post)) as [c|].
    + rewrite Hb. destruct text as [t|]; [|by rewrite !append_assoc].
      destruct (0 <? String.length (Js.trim t))%nat eqn:Hlen; [|by rewrite !append_assoc].
      rewrite andb_true_r in Hb'. apply negb_false_iff, String.eqb_eq in Hb' as ->.
      done.
    + destruct text as [t|]; [|by rewrite !append_assoc].
      destruct (0 <? String.length (Js.trim t))%nat eqn:Hlen; [|by rewrite !append_assoc].
      rewrite andb_true_r in Hb'. apply negb_false_iff, String.eqb_eq in Hb' as ->.
      done.
Qed.

(* ===================================================================== *)
(** ** Further properties: startup *)
(* ===================================================================== *)





(* ===================================================================== *)
(** ** The further properties at work on the fixtures *)
(* ===================================================================== *)

Lemma evicted_post_is_new_again_witness :
  (@PostTracker.isNewPost Fixture.afterAnHour (Logger.new "info") Fixture.post1 (Js.Num 90)
     (@PostTracker.markAsSeen Fixture.afterAnHour (Logger.new "info") (Some "a1")
        initialWorld).2).1 = false
  ∧ (@PostTracker.isNewPost Fixture.afterAnHour (Logger.new "info") Fixture.post1 (Js.Num 90)
       (@PostTracker.cleanup Fixture.afterAnHour (Logger.new "info")
          (@PostTracker.markAsSeen Fixture.afterAnHour (Logger.new "info") (Some "a1")
             initialWorld).2).2).1 = true.
Proof.
  apply (@evicted_post_is_new_again Fixture.afterAnHour (Logger.new "info") Fixture.post1
           (Js.Num 90) initialWorld).
  - vm_compute. reflexivity.
  - reflexivity.
  - reflexivity.
  - vm_compute. reflexivity.
Defined.

Lemma annotation_disabled_is_noop_witness :
  @OpenAIService.analyzeAllPosts Fixture.now0 Fixture.cfg (Logger.new "info")
    (Fixture.net [] Fixture.chatDown SendOk) [Fixture.post1] initialWorld
  = ([Fixture.post1], initialWorld).
Proof.
  apply (@annotation_disabled_is_noop Fixture.now0 Fixture.cfg (Logger.new "info")
           (Fixture.net [] Fixture.chatDown SendOk) [Fixture.post1] initialWorld).
  left. reflexivity.
Defined.

Lemma analysed_post_decision_witness :
  let q := (@OpenAIService.analyzeOne Fixture.now0 Fixture.cfgAi (Logger.new "info")
              (Fixture.net [] Fixture.chat SendOk) Fixture.post1 initialWorld).1 in
  post_shouldReply q = Some true ∧ post_skipReason q = None
  ∧ post_aiReply q = Some "Nice riff!".
Proof.
  cbv zeta.
  destruct (@analysed_post_decision Fixture.now0 Fixture.cfgAi (Logger.new "info")
              (Fixture.net [] Fixture.chat SendOk) Fixture.post1 initialWorld eq_refl)
    as (_ & _ & _ & Hdecoded & Hreason & _).
  destruct (Hdecoded ltac:(vm_compute; reflexivity))
    as (content & response & Hchat & Hjson & Hreply & Hai).
  vm_compute in Hchat. injection Hchat as <-.
  vm_compute in Hjson. injection Hjson as <-.
  split; [exact Hreply|]. split; [by apply Hreason|exact Hai].
Defined.

Lemma generateReplies_filters_analysis_witness :
  (@OpenAIService.generateReplies Fixture.now0 Fixture.cfgAi (Logger.new "info")
     (Fixture.net [] Fixture.chat SendOk) [Fixture.post1; Fixture.post2] initialWorld).1
  = List.filter (fun p => bool_decide (post_shouldReply p = Some true))
      (@OpenAIService.analyzeAllPosts Fixture.now0 Fixture.cfgAi (Logger.new "info")
         (Fixture.net [] Fixture.chat SendOk) [Fixture.post1; Fixture.post2] initialWorld).1.
Proof.
  apply (@generateReplies_filters_analysis Fixture.now0 Fixture.cfgAi (Logger.new "info")
           (Fixture.net [] Fixture.chat SendOk) [Fixture.post1; Fixture.post2] initialWorld).
  - reflexivity.
  - repeat constructor.
Defined.


Lemma configuration_defaults_witness :
  monitoring_checkIntervalMinutes Fixture.cfg = Js.Num 5
  ∧ env_isDevelopment Fixture.cfg = true
  ∧ OpenAIService.enabled Fixture.cfg = false.
Proof.
  destruct (configuration_defaults Fixture.env None Fixture.cfg
              ltac:(vm_compute; reflexivity))
    as (Hinterval & _ & _ & Hdev & Hkey & _).
  split; [apply Hinterval; left; reflexivity|].
  split; [apply Hdev; left; reflexivity|].
  apply not_true_is_false. intros Hon. apply (proj1 Hkey Hon). left. reflexivity.
Defined.

Lemma window_NaN_silences_the_monitor_witness :
  let r := @Index.monitorFeeds Fixture.now0 Fixture.cfgNaN
             (Fixture.net [Fixture.a1; Fixture.a2] Fixture.chat SendOk) initialWorld in
  Index.newPosts r.1 = [] ∧ Index.emailSent r.1 = None ∧ outbox r.2 = outbox initialWorld.
Proof.
  apply (@window_NaN_silences_the_monitor Fixture.now0 Fixture.cfgNaN
           (Fixture.net [Fixture.a1; Fixture.a2] Fixture.chat SendOk) initialWorld).
  reflexivity.
Defined.

Lemma delivered_posts_are_not_selected_again_witness :
  Forall (fun p => is_Some (seenPosts Fixture.cycleOneSourceDown.2 !! post_id p))
    (Index.newPosts Fixture.cycleOneSourceDown.1)
  ∧ Forall (fun q => post_id q ∉ map post_id (Index.newPosts Fixture.cycleOneSourceDown.1))
      (Index.newPosts
         (@Index.monitorFeeds Fixture.now0 Fixture.cfg
            (Fixture.net [Fixture.a1; Fixture.a2; Fixture.future] Fixture.chat SendOk)
            Fixture.cycleOneSourceDown.2).1).
Proof.
  apply (@delivered_posts_are_not_selected_again Fixture.now0 Fixture.cfg
           (Fixture.net [Fixture.a1; Fixture.a2; Fixture.future] Fixture.chat SendOk)
           (Fixture.net [Fixture.a1; Fixture.a2; Fixture.future] Fixture.chat SendOk)
           initialWorld).
  - vm_compute. reflexivity.
  - intros n m Hnm. apply Z.le_refl.
  - vm_compute. discriminate.
Defined.

Lemma log_level_only_changes_the_log_witness :
  ∃ cfg',
    Env.config (<["LOG_LEVEL" := "error"]> Fixture.env) None = Ok cfg'
    ∧ let r := @Index.monitorFeeds Fixture.now0 Fixture.cfg
                 (Fixture.net [Fixture.a1; Fixture.a2] Fixture.chat SendOk) initialWorld in
      let r' := @Index.monitorFeeds Fixture.now0 cfg'
                  (Fixture.net [Fixture.a1; Fixture.a2] Fixture.chat SendOk) initialWorld in
      r.1 = r'.1
      ∧ seenPosts r.2 = seenPosts r'.2 ∧ outbox r.2 = outbox r'.2 ∧ ticks r.2 = ticks r'.2.
Proof.
  apply (@log_level_only_changes_the_log Fixture.now0 Fixture.env None "error" Fixture.cfg
           (Fixture.net [Fixture.a1; Fixture.a2] Fixture.chat SendOk)
           initialWorld initialWorld).
  - vm_compute. reflexivity.
  - split; [reflexivity|]. split; reflexivity.
Defined.

